(** * Better-skills: detection and conversion of skill directories

    A shallow embedding of [src/detector.ts] and [src/converter.ts].

    The two modules are written against Node's [fs] and [path] libraries, so
    the development starts with a model of a POSIX file tree (directories,
    regular files, symbolic links), of path resolution with symbolic links,
    and of the [fs] calls the program makes.  The program itself is then
    transcribed function by function, in a state-and-exception monad for
    the converter (which mutates the tree) and in an exception monad for the
    detector (which only reads it). *)

From Stdlib Require Import List String Ascii ZArith Lia Bool Arith.
From Stdlib Require Import DecimalString.
Import ListNotations.

Local Open Scope string_scope.
Local Open Scope list_scope.

Set Implicit Arguments.
Set Warnings "-register-all".

(* ================================================================== *)
(** ** Exceptions and results *)

(** The error codes Node reports for the system calls used below. *)
Inductive errno :=
| ENOENT | ENOTDIR | EEXIST | EISDIR | ELOOP | EACCES
| ENOTEMPTY | EINVAL | ENAMETOOLONG | EBUSY.

(** [String(error)] of a Node system error; the syscall name and the path
    that follow the description in Node's message are left out. *)
Definition show_errno (e : errno) : string :=
  match e with
  | ENOENT => "Error: ENOENT: no such file or directory"
  | ENOTDIR => "Error: ENOTDIR: not a directory"
  | EEXIST => "Error: EEXIST: file already exists"
  | EISDIR => "Error: EISDIR: illegal operation on a directory"
  | ELOOP => "Error: ELOOP: too many symbolic links encountered"
  | EACCES => "Error: EACCES: permission denied"
  | ENOTEMPTY => "Error: ENOTEMPTY: directory not empty"
  | EINVAL => "Error: EINVAL: invalid argument"
  | ENAMETOOLONG => "Error: ENAMETOOLONG: name too long"
  | EBUSY => "Error: EBUSY: resource busy or locked"
  end.

(** What the program can see thrown: a system error from [fs], or the parse
    error of the YAML library. *)
Inductive exn :=
| SysErr (e : errno)
| YAMLParseError (msg : string).
Coercion SysErr : errno >-> exn.

(** [String(error)], as a template literal renders a caught exception. *)
Definition show_exn (x : exn) : string :=
  match x with
  | SysErr e => show_errno e
  | YAMLParseError msg => String.append "YAMLParseError: " msg
  end.

(** The outcome of a JavaScript expression: a value or a thrown exception. *)
Inductive Res (A : Type) :=
| Ok (a : A)
| Throw (e : exn).
Arguments Ok {A} a.
Arguments Throw {A} e.

Definition is_ok {A} (r : Res A) : bool :=
  match r with Ok _ => true | Throw _ => false end.

Definition res_bind {A B} (r : Res A) (k : A -> Res B) : Res B :=
  match r with Ok a => k a | Throw e => Throw e end.

(** [try { body } catch { handler }] for a body that only reads. *)
Definition res_try {A} (body : Res A) (handler : Res A) : Res A :=
  match body with Ok a => Ok a | Throw _ => handler end.

(* ================================================================== *)
(** ** Paths

    A path is absolute and normalised: the list of its components from the
    root.  A name handed to [path.join] is one component. *)

Definition path := list string.

Definition path_eqb (p q : path) : bool :=
  if list_eq_dec string_dec p q then true else false.

Definition path_join (dir : path) (name : string) : path := dir ++ [name].
Definition path_dirname (p : path) : path := removelast p.
Definition path_basename (p : path) : string := last p "".

(** The text stored in a symbolic link: an absolute path, or a relative one
    made of [up] leading [..] segments followed by the names [down]. *)
Inductive linktext :=
| LAbs (p : path)
| LRel (up : nat) (down : path).

Fixpoint strip_common (from to : path) : path * path :=
  match from, to with
  | a :: from', b :: to' =>
      if String.eqb a b then strip_common from' to' else (from, to)
  | _, _ => (from, to)
  end.

(** [path.relative(from, to)]. *)
Definition path_relative (from to : path) : linktext :=
  let '(f, t) := strip_common from to in LRel (List.length f) t.

(** [path.resolve(base, text)]: lexical, no file system access. *)
Definition path_resolve (base : path) (t : linktext) : path :=
  match t with
  | LAbs p => p
  | LRel up down => firstn (List.length base - up) base ++ down
  end.

(* ================================================================== *)
(** ** The file tree

    A regular file has a mode and a content, whose length is its size.  Of
    the permissions of a directory the tree keeps whether it can be listed
    ([readable]); the permission to search it is not modelled.  The entries
    of a directory are in the order [readdir] lists them. *)

Inductive node :=
| File (mode : Z) (content : string)
| Dir (readable : bool) (entries : list (string * node))
| Symlink (target : linktext).

(** What [Dirent.isDirectory()], [isFile()] and [isSymbolicLink()] tell. *)
Inductive kind := KFile | KDir | KSymlink.

Definition kind_of (n : node) : kind :=
  match n with File _ _ => KFile | Dir _ _ => KDir | Symlink _ => KSymlink end.

Definition isDirectory (k : kind) : bool :=
  match k with KDir => true | _ => false end.
Definition isFile (k : kind) : bool :=
  match k with KFile => true | _ => false end.
Definition isSymbolicLink (k : kind) : bool :=
  match k with KSymlink => true | _ => false end.

Fixpoint lookup (ents : list (string * node)) (s : string) : option node :=
  match ents with
  | [] => None
  | (k, c) :: tl => if String.eqb k s then Some c else lookup tl s
  end.

Definition child (n : node) (s : string) : option node :=
  match n with Dir _ ents => lookup ents s | _ => None end.

(** The node at a physical path (no link is followed). *)
Fixpoint get (n : node) (p : path) : option node :=
  match p with
  | [] => Some n
  | s :: p' => match child n s with Some c => get c p' | None => None end
  end.

Fixpoint alter_entry (s : string) (g : option node -> option node)
    (ents : list (string * node)) : list (string * node) :=
  match ents with
  | [] => match g None with Some c => [(s, c)] | None => [] end
  | (k, c) :: tl =>
      if String.eqb k s
      then match g (Some c) with Some c' => (k, c') :: tl | None => tl end
      else (k, c) :: alter_entry s g tl
  end.

(** Replace, insert or delete the node at a physical path.  A new entry is
    appended to its directory; nothing happens when the parent is missing,
    and the root itself can be replaced but not deleted. *)
Fixpoint alter (f : option node -> option node) (p : path) (n : node)
    {struct p} : node :=
  match p, n with
  | [], _ => match f (Some n) with Some n' => n' | None => n end
  | s :: p', Dir r ents =>
      Dir r (alter_entry s
               (fun o => match p' with
                         | [] => f o
                         | _ :: _ => option_map (alter f p') o
                         end) ents)
  | _, _ => n
  end.

Definition put (p : path) (c : node) : node -> node := alter (fun _ => Some c) p.
Definition del (p : path) : node -> node := alter (fun _ => None) p.

(** Every directory lists a name once. *)
Fixpoint names_unique (names : list string) : bool :=
  match names with
  | [] => true
  | s :: tl => negb (existsb (String.eqb s) tl) && names_unique tl
  end.

Fixpoint wf_node (n : node) : bool :=
  match n with
  | Dir _ ents =>
      names_unique (map fst ents) &&
      (fix all (l : list (string * node)) : bool :=
         match l with
         | [] => true
         | (_, c) :: tl => wf_node c && all tl
         end) ents
  | _ => true
  end.

Fixpoint height (n : node) : nat :=
  match n with
  | Dir _ ents =>
      S ((fix hmax (l : list (string * node)) : nat :=
            match l with
            | [] => 0
            | (_, c) :: tl => Nat.max (height c) (hmax tl)
            end) ents)
  | _ => 0
  end.

(* ================================================================== *)
(** ** Path resolution

    [walk1] consumes components from the physical directory [cur] until the
    path is used up or a symbolic link has to be expanded; [walk] restarts it
    after each expansion, at most [SYMLOOP_MAX] times. *)

Inductive comp := Up | Name (s : string).

Definition comps_of_link (t : linktext) : list comp :=
  match t with
  | LAbs p => map Name p
  | LRel up down => repeat Up up ++ map Name down
  end.

Definition link_is_empty (t : linktext) : bool :=
  match t with LRel 0 [] => true | _ => false end.

Inductive step :=
| Done (p : path) (n : node)
| Redirect (cur : path) (rest : list comp)
| Stuck (e : errno).

Fixpoint walk1 (root : node) (cur : path) (rest : list comp)
    (nofollow : bool) : step :=
  match rest with
  | [] =>
      match get root cur with
      | Some n => Done cur n
      | None => Stuck ENOENT
      end
  | Up :: rest' =>
      match get root cur with
      | Some (Dir _ _) => walk1 root (removelast cur) rest' nofollow
      | Some _ => Stuck ENOTDIR
      | None => Stuck ENOENT
      end
  | Name s :: rest' =>
      match get root cur with
      | Some (Dir _ ents) =>
          match lookup ents s with
          | None => Stuck ENOENT
          | Some (Symlink t) =>
              if nofollow && match rest' with [] => true | _ => false end
              then Done (cur ++ [s]) (Symlink t)
              else if link_is_empty t then Stuck ENOENT
              else Redirect (match t with LAbs _ => [] | LRel _ _ => cur end)
                            (comps_of_link t ++ rest')
          | Some _ => walk1 root (cur ++ [s]) rest' nofollow
          end
      | Some _ => Stuck ENOTDIR
      | None => Stuck ENOENT
      end
  end.

Fixpoint walk (fuel : nat) (root : node) (cur : path) (rest : list comp)
    (nofollow : bool) : Res (path * node) :=
  match walk1 root cur rest nofollow with
  | Done p n => Ok (p, n)
  | Stuck e => Throw e
  | Redirect cur' rest' =>
      match fuel with
      | 0 => Throw ELOOP
      | S fuel' => walk fuel' root cur' rest' nofollow
      end
  end.

Definition SYMLOOP_MAX : nat := 40.

(** [stat] follows a final symbolic link, [lstat] does not; both return the
    physical path reached and the node found there. *)
Definition stat (fs : node) (p : path) : Res (path * node) :=
  walk SYMLOOP_MAX fs [] (map Name p) false.
Definition lstat (fs : node) (p : path) : Res (path * node) :=
  walk SYMLOOP_MAX fs [] (map Name p) true.

(* ================================================================== *)
(** ** The [fs] calls that only read *)

Definition existsSync (fs : node) (p : path) : bool := is_ok (stat fs p).

Definition realpathSync (fs : node) (p : path) : Res path :=
  res_bind (stat fs p) (fun r => Ok (fst r)).

(** [fs.lstatSync(p)] and [fs.statSync(p)]: the node stands for its [Stats]
    object, read through the accessors below. *)
Definition lstatSync (fs : node) (p : path) : Res node :=
  res_bind (lstat fs p) (fun r => Ok (snd r)).
Definition statSync (fs : node) (p : path) : Res node :=
  res_bind (stat fs p) (fun r => Ok (snd r)).

Definition st_isSymbolicLink (n : node) : bool := isSymbolicLink (kind_of n).

(** [Stats.size] and [Stats.mode]; the program reads them for regular files
    only. *)
Definition st_size (n : node) : Z :=
  match n with File _ c => Z.of_nat (String.length c) | _ => 0%Z end.
Definition st_mode (n : node) : Z :=
  match n with File m _ => m | _ => 0%Z end.

(** [fs.readdirSync(p, { withFileTypes: true })]. *)
Definition dirents (ents : list (string * node)) : list (string * kind) :=
  map (fun e => (fst e, kind_of (snd e))) ents.

Definition readdirSync (fs : node) (p : path) : Res (list (string * kind)) :=
  match stat fs p with
  | Ok (_, Dir true ents) => Ok (dirents ents)
  | Ok (_, Dir false _) => Throw EACCES
  | Ok _ => Throw ENOTDIR
  | Throw e => Throw e
  end.

Definition readlinkSync (fs : node) (p : path) : Res linktext :=
  match lstat fs p with
  | Ok (_, Symlink t) => Ok t
  | Ok _ => Throw EINVAL
  | Throw e => Throw e
  end.

Definition readFileSync (fs : node) (p : path) : Res string :=
  match stat fs p with
  | Ok (_, File _ c) => Ok c
  | Ok (_, Dir _ _) => Throw EISDIR
  | Ok (_, Symlink _) => Throw ELOOP
  | Throw e => Throw e
  end.

(* ================================================================== *)
(** ** The world and the monad of the converter *)

(** The file tree, and the values the coming calls of [Date.now()] return. *)
Record world := mkWorld { w_fs : node; w_clock : list Z }.

Definition with_fs (w : world) (fs : node) : world :=
  mkWorld fs (w_clock w).

(** A computation may change the world and then return or throw; what it
    changed before throwing stays changed. *)
Definition M (A : Type) : Type := world -> Res A * world.

Definition ret {A} (a : A) : M A := fun w => (Ok a, w).
Definition throw {A} (e : exn) : M A := fun w => (Throw e, w).
Definition bind {A B} (m : M A) (k : A -> M B) : M B :=
  fun w => match m w with
           | (Ok a, w') => k a w'
           | (Throw e, w') => (Throw e, w')
           end.

Notation "x <- m ;; k" := (bind m (fun x => k))
  (at level 61, m at next level, right associativity).
Notation "m ;;; k" := (bind m (fun _ => k))
  (at level 61, right associativity).

(** A read-only call, run on the current tree. *)
Definition reading {A} (f : node -> Res A) : M A := fun w => (f (w_fs w), w).
Definition observe {A} (f : node -> A) : M A := fun w => (Ok (f (w_fs w)), w).

(** [for (const x of xs) { body }]. *)
Fixpoint for_each {A} (xs : list A) (body : A -> M unit) : M unit :=
  match xs with
  | [] => ret tt
  | x :: tl => body x ;;; for_each tl body
  end.

(** [Date.now()]. *)
Definition Date_now : M Z :=
  fun w => (Ok (hd 0%Z (w_clock w)), mkWorld (w_fs w) (tl (w_clock w))).

(* ================================================================== *)
(** ** The [fs] calls that write *)

(** The directory entry a path names: the physical path of the entry (its
    parent resolved, links followed) and what is there now, unfollowed. *)
Definition slot (fs : node) (p : path) : Res (path * option node) :=
  match p with
  | [] => Throw EBUSY
  | _ :: _ =>
      match stat fs (removelast p) with
      | Ok (rp, Dir _ ents) => Ok (rp ++ [last p ""], lookup ents (last p ""))
      | Ok _ => Throw ENOTDIR
      | Throw e => Throw e
      end
  end.

Definition mkdir1 (p : path) : M unit :=
  fun w => match slot (w_fs w) p with
           | Ok (q, None) => (Ok tt, with_fs w (put q (Dir true []) (w_fs w)))
           | Ok (_, Some _) => (Throw EEXIST, w)
           | Throw e => (Throw e, w)
           end.

(** [fs.mkdirSync(p, { recursive: true })], creating the missing components
    of [pre ++ rest] below [pre]. *)
Fixpoint mkdirp (pre rest : path) : M unit :=
  match rest with
  | [] => ret tt
  | s :: rest' =>
      fun w =>
        match stat (w_fs w) (pre ++ [s]) with
        | Ok (_, Dir _ _) => mkdirp (pre ++ [s]) rest' w
        | Ok _ =>
            (Throw (match rest' with [] => EEXIST | _ => ENOTDIR end), w)
        | Throw (SysErr ENOENT) =>
            (mkdir1 (pre ++ [s]) ;;; mkdirp (pre ++ [s]) rest') w
        | Throw e => (Throw e, w)
        end
  end.

Definition mkdirSync_recursive (p : path) : M unit := mkdirp [] p.

(** [fs.symlinkSync(text, p)]. *)
Definition symlinkSync (t : linktext) (p : path) : M unit :=
  fun w =>
    if link_is_empty t then (Throw ENOENT, w)
    else match slot (w_fs w) p with
         | Ok (q, None) => (Ok tt, with_fs w (put q (Symlink t) (w_fs w)))
         | Ok (_, Some _) => (Throw EEXIST, w)
         | Throw e => (Throw e, w)
         end.

(** [fs.unlinkSync(p)]: removes one directory entry, never a directory. *)
Definition unlinkSync (p : path) : M unit :=
  fun w => match lstat (w_fs w) p with
           | Ok (_, Dir _ _) => (Throw EISDIR, w)
           | Ok (q, _) => (Ok tt, with_fs w (del q (w_fs w)))
           | Throw e => (Throw e, w)
           end.

Fixpoint is_prefix (p q : path) : bool :=
  match p, q with
  | [], _ => true
  | a :: p', b :: q' => String.eqb a b && is_prefix p' q'
  | _ :: _, [] => false
  end.

(** [fs.renameSync(a, b)]. *)
Definition renameSync (a b : path) : M unit :=
  fun w =>
    let fs := w_fs w in
    match lstat fs a with
    | Throw e => (Throw e, w)
    | Ok ([], _) => (Throw EBUSY, w)
    | Ok (qa, na) =>
        match slot fs b with
        | Throw e => (Throw e, w)
        | Ok (qb, ob) =>
            if path_eqb qa qb then (Ok tt, w)
            else if is_prefix qa qb then (Throw EINVAL, w)
            else
              let go := (Ok tt, with_fs w (put qb na (del qa fs))) in
              match na, ob with
              | Dir _ _, Some (Dir _ (_ :: _)) => (Throw ENOTEMPTY, w)
              | Dir _ _, Some (Dir _ []) => go
              | Dir _ _, Some _ => (Throw ENOTDIR, w)
              | Dir _ _, None => go
              | _, Some (Dir _ _) => (Throw EISDIR, w)
              | _, _ => go
              end
        end
    end.

(** Recursive removal of a node.  [None]: everything is gone.  [Some n']:
    the removal stopped at a non-empty directory that cannot be listed, and
    [n'] is what is left. *)
Fixpoint rm_node (n : node) : option node :=
  match n with
  | Dir r ents =>
      match ents with
      | [] => None
      | _ :: _ =>
          if r then
            match (fix rm_entries (l : list (string * node)) :=
                     match l with
                     | [] => []
                     | (s, c) :: tl =>
                         match rm_node c with
                         | None => rm_entries tl
                         | Some c' => (s, c') :: tl
                         end
                     end) ents with
            | [] => None
            | remaining => Some (Dir r remaining)
            end
          else Some n
      end
  | _ => None
  end.

(** [fs.rmSync(p, { recursive: true, force: true })]. *)
Definition rmSync_rf (p : path) : M unit :=
  fun w => match lstat (w_fs w) p with
           | Throw (SysErr ENOENT) => (Ok tt, w)
           | Throw e => (Throw e, w)
           | Ok (q, n) =>
               match rm_node n with
               | None => (Ok tt, with_fs w (del q (w_fs w)))
               | Some n' => (Throw EACCES, with_fs w (put q n' (w_fs w)))
               end
           end.

(** [fs.copyFileSync(src, dst)]: the content and the mode of [src].  A
    destination that is a dangling link is reported as missing. *)
Definition copyFileSync (src dst : path) : M unit :=
  fun w =>
    let fs := w_fs w in
    match stat fs src with
    | Throw e => (Throw e, w)
    | Ok (_, Dir _ _) => (Throw EISDIR, w)
    | Ok (_, Symlink _) => (Throw ELOOP, w)
    | Ok (_, File m c) =>
        match stat fs dst with
        | Ok (q, File _ _) => (Ok tt, with_fs w (put q (File m c) fs))
        | Ok (_, _) => (Throw EISDIR, w)
        | Throw (SysErr ENOENT) =>
            match slot fs dst with
            | Ok (q, None) => (Ok tt, with_fs w (put q (File m c) fs))
            | Ok (_, Some _) => (Throw ENOENT, w)
            | Throw e => (Throw e, w)
            end
        | Throw e => (Throw e, w)
        end
    end.

(** [fs.chmodSync(p, mode)]; of a directory's mode the tree keeps the
    owner's read bit. *)
Definition chmodSync (p : path) (mode : Z) : M unit :=
  fun w =>
    let fs := w_fs w in
    match stat fs p with
    | Ok (q, File _ c) => (Ok tt, with_fs w (put q (File mode c) fs))
    | Ok (q, Dir _ ents) =>
        (Ok tt, with_fs w (put q (Dir (Z.testbit mode 8) ents) fs))
    | Ok (_, Symlink _) => (Throw ELOOP, w)
    | Throw e => (Throw e, w)
    end.

(* ================================================================== *)
(** ** [types.ts] *)

(** A JavaScript value as [yaml.parse] can return it; an object is the list
    of its fields. *)
Inductive jsval :=
| JNull
| JBool (b : bool)
| JNum (z : Z)
| JStr (s : string)
| JArr (items : list string)
| JObj (fields : list (string * string)).

Definition truthy (v : jsval) : bool :=
  match v with
  | JNull => false
  | JBool b => b
  | JNum z => negb (Z.eqb z 0)
  | JStr s => negb (String.eqb s "")
  | JArr _ | JObj _ => true
  end.

(** [a || b]. *)
Definition js_or (a b : jsval) : jsval := if truthy a then a else b.

(** [SkillFrontmatter]; the empty mapping is [{}]. *)
Definition SkillFrontmatter := jsval.
Definition empty_mapping : SkillFrontmatter := JObj [].

Record DetectedSkill := mkSkill {
  skill_name : string;
  skill_path : path;
  hasSkillMd : bool;
  hasAgentsMd : bool;
  hasRules : bool;
  hasScripts : bool;
  hasTemplates : bool;
  hasReferences : bool;
  sizeKb : Z;
  frontmatter : SkillFrontmatter;
  isSymlink : bool;
  symlinkTarget : option linktext
}.

(** [skill.name = n]. *)
Definition set_name (n : string) (s : DetectedSkill) : DetectedSkill :=
  mkSkill n (skill_path s) (hasSkillMd s) (hasAgentsMd s) (hasRules s)
    (hasScripts s) (hasTemplates s) (hasReferences s) (sizeKb s)
    (frontmatter s) (isSymlink s) (symlinkTarget s).

Inductive ConversionMode := symlink | copy | move.
Inductive ConflictResolution := skip | overwrite | backup.

(** The [action] field of [ConversionResult], ["backed-up"] included. *)
Inductive Action := symlinked | copied | moved | skipped | backed_up.

Record ConversionResult := mkResult {
  skill : DetectedSkill;
  success : bool;
  action : Action;
  targetPath : path;
  error : option string
}.

(* ================================================================== *)
(** ** The part of the [effect] library the program uses *)

(** [Error]: its message. *)
Record Error := mkError { message : string }.

Inductive Exit (A : Type) :=
| Succeed (a : A)
| Failure (e : Error).
Arguments Succeed {A} a.
Arguments Failure {A} e.

(** An [Effect.Effect<A, Error>], run synchronously on the world. *)
Definition Effect (A : Type) : Type := world -> Exit A * world.

(** [Effect.try({ try, catch })]. *)
Definition Effect_try {A} (body : M A) (catch : exn -> Error) : Effect A :=
  fun w => match body w with
           | (Ok a, w') => (Succeed a, w')
           | (Throw x, w') => (Failure (catch x), w')
           end.

(** [Effect.succeed(a)]. *)
Definition Effect_succeed {A} (a : A) : Effect A := fun w => (Succeed a, w).

(** [eff.pipe(Effect.catchAll(handler))]. *)
Definition Effect_catchAll {A} (eff : Effect A) (handler : Error -> Effect A)
    : Effect A :=
  fun w => match eff w with
           | (Succeed a, w') => (Succeed a, w')
           | (Failure e, w') => handler e w'
           end.

(** [Effect.all(effects)]: one after the other, stopping at the first
    failure. *)
Fixpoint Effect_all {A} (effects : list (Effect A)) : Effect (list A) :=
  match effects with
  | [] => Effect_succeed []
  | eff :: tl =>
      fun w => match eff w with
               | (Failure e, w') => (Failure e, w')
               | (Succeed a, w') =>
                   match Effect_all tl w' with
                   | (Succeed l, w'') => (Succeed (a :: l), w'')
                   | (Failure e, w'') => (Failure e, w'')
                   end
               end
  end.

(* ================================================================== *)
(** ** [converter.ts] *)

Definition ensureDir (dir : path) : M unit :=
  ex <- observe (fun fs => existsSync fs dir) ;;
  if negb ex then mkdirSync_recursive dir else ret tt.

(** A path of more than [PATH_MAX] bytes is refused by every system call
    with [ENAMETOOLONG]; each level of [copyDir] lengthens both of its paths
    by a component, so the recursion is at most that deep.  This is how the
    copy of a directory into itself ends. *)
Definition PATH_MAX : nat := 4096.

Fixpoint copyDir (depth : nat) (src dest : path) : M unit :=
  match depth with
  | 0 => throw ENAMETOOLONG
  | S depth' =>
      ensureDir dest ;;;
      entries <- reading (fun fs => readdirSync fs src) ;;
      for_each entries (fun entry =>
        let srcPath := path_join src (fst entry) in
        let destPath := path_join dest (fst entry) in
        if isDirectory (snd entry) then copyDir depth' srcPath destPath
        else if isSymbolicLink (snd entry) then
          linkTarget <- reading (fun fs => readlinkSync fs srcPath) ;;
          symlinkSync linkTarget destPath
        else
          copyFileSync srcPath destPath ;;;
          stats <- reading (fun fs => statSync fs srcPath) ;;
          if negb (Z.eqb (Z.land (st_mode stats) 73) 0)
          then chmodSync destPath (st_mode stats)
          else ret tt)
  end.

Definition removeDir (dir : path) : M unit :=
  ex <- observe (fun fs => existsSync fs dir) ;;
  if ex then rmSync_rf dir else ret tt.

Definition isSymlinkTo (fs : node) (linkPath targetPath : path) : bool :=
  match
    res_try
      (res_bind (lstatSync fs linkPath) (fun st =>
         if negb (st_isSymbolicLink st) then Ok false
         else
           res_bind (readlinkSync fs linkPath) (fun linkTarget =>
             let resolvedLinkTarget :=
               path_resolve (path_dirname linkPath) linkTarget in
             let resolvedTarget := targetPath in
             Ok (path_eqb resolvedLinkTarget resolvedTarget))))
      (Ok false)
  with
  | Ok b => b
  | Throw _ => false
  end.

Definition createRelativeSymlink (source target : path) : M unit :=
  let targetDir := path_dirname target in
  let relativePath := path_relative targetDir source in
  symlinkSync relativePath target.

(** [`${n}`] for an integer. *)
Definition show_Z (z : Z) : string := NilZero.string_of_int (Z.to_int z).

(** The immediately invoked function of lines 79-86. *)
Definition targetExists (fs : node) (targetPath : path) : bool :=
  match lstatSync fs targetPath with Ok _ => true | Throw _ => false end.

(** The name of the directory the backups go to. *)
Definition backup_name : string := "_backup".

(** [mode === "symlink"]. *)
Definition mode_is_symlink (mode : ConversionMode) : bool :=
  match mode with symlink => true | _ => false end.

(** The [switch (conflictResolution)] of lines 99-127.  [Some r]: the branch
    returned [r]; [None]: it ended in [break]. *)
Definition resolveConflict (skill : DetectedSkill) (targetDir : path)
    (targetPath : path) (conflictResolution : ConflictResolution)
    : M (option ConversionResult) :=
  match conflictResolution with
  | skip =>
      ret (Some (mkResult skill true skipped targetPath
                   (Some "Already exists")))
  | backup =>
      let backupDir := path_join targetDir backup_name in
      ensureDir backupDir ;;;
      now <- Date_now ;;
      let backupPath :=
        path_join backupDir
          (String.append (skill_name skill) (String.append "-" (show_Z now))) in
      renameSync targetPath backupPath ;;;
      ret None
  | overwrite =>
      st <- reading (fun fs => lstatSync fs targetPath) ;;
      (if st_isSymbolicLink st
       then unlinkSync targetPath
       else removeDir targetPath) ;;;
      ret None
  end.

(** The [switch (mode)] of lines 132-177. *)
Definition executeMode (skill : DetectedSkill) (sourcePath targetPath : path)
    (mode : ConversionMode) : M ConversionResult :=
  match mode with
  | symlink =>
      st <- reading (fun fs => lstatSync fs sourcePath) ;;
      actualSource <-
        (if st_isSymbolicLink st
         then reading (fun fs => realpathSync fs sourcePath)
         else ret sourcePath) ;;
      createRelativeSymlink actualSource targetPath ;;;
      ret (mkResult skill true symlinked targetPath None)
  | copy =>
      st <- reading (fun fs => lstatSync fs sourcePath) ;;
      actualSource <-
        (if st_isSymbolicLink st
         then reading (fun fs => realpathSync fs sourcePath)
         else ret sourcePath) ;;
      copyDir PATH_MAX actualSource targetPath ;;;
      ret (mkResult skill true copied targetPath None)
  | move =>
      st <- reading (fun fs => lstatSync fs sourcePath) ;;
      (if st_isSymbolicLink st
       then
         actualSource <- reading (fun fs => realpathSync fs sourcePath) ;;
         copyDir PATH_MAX actualSource targetPath ;;;
         unlinkSync sourcePath
       else renameSync sourcePath targetPath) ;;;
      ret (mkResult skill true moved targetPath None)
  end.

(** The body of the [try] of [convertSkill]. *)
Definition convertSkill_body (skill : DetectedSkill) (targetDir : path)
    (mode : ConversionMode) (conflictResolution : ConflictResolution)
    : M ConversionResult :=
  let targetPath := path_join targetDir (skill_name skill) in
  let sourcePath := skill_path skill in
  let proceed : M ConversionResult :=
    ensureDir targetDir ;;;
    executeMode skill sourcePath targetPath mode in
  exists_ <- observe (fun fs => targetExists fs targetPath) ;;
  if exists_ then
    linked <- observe (fun fs =>
      mode_is_symlink mode && isSymlinkTo fs targetPath sourcePath) ;;
    if linked then
      ret (mkResult skill true skipped targetPath (Some "Already linked"))
    else
      returned <- resolveConflict skill targetDir targetPath conflictResolution ;;
      match returned with
      | Some r => ret r
      | None => proceed
      end
  else proceed.

Definition convertSkill (skill : DetectedSkill) (targetDir : path)
    (mode : ConversionMode) (conflictResolution : ConflictResolution)
    : Effect ConversionResult :=
  Effect_try
    (convertSkill_body skill targetDir mode conflictResolution)
    (fun error =>
       mkError (String.append "Failed to convert skill "
                  (String.append (skill_name skill)
                     (String.append ": " (show_exn error))))).

Definition convertSkills (skills : list DetectedSkill) (targetDir : path)
    (mode : ConversionMode) (conflictResolution : ConflictResolution)
    : Effect (list ConversionResult) :=
  Effect_all
    (map (fun skill =>
            Effect_catchAll
              (convertSkill skill targetDir mode conflictResolution)
              (fun error =>
                 Effect_succeed
                   (mkResult skill false skipped
                      (path_join targetDir (skill_name skill))
                      (Some (message error)))))
         skills).

(* ================================================================== *)
(** ** [detector.ts] *)

Definition nl : string := String "010"%char "".
Definition fence : string := "---".

(** [s] without its prefix [a], when it has it. *)
Fixpoint strip (a s : string) : option string :=
  match a with
  | "" => Some s
  | String c a' =>
      match s with
      | "" => None
      | String c' s' => if Ascii.eqb c c' then strip a' s' else None
      end
  end.

(** The shortest prefix of [s] that is followed by a newline and a fence:
    what the lazy group of the regular expression captures. *)
Fixpoint until_fence (s : string) : option string :=
  match strip (String.append nl fence) s with
  | Some _ => Some ""
  | None =>
      match s with
      | "" => None
      | String c s' => option_map (String c) (until_fence s')
      end
  end.

(** [content.match(/^---\n([\s\S]*?)\n---/)], reduced to its group 1. *)
Definition frontmatter_match (content : string) : option string :=
  match strip (String.append fence nl) content with
  | Some rest => until_fence rest
  | None => None
  end.

(** [countReferences]: the two regular expressions have one way to match at
    a position, the longest run of characters other than the closing one. *)
Fixpoint span_until (c : ascii) (s : string) : string * string :=
  match s with
  | "" => ("", "")
  | String a s' =>
      if Ascii.eqb a c then ("", s)
      else let '(run, rest) := span_until c s' in (String a run, rest)
  end.

(** A match of [\[\[[^\]]+\]\]] at the head of [s]: what follows it. *)
Definition wiki_at (s : string) : option string :=
  match s with
  | String "["%char (String "["%char s1) =>
      match span_until "]"%char s1 with
      | (String _ _, String "]"%char (String "]"%char rest)) => Some rest
      | _ => None
      end
  | _ => None
  end.

(** A match of [\[([^\]]+)\]\(([^)]+)\)] at the head of [s]. *)
Definition markdown_at (s : string) : option string :=
  match s with
  | String "["%char s1 =>
      match span_until "]"%char s1 with
      | (String _ _, String "]"%char (String "("%char s2)) =>
          match span_until ")"%char s2 with
          | (String _ _, String ")"%char rest) => Some rest
          | _ => None
          end
      | _ => None
      end
  | _ => None
  end.

(** [(s.match(re) || []).length] for a global [re]: the matches found from
    left to right, each search starting where the last match ended. *)
Fixpoint count_matches (at_head : string -> option string) (fuel : nat)
    (s : string) : nat :=
  match fuel with
  | 0 => 0
  | S fuel' =>
      match at_head s with
      | Some rest => S (count_matches at_head fuel' rest)
      | None =>
          match s with
          | "" => 0
          | String _ s' => count_matches at_head fuel' s'
          end
      end
  end.

Definition countReferences (content : string) : nat :=
  let wikiLinks := count_matches wiki_at (S (String.length content)) content in
  let markdownLinks :=
    count_matches markdown_at (S (String.length content)) content in
  wikiLinks + markdownLinks.

(** [Math.round(n / d)] for integers and [d > 0]: the quotient is exact in
    floating point for a power of two and sizes below 2^53. *)
Definition Math_round_div (n d : Z) : Z := ((2 * n + d) / (2 * d))%Z.

(** The [for] loop of [walkDir], with [recur] for the recursive call; an
    exception leaves the loop, and what was added so far stays added. *)
Fixpoint walkDir_entries (recur : path -> Z -> Z) (fs : node)
    (currentPath : path) (entries : list (string * kind)) (totalSize : Z)
    : Res unit * Z :=
  match entries with
  | [] => (Ok tt, totalSize)
  | entry :: tl =>
      let fullPath := path_join currentPath (fst entry) in
      if isDirectory (snd entry) then
        walkDir_entries recur fs currentPath tl (recur fullPath totalSize)
      else if isFile (snd entry) then
        match statSync fs fullPath with
        | Ok st =>
            walkDir_entries recur fs currentPath tl (totalSize + st_size st)%Z
        | Throw x => (Throw x, totalSize)
        end
      else walkDir_entries recur fs currentPath tl totalSize
  end.

(** [walkDir] descends into directories only, never through a link, so it
    is at most as deep as the tree is high: [depth] counts the levels
    left.  The state is the variable [totalSize] it closes over. *)
Fixpoint walkDir (depth : nat) (fs : node) (currentPath : path)
    (totalSize : Z) : Z :=
  match depth with
  | 0 => totalSize
  | S depth' =>
      match readdirSync fs currentPath with
      | Throw _ => totalSize
      | Ok entries =>
          snd (walkDir_entries (walkDir depth' fs) fs currentPath entries
                 totalSize)
      end
  end.

Definition getDirectorySizeKb (fs : node) (dirPath : path) : Z :=
  let totalSize := walkDir (S (height fs)) fs dirPath 0%Z in
  Math_round_div totalSize 1024.

Definition manifest : string := "SKILL.md".

Section Detector.

(** [yaml.parse] of the [yaml] package: a value, or a [YAMLParseError]. *)
Variable yaml_parse : string -> Res jsval.

Definition parseFrontmatter (content : string) : Res SkillFrontmatter :=
  match frontmatter_match content with
  | None => Ok empty_mapping
  | Some block =>
      res_try
        (res_bind (yaml_parse block) (fun v => Ok (js_or v empty_mapping)))
        (Ok empty_mapping)
  end.

(** [null] is [None]. *)
Definition analyzeSkill (fs : node) (skillPath : path)
    : Res (option DetectedSkill) :=
  let name := path_basename skillPath in
  let skillMdPath := path_join skillPath manifest in
  if negb (existsSync fs skillMdPath) then Ok None
  else
    res_bind (lstatSync fs skillPath) (fun stats =>
      let isSymlink := st_isSymbolicLink stats in
      let symlinkTarget :=
        if isSymlink
        then match readlinkSync fs skillPath with
             | Ok t => Some t
             | Throw _ => None
             end
        else None in
      let '(skillMdContent, frontmatter) :=
        match readFileSync fs skillMdPath with
        | Throw _ => ("", empty_mapping)
        | Ok text =>
            match parseFrontmatter text with
            | Ok fm => (text, fm)
            | Throw _ => (text, empty_mapping)
            end
        end in
      let hasAgentsMd := existsSync fs (path_join skillPath "AGENTS.md") in
      let hasRules := existsSync fs (path_join skillPath "rules") in
      let hasScripts := existsSync fs (path_join skillPath "scripts") in
      let hasTemplates := existsSync fs (path_join skillPath "templates") in
      let referenceCount := countReferences skillMdContent in
      Ok (Some (mkSkill name skillPath true hasAgentsMd hasRules hasScripts
                  hasTemplates (Nat.ltb 0 referenceCount)
                  (getDirectorySizeKb fs skillPath) frontmatter isSymlink
                  symlinkTarget))).

(** The inner [for] loop of [detectSkills], lines 130-138: the array
    [skills] after the loop, and whether the loop threw. *)
Fixpoint detect_nested (fs : node) (skillPath : path) (entry_name : string)
    (nestedEntries : list (string * kind)) (skills : list DetectedSkill)
    : Res unit * list DetectedSkill :=
  match nestedEntries with
  | [] => (Ok tt, skills)
  | nestedEntry :: tl =>
      if negb (isDirectory (snd nestedEntry))
      then detect_nested fs skillPath entry_name tl skills
      else
        let nestedPath := path_join skillPath (fst nestedEntry) in
        match analyzeSkill fs nestedPath with
        | Throw x => (Throw x, skills)
        | Ok None => detect_nested fs skillPath entry_name tl skills
        | Ok (Some skill) =>
            let skill' :=
              set_name (String.append entry_name
                          (String.append "-" (skill_name skill))) skill in
            detect_nested fs skillPath entry_name tl (skills ++ [skill'])
        end
  end.

(** One turn of the outer loop, lines 107-140: the array [skills] after
    it, or the exception that leaves [detectSkills]. *)
Definition detect_entry (fs : node) (dir : path) (entry : string * kind)
    (skills : list DetectedSkill) : Res (list DetectedSkill) :=
  if negb (isDirectory (snd entry)) && negb (isSymbolicLink (snd entry))
  then Ok skills
  else if String.prefix "_" (fst entry) then Ok skills
  else
    let skillPath := path_join dir (fst entry) in
    let resolved : option path :=
      if isSymbolicLink (snd entry)
      then match realpathSync fs skillPath with
           | Ok p => Some p
           | Throw _ => None
           end
      else Some skillPath in
    match resolved with
    | None => Ok skills
    | Some actualPath =>
        let nestedSkillMd := path_join actualPath manifest in
        if existsSync fs nestedSkillMd then
          res_bind (analyzeSkill fs skillPath) (fun found =>
            match found with
            | Some skill => Ok (skills ++ [skill])
            | None => Ok skills
            end)
        else
          match readdirSync fs actualPath with
          | Throw _ => Ok skills
          | Ok nestedEntries =>
              Ok (snd (detect_nested fs skillPath (fst entry) nestedEntries
                         skills))
          end
    end.

Fixpoint detect_loop (fs : node) (dir : path) (entries : list (string * kind))
    (skills : list DetectedSkill) : Res (list DetectedSkill) :=
  match entries with
  | [] => Ok skills
  | entry :: tl =>
      res_bind (detect_entry fs dir entry skills) (detect_loop fs dir tl)
  end.

Definition detectSkills (dir : path) : Effect (list DetectedSkill) :=
  Effect_try
    (reading (fun fs =>
       if negb (existsSync fs dir) then Ok []
       else
         res_bind (readdirSync fs dir) (fun entries =>
           detect_loop fs dir entries [])))
    (fun error =>
       mkError (String.append "Failed to detect skills: " (show_exn error))).

End Detector.

(* ================================================================== *)
(** ** Definitions the statements are written with *)

(** The action a mode reports when it has run. *)
Definition action_of_mode (mode : ConversionMode) : Action :=
  match mode with
  | symlink => symlinked
  | copy => copied
  | move => moved
  end.

(** The three shapes of a result the [try] of [convertSkill] returns. *)
Inductive reported (s : DetectedSkill) (targetDir : path)
    (mode : ConversionMode) : ConversionResult -> Prop :=
| reported_linked :
    mode = symlink ->
    reported s targetDir mode
      (mkResult s true skipped (path_join targetDir (skill_name s))
         (Some "Already linked"))
| reported_exists :
    reported s targetDir mode
      (mkResult s true skipped (path_join targetDir (skill_name s))
         (Some "Already exists"))
| reported_done :
    reported s targetDir mode
      (mkResult s true (action_of_mode mode)
         (path_join targetDir (skill_name s)) None).

(** The result an entry ends with in the batch: the one its conversion
    returned, or the one made of the failure. *)
Definition settle (s : DetectedSkill) (targetDir : path)
    (e : Exit ConversionResult) : ConversionResult :=
  match e with
  | Succeed r => r
  | Failure err =>
      mkResult s false skipped (path_join targetDir (skill_name s))
        (Some (message err))
  end.

(** The batch as the specification words it: the entries are converted one
    after the other, each on the world the previous one left, and each
    contributes its result whatever happened to it. *)
Fixpoint results_in_order (skills : list DetectedSkill) (targetDir : path)
    (mode : ConversionMode) (cr : ConflictResolution) (w : world)
    : list ConversionResult * world :=
  match skills with
  | [] => ([], w)
  | s :: tl =>
      let '(e, w1) := convertSkill s targetDir mode cr w in
      let '(l, w2) := results_in_order tl targetDir mode cr w1 in
      (settle s targetDir e :: l, w2)
  end.

(** Where [detectSkills] can have found an entry: in the child [child] of
    [dir] itself, under the name of the child, or in a subdirectory [sub]
    of the child, under the two names joined by a dash. *)
Definition found_in (dir : path) (child : string) (s : DetectedSkill) : Prop :=
  (skill_path s = dir ++ [child] /\ skill_name s = child) \/
  (exists sub,
     skill_path s = dir ++ [child; sub] /\
     skill_name s = String.append child (String.append "-" sub)).

(** ... for a child that the listing has and whose name does not begin
    with the reserved prefix. *)
Definition found_under (dir : path) (entries : list (string * kind))
    (s : DetectedSkill) : Prop :=
  exists e, In e entries /\ String.prefix "_" (fst e) = false /\
            found_in dir (fst e) s.

(** The size of a tree as the specification words it: the sum of the sizes
    of the regular files in it, in bytes; a link counts for nothing and is
    not followed, and a directory that cannot be listed counts for nothing. *)
Fixpoint content_size (n : node) : Z :=
  match n with
  | File _ c => Z.of_nat (String.length c)
  | Symlink _ => 0%Z
  | Dir false _ => 0%Z
  | Dir true ents =>
      (fix sum (l : list (string * node)) : Z :=
         match l with
         | [] => 0%Z
         | (_, c) :: tl => (content_size c + sum tl)%Z
         end) ents
  end.

Definition sum_sizes (l : list (string * node)) : Z :=
  fold_right (fun e acc => (content_size (snd e) + acc)%Z) 0%Z l.

(** What [analyzeSkill] saw of an entry it made. *)
Definition classified (fs : node) (s : DetectedSkill) : Prop :=
  existsSync fs (path_join (skill_path s) manifest) = true /\
  sizeKb s = getDirectorySizeKb fs (skill_path s).

(** What path resolution sees of a node: its kind, and the text of a
    link. *)
Inductive skeleton := SFile | SDir | SLink (t : linktext).

Definition skel (n : node) : skeleton :=
  match n with
  | File _ _ => SFile
  | Dir _ _ => SDir
  | Symlink t => SLink t
  end.

(* ================================================================== *)
(** ** Sample trees, for the examples *)

Module Sample.

(** A stand-in for [yaml.parse]: it rejects a block that opens a flow
    sequence, reads an empty block as [null] and keeps any other block as
    the one field of an object. *)
Definition yaml (block : string) : Res jsval :=
  if String.eqb block "" then Ok JNull
  else if existsb (Ascii.eqb "["%char) (list_ascii_of_string block)
  then Throw (YAMLParseError "Flow sequence in block collection")
  else Ok (JObj [("text", block)]).

Definition lines (l : list string) : string := String.concat nl l.

Definition skill_md : string :=
  lines ["---"; "name: Real"; "---"; "# Real, see [[notes]]"].

(** [/src] holds a skill, a link to it, a dangling link, a grouping
    directory, a directory with the reserved prefix and a file; [/tgt] is
    empty. *)
Definition tree : node :=
  Dir true
    [("src",
      Dir true
        [("real",
          Dir true
            [("SKILL.md", File 420 skill_md);
             ("run.sh", File 493 "#!/bin/sh")]);
         ("alias", Symlink (LRel 0 ["real"]));
         ("dangling", Symlink (LRel 0 ["nowhere"]));
         ("group",
          Dir true
            [("sub1", Dir true [("SKILL.md", File 420 "one")]);
             ("sub2", Dir true [("SKILL.md", File 420 "two")]);
             ("notes.txt", File 420 "notes")]);
         ("_backup", Dir true [("SKILL.md", File 420 "kept")]);
         ("plain.txt", File 420 "plain")]);
     ("tgt", Dir true [])].

Definition world0 : world := mkWorld tree [1700000000000%Z; 1700000000001%Z].

Definition entry (name : string) (p : path) (link : option linktext)
    : DetectedSkill :=
  mkSkill name p true false false false false false 0 empty_mapping
    (match link with Some _ => true | None => false end) link.

(** The entry of [/src/real], and an entry whose directory does not
    exist. *)
Definition real : DetectedSkill := entry "real" ["src"; "real"] None.
Definition ghost : DetectedSkill := entry "ghost" ["src"; "ghost"] None.

(** The sample tree with [/tgt/real] a link to [/src/real]. *)
Definition tree_linked : node :=
  put ["tgt"; "real"] (Symlink (LRel 1 ["src"; "real"])) tree.
Definition world_linked : world := mkWorld tree_linked [1700000000002%Z].

End Sample.

(* ================================================================== *)
(** ** More of [detector.ts] *)

(** [fs.existsSync(dir) && fs.statSync(dir).isDirectory()], in a [try]
    whose [catch] returns [false]. *)
Definition directoryExists (fs : node) (dir : path) : bool :=
  match
    res_try
      (if existsSync fs dir
       then res_bind (statSync fs dir)
              (fun st => Ok (isDirectory (kind_of st)))
       else Ok false)
      (Ok false)
  with
  | Ok b => b
  | Throw _ => false
  end.

(** [if (flag) parts.push(label)], as the list of what is pushed. *)
Definition push_if (flag : bool) (label : string) : list string :=
  if flag then [label] else [].

Definition formatSkillDisplay (skill : DetectedSkill) : string :=
  let parts :=
    [String.append (show_Z (sizeKb skill)) "KB"]
    ++ push_if (hasReferences skill) "has references"
    ++ push_if (hasTemplates skill) "has templates"
    ++ push_if (hasRules skill) "has rules/"
    ++ push_if (hasScripts skill) "has scripts/"
    ++ push_if (hasAgentsMd skill) "AGENTS.md present"
    ++ push_if (isSymlink skill) "symlink" in
  String.concat ", " parts.

(* ================================================================== *)
(** ** More of [converter.ts] *)

(** The field [k] of an object that is a list of fields. *)
Fixpoint field (fields : list (string * string)) (k : string)
    : option string :=
  match fields with
  | [] => None
  | (k', v) :: tl => if String.eqb k' k then Some v else field tl k
  end.

(** [v.k], for a key that only an object's own fields can hold ([name],
    [description]).  [None]: the [TypeError] of reading a property of
    [null].  [Some None]: [undefined]. *)
Definition js_prop (v : jsval) (k : string) : option (option string) :=
  match v with
  | JNull => None
  | JObj fields => Some (field fields k)
  | JBool _ | JNum _ | JStr _ | JArr _ => Some None
  end.

(** [!x] for a property that is [undefined] or a string. *)
Definition js_not (x : option string) : bool :=
  match x with
  | None => true
  | Some s => String.eqb s ""
  end.

Definition missing_metadata : string :=
  "Missing name and description in frontmatter".
Definition missing_build : string :=
  "Has rules/ directory but no AGENTS.md - may need to run build".

(** The object [{ valid, warnings }], or [None] for a [TypeError]. *)
Definition validateSkill (skill : DetectedSkill)
    : option (bool * list string) :=
  match js_prop (frontmatter skill) "name" with
  | None => None
  | Some name =>
      match
        (if js_not name
         then match js_prop (frontmatter skill) "description" with
              | None => None
              | Some description => Some (js_not description)
              end
         else Some false)
      with
      | None => None
      | Some missing =>
          let warnings :=
            push_if missing missing_metadata
            ++ push_if (hasRules skill && negb (hasAgentsMd skill))
                 missing_build in
          Some (Nat.eqb (List.length warnings) 0, warnings)
      end
  end.

(* ================================================================== *)
(** ** [prompts.ts]: the report of a run *)

(** The string of an [action]. *)
Definition action_name (a : Action) : string :=
  match a with
  | symlinked => "symlinked"
  | copied => "copied"
  | moved => "moved"
  | skipped => "skipped"
  | backed_up => "backed-up"
  end.

(** [result.action === "skipped"]. *)
Definition is_skipped (a : Action) : bool :=
  match a with skipped => true | _ => false end.

(** [result.error || fallback]. *)
Definition error_or (e : option string) (fallback : string) : string :=
  match e with
  | None => fallback
  | Some s => if String.eqb s "" then fallback else s
  end.

(** The three counters of [displayResults]. *)
Record Counts := mkCounts {
  successCount : nat;
  skipCount : nat;
  errorCount : nat
}.

Definition show_nat (n : nat) : string := show_Z (Z.of_nat n).

Section Report.

(** The colour functions of the [picocolors] package. *)
Variables pc_yellow pc_green pc_red pc_dim pc_bold : string -> string.

(** [`  ${icon} ${name} ${text}`]. *)
Definition report_line (icon name text : string) : string :=
  String.concat " " [String.append "  " icon; name; text].

(** One turn of the loop of [displayResults]: the line it logs, and the
    counters after it. *)
Definition display_result (result : ConversionResult) (c : Counts)
    : string * Counts :=
  if success result then
    match action result with
    | skipped =>
        (report_line (pc_yellow "○") (skill_name (skill result))
           (pc_dim (error_or (error result) "skipped")),
         mkCounts (successCount c) (S (skipCount c)) (errorCount c))
    | a =>
        (report_line (pc_green "✓") (skill_name (skill result))
           (pc_dim (action_name a)),
         mkCounts (S (successCount c)) (skipCount c) (errorCount c))
    end
  else
    (report_line (pc_red "✗") (skill_name (skill result))
       (pc_dim (error_or (error result) "failed")),
     mkCounts (successCount c) (skipCount c) (S (errorCount c))).

Fixpoint display_loop (results : list ConversionResult) (c : Counts)
    : list string * Counts :=
  match results with
  | [] => ([], c)
  | result :: tl =>
      let '(line, c1) := display_result result c in
      let '(lines, c2) := display_loop tl c1 in
      (line :: lines, c2)
  end.

(** The summary [parts] of [displayResults]. *)
Definition summary_parts (c : Counts) : list string :=
  push_if (Nat.ltb 0 (successCount c))
    (pc_green (String.append (show_nat (successCount c)) " converted"))
  ++ push_if (Nat.ltb 0 (skipCount c))
       (pc_yellow (String.append (show_nat (skipCount c)) " skipped"))
  ++ push_if (Nat.ltb 0 (errorCount c))
       (pc_red (String.append (show_nat (errorCount c)) " failed")).

(** [displayResults]: the lines it logs, in order. *)
Definition displayResults (results : list ConversionResult) : list string :=
  let '(lines, c) := display_loop results (mkCounts 0 0 0) in
  let parts := summary_parts c in
  lines ++ [""]
  ++ (if Nat.ltb 0 (List.length parts)
      then [String.concat " " [pc_bold "Done:"; String.concat ", " parts]]
      else []).

End Report.

(* ================================================================== *)
(** ** [index.ts]: the command line *)

Inductive ConversionDirection := to_claude | to_agents | sync.

(** [Partial<ConversionOptions> & { help?: boolean }]: a field that is
    [undefined] is [None], or [false] for the two flags that are only ever
    set to [true].  [mode] and [conflictResolution] are the strings of the
    command line, which the casts do not check. *)
Record Options := mkOptions {
  opt_source : option string;
  opt_target : option string;
  opt_mode : option string;
  opt_direction : option ConversionDirection;
  opt_nonInteractive : bool;
  opt_conflictResolution : option string;
  opt_help : bool
}.

Definition no_options : Options :=
  mkOptions None None None None false None false.

Definition set_source (v : option string) (o : Options) : Options :=
  mkOptions v (opt_target o) (opt_mode o) (opt_direction o)
    (opt_nonInteractive o) (opt_conflictResolution o) (opt_help o).
Definition set_target (v : option string) (o : Options) : Options :=
  mkOptions (opt_source o) v (opt_mode o) (opt_direction o)
    (opt_nonInteractive o) (opt_conflictResolution o) (opt_help o).
Definition set_mode (v : option string) (o : Options) : Options :=
  mkOptions (opt_source o) (opt_target o) v (opt_direction o)
    (opt_nonInteractive o) (opt_conflictResolution o) (opt_help o).
Definition set_direction (d : ConversionDirection) (o : Options) : Options :=
  mkOptions (opt_source o) (opt_target o) (opt_mode o) (Some d)
    (opt_nonInteractive o) (opt_conflictResolution o) (opt_help o).
Definition set_nonInteractive (o : Options) : Options :=
  mkOptions (opt_source o) (opt_target o) (opt_mode o) (opt_direction o)
    true (opt_conflictResolution o) (opt_help o).
Definition set_conflictResolution (v : option string) (o : Options)
    : Options :=
  mkOptions (opt_source o) (opt_target o) (opt_mode o) (opt_direction o)
    (opt_nonInteractive o) v (opt_help o).
Definition set_help (o : Options) : Options :=
  mkOptions (opt_source o) (opt_target o) (opt_mode o) (opt_direction o)
    (opt_nonInteractive o) (opt_conflictResolution o) true.

(** The options that take [args[++i]]: the setter of each. *)
Definition value_option (arg : string)
    : option (option string -> Options -> Options) :=
  if String.eqb arg "--source" then Some set_source
  else if String.eqb arg "--target" then Some set_target
  else if String.eqb arg "--mode" then Some set_mode
  else if String.eqb arg "--conflict" then Some set_conflictResolution
  else None.

(** The cases of the [switch] that take no value; an argument that is no
    case changes nothing. *)
Definition flag_option (arg : string) (o : Options) : Options :=
  if String.eqb arg "--help" || String.eqb arg "-h" then set_help o
  else if String.eqb arg "--to-claude" then set_direction to_claude o
  else if String.eqb arg "--to-agents" then set_direction to_agents o
  else if String.eqb arg "--sync" then set_direction sync o
  else if String.eqb arg "--non-interactive" then set_nonInteractive o
  else o.

(** The loop of [parseArgs] over the arguments left; a value option at the
    end reads [undefined]. *)
Fixpoint parse_loop (args : list string) (o : Options) : Options :=
  match args with
  | [] => o
  | arg :: rest =>
      match value_option arg with
      | Some set =>
          match rest with
          | [] => set None o
          | v :: rest' => parse_loop rest' (set (Some v) o)
          end
      | None => parse_loop rest (flag_option arg o)
      end
  end.

(** [parseArgs], of [process.argv]. *)
Definition parseArgs (argv : list string) : Options :=
  parse_loop (skipn 2 argv) no_options.

(** Whether the arguments end with a value option that has no value. *)
Fixpoint dangling (args : list string) : bool :=
  match args with
  | [] => false
  | arg :: rest =>
      match value_option arg with
      | Some _ =>
          match rest with
          | [] => true
          | _ :: rest' => dangling rest'
          end
      | None => dangling rest
      end
  end.


(* ================================================================== *)
(** ** More definitions the statements are written with *)

(** Whether [v.k] is truthy: the metadata has a non-empty [k]. *)
Definition given (v : jsval) (k : string) : bool :=
  match js_prop v k with
  | Some x => negb (js_not x)
  | None => false
  end.

(** [warnings.length === 0], read off the list. *)
Definition no_warning (warnings : list string) : bool :=
  match warnings with [] => true | _ :: _ => false end.


(** What a call that only adds to the tree keeps of a node: a file and a
    link as they are, of a directory that it is one and whether it can be
    listed. *)
Definition keeps (n n' : node) : Prop :=
  match n with
  | Dir r _ => exists ents', n' = Dir r ents'
  | _ => n' = n
  end.

(** The second tree has every place of the first, kept. *)
Definition grows (fs fs' : node) : Prop :=
  forall p n, get fs p = Some n -> exists n', get fs' p = Some n' /\ keeps n n'.


(** What [copyDir] can copy in full: a tree whose directories can all be
    listed and whose links all have a text. *)
Fixpoint copyable (n : node) : bool :=
  match n with
  | File _ _ => true
  | Symlink t => negb (link_is_empty t)
  | Dir r ents =>
      r &&
      (fix all (l : list (string * node)) : bool :=
         match l with
         | [] => true
         | (_, c) :: tl => copyable c && all tl
         end) ents
  end.


(** What [copyDir] does, with [depth] levels to go, to a directory [N] of
    the tree at [src] that it can copy, given a new name in a directory [D]
    of the tree that is not inside [src]: it puts [N] under the new
    name. *)
Definition copies (depth : nat) : Prop :=
  forall N src D name w rD eD,
    height N < depth ->
    wf_node N = true ->
    copyable N = true ->
    kind_of N = KDir ->
    get (w_fs w) src = Some N ->
    get (w_fs w) D = Some (Dir rD eD) ->
    lookup eD name = None ->
    is_prefix src (D ++ [name]) = false ->
    copyDir depth src (D ++ [name]) w =
    (Ok tt, with_fs w (put (D ++ [name]) N (w_fs w))).


(** What [rm -rf] can remove in full: a tree whose directories that are not
    empty can all be listed. *)
Fixpoint removable (n : node) : bool :=
  match n with
  | Dir r ents =>
      (r || match ents with [] => true | _ :: _ => false end) &&
      (fix all (l : list (string * node)) : bool :=
         match l with
         | [] => true
         | (_, c) :: tl => removable c && all tl
         end) ents
  | _ => true
  end.


(** The names and paths of the entries that a child of the root gives, as
    the listing and the manifests decide them: none for a file, a reserved
    name or a link that does not resolve; the child itself when it holds a
    manifest; otherwise one for each listed subdirectory that holds a
    manifest, under the two names joined by a dash. *)
Definition entries_of_child (fs : node) (dir : path) (entry : string * kind)
    : list (string * path) :=
  let name := fst entry in
  let skillPath := path_join dir name in
  if negb (isDirectory (snd entry)) && negb (isSymbolicLink (snd entry))
  then []
  else if String.prefix "_" name then []
  else
    match (if isSymbolicLink (snd entry)
           then match realpathSync fs skillPath with
                | Ok p => Some p
                | Throw _ => None
                end
           else Some skillPath) with
    | None => []
    | Some actual =>
        if existsSync fs (path_join actual manifest)
        then if existsSync fs (path_join skillPath manifest)
             then [(name, skillPath)]
             else []
        else
          match readdirSync fs actual with
          | Throw _ => []
          | Ok nested =>
              map (fun e =>
                     (String.append name (String.append "-" (fst e)),
                      path_join skillPath (fst e)))
                (filter (fun e =>
                           isDirectory (snd e) &&
                           existsSync fs
                             (path_join (path_join skillPath (fst e))
                                manifest))
                   nested)
          end
    end.

(** The name and the path of an entry. *)
Definition name_and_path (s : DetectedSkill) : string * path :=
  (skill_name s, skill_path s).


(* ================================================================== *)
(** ** [index.ts]: the conflict that [runConversion] asks about *)

(** The [try] block of lines 142-155: whether the loop goes on to the next
    entry ([continue]) because the target is a link whose text leads to
    the path of the entry. *)
Definition already_linked (fs : node) (targetPath sourcePath : path) : bool :=
  match
    res_try
      (res_bind (lstatSync fs targetPath) (fun st =>
         if st_isSymbolicLink st
         then
           res_bind (readlinkSync fs targetPath) (fun linkTarget =>
             let resolvedTarget :=
               path_resolve (path_dirname targetPath) linkTarget in
             let resolvedSource := sourcePath in
             Ok (path_eqb resolvedTarget resolvedSource))
         else Ok false))
      (Ok false)
  with
  | Ok b => b
  | Throw _ => false
  end.

(** The loop of lines 139-161: the name of the entry for which
    [promptConflictResolution] is called, if any. *)
Fixpoint conflict_to_ask (fs : node) (targetDir : path)
    (skills : list DetectedSkill) : option string :=
  match skills with
  | [] => None
  | skill :: tl =>
      let targetPath := path_join targetDir (skill_name skill) in
      if existsSync fs targetPath
      then if already_linked fs targetPath (skill_path skill)
           then conflict_to_ask fs targetDir tl
           else Some (skill_name skill)
      else conflict_to_ask fs targetDir tl
  end.


(** Whether a newline followed by a fence occurs in [s]. *)
Fixpoint closes (s : string) : bool :=
  match strip (String.append nl fence) s with
  | Some _ => true
  | None =>
      match s with
      | "" => false
      | String _ s' => closes s'
      end
  end.


(* ================================================================== *)
(** * Properties *)

(** ** The monad *)

Lemma bind_Ok_inv A B (m : M A) (k : A -> M B) w b w' :
  bind m k w = (Ok b, w') ->
  exists a w1, m w = (Ok a, w1) /\ k a w1 = (Ok b, w').
Proof.
  unfold bind. destruct (m w) as [[a | x] w1]; intros H.
  - exists a, w1. split; [reflexivity | exact H].
  - discriminate H.
Qed.

Lemma ret_Ok_inv A (a b : A) w w' : ret a w = (Ok b, w') -> a = b /\ w = w'.
Proof. unfold ret. intros H. injection H as -> ->. split; reflexivity. Qed.

Ltac peel H :=
  let a := fresh "a" in
  let w1 := fresh "w" in
  let Hm := fresh "Hm" in
  apply bind_Ok_inv in H; destruct H as (a & w1 & Hm & H).

Ltac finish_ret H :=
  apply ret_Ok_inv in H; destruct H as (H & _); subst; simpl.

(** ** What a successful conversion reports *)

Lemma executeMode_result s td mode w r w' :
  executeMode s (skill_path s) (path_join td (skill_name s)) mode w
    = (Ok r, w') ->
  r = mkResult s true (action_of_mode mode)
        (path_join td (skill_name s)) None.
Proof.
  destruct mode; unfold executeMode; intros H.
  - peel H. peel H. peel H. finish_ret H. reflexivity.
  - peel H. peel H. peel H. finish_ret H. reflexivity.
  - peel H. peel H. finish_ret H. reflexivity.
Qed.

Lemma resolveConflict_result s td cr w o w' :
  resolveConflict s td (path_join td (skill_name s)) cr w = (Ok o, w') ->
  match o with
  | Some r =>
      cr = skip /\
      r = mkResult s true skipped (path_join td (skill_name s))
            (Some "Already exists")
  | None => cr <> skip
  end.
Proof.
  destruct cr; unfold resolveConflict; intros H.
  - finish_ret H. split; reflexivity.
  - peel H. peel H. finish_ret H. discriminate.
  - peel H. peel H. peel H. finish_ret H. discriminate.
Qed.

Lemma convertSkill_body_result s td mode cr w r w' :
  convertSkill_body s td mode cr w = (Ok r, w') -> reported s td mode r.
Proof.
  unfold convertSkill_body. intros H.
  peel H. destruct a.
  - peel H. destruct a.
    + finish_ret H.
      unfold observe in Hm0. injection Hm0 as Hl _.
      apply andb_prop in Hl. destruct Hl as [Hl _].
      destruct mode; try discriminate Hl. constructor. reflexivity.
    + peel H. apply resolveConflict_result in Hm1.
      destruct a as [r0 | ].
      * finish_ret H. destruct Hm1 as [_ ->]. constructor.
      * peel H. apply executeMode_result in H. subst r. constructor.
  - peel H. apply executeMode_result in H. subst r. constructor.
Qed.

Lemma convertSkill_Succeed_inv s td mode cr w r w' :
  convertSkill s td mode cr w = (Succeed r, w') -> reported s td mode r.
Proof.
  unfold convertSkill, Effect_try. intros H.
  destruct (convertSkill_body s td mode cr w) as [[r0 | x] w1] eqn:E;
    [ | discriminate H].
  injection H as -> ->. eapply convertSkill_body_result; eassumption.
Qed.

Lemma convertSkill_Failure_inv s td mode cr w e w' :
  convertSkill s td mode cr w = (Failure e, w') ->
  exists x,
    e = mkError (String.append "Failed to convert skill "
                   (String.append (skill_name s)
                      (String.append ": " (show_exn x)))).
Proof.
  unfold convertSkill, Effect_try. intros H.
  destruct (convertSkill_body s td mode cr w) as [[r0 | x] w1];
    [discriminate H | ].
  injection H as <- _. exists x. reflexivity.
Qed.

Lemma reported_fields s td mode r :
  reported s td mode r ->
  skill r = s /\ success r = true /\
  targetPath r = path_join td (skill_name s) /\
  In (action r) [symlinked; copied; moved; skipped].
Proof.
  intros H; destruct H; simpl; repeat split; auto.
  destruct mode; simpl; auto.
Qed.

(** ** The batch *)

Lemma convertSkills_results_in_order skills td mode cr w :
  convertSkills skills td mode cr w =
  (Succeed (fst (results_in_order skills td mode cr w)),
   snd (results_in_order skills td mode cr w)).
Proof.
  revert w. induction skills as [ | s tl IH]; intros w.
  - reflexivity.
  - unfold convertSkills in *. simpl.
    unfold Effect_catchAll at 1.
    destruct (convertSkill s td mode cr w) as [[r | err] w1]; simpl;
      rewrite IH;
      destruct (results_in_order tl td mode cr w1) as [l w2]; reflexivity.
Qed.

Lemma settle_fields s td mode cr w :
  let r := settle s td (fst (convertSkill s td mode cr w)) in
  skill r = s /\
  targetPath r = path_join td (skill_name s) /\
  In (action r) [symlinked; copied; moved; skipped] /\
  (success r = false ->
   action r = skipped /\
   exists x, error r =
     Some (String.append "Failed to convert skill "
             (String.append (skill_name s)
                (String.append ": " (show_exn x))))).
Proof.
  destruct (convertSkill s td mode cr w) as [[r | err] w1] eqn:E; simpl.
  - apply convertSkill_Succeed_inv in E. apply reported_fields in E.
    destruct E as (E1 & E2 & E3 & E4). repeat split; auto;
      rewrite E2 in *; discriminate.
  - apply convertSkill_Failure_inv in E. destruct E as [x ->]. simpl.
    repeat split; auto. exists x. reflexivity.
Qed.

Lemma results_in_order_fields skills td mode cr w :
  map skill (fst (results_in_order skills td mode cr w)) = skills /\
  Forall (fun r =>
            targetPath r = path_join td (skill_name (skill r)) /\
            In (action r) [symlinked; copied; moved; skipped] /\
            (success r = false ->
             action r = skipped /\
             exists x, error r =
               Some (String.append "Failed to convert skill "
                       (String.append (skill_name (skill r))
                          (String.append ": " (show_exn x))))))
         (fst (results_in_order skills td mode cr w)).
Proof.
  revert w. induction skills as [ | s tl IH]; intros w; simpl.
  - split; constructor.
  - pose proof (settle_fields s td mode cr w) as F. simpl in F.
    destruct (convertSkill s td mode cr w) as [e w1]. simpl in F.
    specialize (IH w1).
    destruct (results_in_order tl td mode cr w1) as [l w2]. simpl in *.
    destruct F as (F1 & F2 & F3 & F4). destruct IH as [IH1 IH2].
    split.
    + rewrite F1, IH1. reflexivity.
    + constructor; [ | exact IH2]. rewrite F1. auto.
Qed.

(** C3.  [convertSkills] always succeeds, with one result per entry, in the
    order of the entries: the results are those of converting the entries
    one after the other, each on the world the previous one left.  The
    result of an entry whose conversion failed has [success = false], the
    action [skipped] and the message of the failure; the entries after it
    are converted all the same. *)
Theorem convertSkills_one_result_per_entry :
  forall skills targetDir mode cr w,
  exists results w',
    convertSkills skills targetDir mode cr w = (Succeed results, w') /\
    (results, w') = results_in_order skills targetDir mode cr w /\
    List.length results = List.length skills /\
    map skill results = skills /\
    Forall (fun r =>
              success r = false ->
              action r = skipped /\
              targetPath r = path_join targetDir (skill_name (skill r)) /\
              exists x, error r =
                Some (String.append "Failed to convert skill "
                        (String.append (skill_name (skill r))
                           (String.append ": " (show_exn x)))))
           results.
Proof.
  intros skills td mode cr w.
  exists (fst (results_in_order skills td mode cr w)),
         (snd (results_in_order skills td mode cr w)).
  destruct (results_in_order_fields skills td mode cr w) as [Hm Hf].
  split; [apply convertSkills_results_in_order | ].
  split; [destruct (results_in_order skills td mode cr w); reflexivity | ].
  split; [rewrite <- Hm at 2; symmetry; apply length_map | ].
  split; [exact Hm | ].
  eapply Forall_impl; [ | exact Hf]. simpl.
  intros r (H1 & _ & H3) Hs. destruct (H3 Hs) as [Ha Hx]. auto.
Qed.

(** C9.  No conversion reports ["backed-up"]: the action of a result of
    [convertSkill] or of [convertSkills] is one of [symlinked], [copied],
    [moved] and [skipped]; and a conversion that went through the backup of
    an existing target reports the action of its mode. *)
Theorem action_never_backed_up :
  forall skills s targetDir mode cr w,
    (forall r w', convertSkill s targetDir mode cr w = (Succeed r, w') ->
       In (action r) [symlinked; copied; moved; skipped]) /\
    (forall results w',
       convertSkills skills targetDir mode cr w = (Succeed results, w') ->
       Forall (fun r => In (action r) [symlinked; copied; moved; skipped])
         results) /\
    (forall r w',
       cr = backup ->
       targetExists (w_fs w) (path_join targetDir (skill_name s)) = true ->
       mode_is_symlink mode &&
         isSymlinkTo (w_fs w) (path_join targetDir (skill_name s))
           (skill_path s) = false ->
       convertSkill s targetDir mode cr w = (Succeed r, w') ->
       action r = action_of_mode mode /\ action r <> backed_up).
Proof.
  intros skills s td mode cr w. split; [ | split].
  - intros r w' H. apply convertSkill_Succeed_inv in H.
    apply reported_fields in H. tauto.
  - intros results w' H. rewrite convertSkills_results_in_order in H.
    injection H as <- _.
    destruct (results_in_order_fields skills td mode cr w) as [_ Hf].
    eapply Forall_impl; [ | exact Hf]. simpl. tauto.
  - intros r w' -> Hex Hl H.
    unfold convertSkill, Effect_try in H.
    destruct (convertSkill_body s td mode backup w) as [[r0 | x] w1] eqn:E;
      [ | discriminate H].
    injection H as -> _.
    unfold convertSkill_body in E.
    unfold bind at 1 in E. unfold observe at 1 in E. rewrite Hex in E.
    unfold bind at 1 in E. unfold observe at 1 in E. rewrite Hl in E.
    peel E. apply resolveConflict_result in Hm.
    destruct a as [r0 | ]; [destruct Hm as [Hm _]; discriminate Hm | ].
    peel E. apply executeMode_result in E. subst r. simpl.
    split; [reflexivity | destruct mode; discriminate].
Qed.

Lemma action_never_backed_up_witness :
  exists r w',
    convertSkill Sample.real ["tgt"] copy backup Sample.world_linked
      = (Succeed r, w') /\
    readlinkSync (w_fs w') ["tgt"; "_backup"; "real-1700000000002"]
      = Ok (LRel 1 ["src"; "real"]) /\
    In (action r) [symlinked; copied; moved; skipped] /\
    action r = copied /\ action r <> backed_up.
Proof.
  eexists. eexists.
  split; [vm_compute; reflexivity | ].
  split; [vm_compute; reflexivity | ].
  pose proof (action_never_backed_up [] Sample.real ["tgt"] copy backup
                Sample.world_linked) as (H1 & _ & H3).
  split.
  - eapply H1. vm_compute. reflexivity.
  - eapply H3; vm_compute; reflexivity.
Defined.

(** ** A single conversion *)

(** C1, as stated, fails: converting an entry whose directory is missing
    does not return a result, its effect fails with an [Error]. *)
Lemma convertSkill_fails_on_missing_source :
  fst (convertSkill Sample.ghost ["tgt"] copy skip Sample.world0) =
    Failure
      (mkError
         "Failed to convert skill ghost: Error: ENOENT: no such file or directory")
  /\ ~ (exists r w',
          convertSkill Sample.ghost ["tgt"] copy skip Sample.world0 =
            (Succeed r, w')).
Proof.
  split; [vm_compute; reflexivity | ].
  intros (r & w' & H). vm_compute in H. discriminate H.
Qed.

(** C1, amended.  The effect of [convertSkill] ends in one of two ways.  It
    succeeds, with a result for the entry whose [success] is [true].  Or it
    fails, with the [Error] "Failed to convert skill <name>: <cause>": no
    result is returned, and it is the handler [convertSkills] puts around
    each conversion that turns the failure into the result
    [{ success: false, action: skipped, error: message }]. *)
Theorem convertSkill_succeeds_or_fails :
  forall s targetDir mode cr w,
    (exists r w',
       convertSkill s targetDir mode cr w = (Succeed r, w') /\
       skill r = s /\ success r = true /\
       targetPath r = path_join targetDir (skill_name s) /\
       In (action r) [symlinked; copied; moved; skipped])
    \/
    (exists x w',
       let msg :=
         String.append "Failed to convert skill "
           (String.append (skill_name s)
              (String.append ": " (show_exn x))) in
       convertSkill s targetDir mode cr w = (Failure (mkError msg), w') /\
       convertSkills [s] targetDir mode cr w =
         (Succeed
            [mkResult s false skipped (path_join targetDir (skill_name s))
               (Some msg)], w')).
Proof.
  intros s td mode cr w.
  destruct (convertSkill s td mode cr w) as [[r | e] w'] eqn:E.
  - left. exists r, w'. split; [reflexivity | ].
    apply convertSkill_Succeed_inv in E. apply reported_fields in E. tauto.
  - right. destruct (convertSkill_Failure_inv _ _ _ _ _ E) as [x ->].
    exists x, w'. simpl. split; [reflexivity | ].
    rewrite convertSkills_results_in_order. simpl. rewrite E. reflexivity.
Qed.

(** ** The regular expression of the preamble *)

Lemma strip_spec : forall a s r, strip a s = Some r <-> s = String.append a r.
Proof.
  induction a as [ | c a IH]; intros s r; simpl.
  - split; [intros H; injection H as ->; reflexivity | intros ->; reflexivity].
  - destruct s as [ | c' s].
    + split; discriminate.
    + destruct (Ascii.eqb c c') eqn:E.
      * apply Ascii.eqb_eq in E. subst c'. rewrite IH. split.
        -- intros ->. reflexivity.
        -- intros H. injection H as ->. reflexivity.
      * split; [discriminate | ].
        intros H. injection H as <- _. rewrite Ascii.eqb_refl in E.
        discriminate E.
Qed.

Lemma until_fence_sound : forall s block,
  until_fence s = Some block ->
  exists rest,
    s = String.append block (String.append (String.append nl fence) rest).
Proof.
  induction s as [ | c s IH]; intros block.
  - simpl. discriminate.
  - unfold until_fence; fold until_fence.
    destruct (strip (String.append nl fence) (String c s)) as [rest | ] eqn:E.
    + intros H. injection H as <-. exists rest.
      exact (proj1 (strip_spec _ _ _) E).
    + destruct (until_fence s) as [b | ]; [ | discriminate].
      intros H. injection H as <-.
      destruct (IH b eq_refl) as [rest ->]. exists rest. reflexivity.
Qed.

Lemma until_fence_complete : forall block rest,
  exists found,
    until_fence
      (String.append block (String.append (String.append nl fence) rest))
    = Some found.
Proof.
  induction block as [ | c block IH]; intros rest.
  - exists "". change (String.append "" ?x) with x.
    assert (E : strip (String.append nl fence)
                  (String.append (String.append nl fence) rest) = Some rest)
      by (apply strip_spec; reflexivity).
    destruct (String.append (String.append nl fence) rest) eqn:X;
      [discriminate X | ].
    unfold until_fence; fold until_fence. rewrite E. reflexivity.
  - change (String.append (String c block) ?x)
      with (String c (String.append block x)).
    unfold until_fence; fold until_fence.
    destruct (strip (String.append nl fence) _); [eauto | ].
    destruct (IH rest) as [found ->]. simpl. eauto.
Qed.

(** The match succeeds exactly on a content that begins with a fence line
    and has a fence at the start of a later line; the group is what stands
    between the two. *)
Lemma frontmatter_match_Some content block :
  frontmatter_match content = Some block ->
  exists rest,
    content =
      String.append (String.append fence nl)
        (String.append block (String.append (String.append nl fence) rest)).
Proof.
  unfold frontmatter_match.
  destruct (strip (String.append fence nl) content) as [r | ] eqn:E;
    [ | discriminate].
  intros H. apply strip_spec in E.
  destruct (until_fence_sound _ H) as [rest ->]. exists rest. exact E.
Qed.

Lemma frontmatter_match_None content block rest :
  frontmatter_match content = None ->
  content <>
    String.append (String.append fence nl)
      (String.append block (String.append (String.append nl fence) rest)).
Proof.
  unfold frontmatter_match. intros H ->.
  rewrite (proj2 (strip_spec _ _ _) eq_refl) in H.
  destruct (until_fence_complete block rest) as [found E].
  rewrite E in H. discriminate H.
Qed.

(** ** The preamble of a manifest *)

(** C6.  [parseFrontmatter] returns for every content, it never throws; it
    returns the empty mapping when the content has no delimited block, and
    when [yaml.parse] rejects the block. *)
Theorem parseFrontmatter_never_throws :
  forall (yaml_parse : string -> Res jsval) (content : string),
    (exists fm, parseFrontmatter yaml_parse content = Ok fm) /\
    (frontmatter_match content = None ->
     parseFrontmatter yaml_parse content = Ok empty_mapping) /\
    (forall block x,
       frontmatter_match content = Some block ->
       yaml_parse block = Throw x ->
       parseFrontmatter yaml_parse content = Ok empty_mapping).
Proof.
  intros yaml_parse content. unfold parseFrontmatter.
  destruct (frontmatter_match content) as [block | ].
  - split; [ | split].
    + destruct (yaml_parse block) as [v | x]; simpl; eauto.
    + discriminate.
    + intros b x Hb Hx. injection Hb as <-. rewrite Hx. reflexivity.
  - split; [eauto | split; [reflexivity | discriminate]].
Qed.

Lemma parseFrontmatter_never_throws_witness :
  parseFrontmatter Sample.yaml "# No frontmatter here" = Ok empty_mapping /\
  parseFrontmatter Sample.yaml
    (Sample.lines ["---"; "invalid: yaml: content: ["; "---"; ""; "# Content"])
    = Ok empty_mapping.
Proof.
  split.
  - apply (proj1 (proj2 (parseFrontmatter_never_throws Sample.yaml
                           "# No frontmatter here"))).
    reflexivity.
  - apply (proj2 (proj2 (parseFrontmatter_never_throws Sample.yaml
             (Sample.lines
                ["---"; "invalid: yaml: content: ["; "---"; ""; "# Content"])))
             "invalid: yaml: content: ["
             (YAMLParseError "Flow sequence in block collection")).
    + reflexivity.
    + reflexivity.
Defined.

(** ** Path resolution *)

Lemma get_app n p q :
  get n (p ++ q) =
  match get n p with Some m => get m q | None => None end.
Proof.
  revert n. induction p as [ | s p IH]; intros n; simpl.
  - reflexivity.
  - destruct (child n s); [apply IH | reflexivity].
Qed.

Lemma get_snoc n p s :
  get n (p ++ [s]) =
  match get n p with Some m => child m s | None => None end.
Proof.
  rewrite get_app. destruct (get n p) as [m | ]; [ | reflexivity].
  simpl. destruct (child m s); reflexivity.
Qed.

Lemma walk_unfold fuel root cur rest b :
  walk fuel root cur rest b =
  match walk1 root cur rest b with
  | Done p n => Ok (p, n)
  | Stuck e => Throw e
  | Redirect cur' rest' =>
      match fuel with
      | 0 => Throw ELOOP
      | S fuel' => walk fuel' root cur' rest' b
      end
  end.
Proof. destruct fuel; reflexivity. Qed.

(** A step that ends ends on an existing node. *)
Lemma walk1_Done_get root rest b : forall cur p n,
  walk1 root cur rest b = Done p n -> get root p = Some n.
Proof.
  induction rest as [ | c rest IH]; intros cur p n; simpl.
  - destruct (get root cur) as [m | ] eqn:G; intros H; [ | discriminate H].
    injection H as <- <-. exact G.
  - destruct c as [ | s].
    + destruct (get root cur) as [[ | r ents | t] | ]; try discriminate.
      apply IH.
    + destruct (get root cur) as [[ | r ents | t] | ] eqn:G; try discriminate.
      destruct (lookup ents s) as [[m c0 | r0 e0 | t] | ] eqn:L;
        try discriminate; try apply IH.
      destruct (b && _).
      * intros H. injection H as <- <-. rewrite get_snoc, G. exact L.
      * destruct (link_is_empty t); discriminate.
Qed.

Lemma walk_Ok_get fuel root : forall cur rest b p n,
  walk fuel root cur rest b = Ok (p, n) -> get root p = Some n.
Proof.
  induction fuel as [ | fuel IH]; intros cur rest b p n;
    rewrite walk_unfold;
    destruct (walk1 root cur rest b) as [p0 n0 | cur' rest' | e] eqn:W;
    try discriminate.
  - intros H. injection H as <- <-. eapply walk1_Done_get; eassumption.
  - intros H. injection H as <- <-. eapply walk1_Done_get; eassumption.
  - apply IH.
Qed.

(** One more component at the end of a path: the step over the path is the
    same until the path is used up. *)
Lemma walk1_snoc root c b : forall rest cur,
  match walk1 root cur rest false with
  | Done p n => walk1 root cur (rest ++ [c]) b = walk1 root p [c] b
  | Redirect cur' r0 =>
      walk1 root cur (rest ++ [c]) b = Redirect cur' (r0 ++ [c])
  | Stuck _ => exists e, walk1 root cur (rest ++ [c]) b = Stuck e
  end.
Proof.
  induction rest as [ | x rest IH]; intros cur.
  - change ([] ++ [c]) with [c].
    change (walk1 root cur [] false)
      with (match get root cur with
            | Some n => Done cur n
            | None => Stuck ENOENT
            end).
    destruct (get root cur) as [n | ] eqn:G; [reflexivity | ].
    destruct c; simpl; rewrite G; eauto.
  - destruct x as [ | s]; simpl.
    + destruct (get root cur) as [[ | r ents | t] | ]; eauto. apply IH.
    + destruct (get root cur) as [[ | r ents | t] | ]; eauto.
      destruct (lookup ents s) as [[m c0 | r0 e0 | t] | ]; eauto;
        try apply IH.
      replace (b && match rest ++ [c] with [] => true | _ :: _ => false end)
        with false by (destruct rest; simpl; rewrite andb_false_r; reflexivity).
      destruct (link_is_empty t); eauto.
      rewrite app_assoc. reflexivity.
Qed.

Lemma walk_snoc_Ok fuel root c b q m : forall cur rest p n,
  walk fuel root cur rest false = Ok (p, n) ->
  walk1 root p [c] b = Done q m ->
  walk fuel root cur (rest ++ [c]) b = Ok (q, m).
Proof.
  induction fuel as [ | fuel IH]; intros cur rest p n;
    rewrite !walk_unfold; pose proof (walk1_snoc root c b rest cur) as S;
    destruct (walk1 root cur rest false) as [p0 n0 | cur' r0 | e];
    try discriminate.
  - intros H D. injection H as <- <-. rewrite S, D. reflexivity.
  - intros H D. injection H as <- <-. rewrite S, D. reflexivity.
  - intros H D. rewrite S. eapply IH; eassumption.
Qed.

Lemma walk_snoc_inv fuel root c b r : forall cur rest,
  walk fuel root cur (rest ++ [c]) b = Ok r ->
  exists p n, walk fuel root cur rest false = Ok (p, n).
Proof.
  induction fuel as [ | fuel IH]; intros cur rest;
    rewrite !walk_unfold; pose proof (walk1_snoc root c b rest cur) as S;
    destruct (walk1 root cur rest false) as [p0 n0 | cur' r0 | e];
    eauto.
  - rewrite S. discriminate.
  - destruct S as [e' ->]. discriminate.
  - rewrite S. apply IH.
  - destruct S as [e' ->]. discriminate.
Qed.

(** Not following the last link changes the step only when it ends on a
    link. *)
Lemma walk1_nofollow root : forall rest cur,
  walk1 root cur rest true = walk1 root cur rest false \/
  exists p t, walk1 root cur rest true = Done p (Symlink t).
Proof.
  induction rest as [ | x rest IH]; intros cur.
  - left. reflexivity.
  - destruct x as [ | s]; simpl.
    + destruct (get root cur) as [[ | r ents | t] | ]; auto.
    + destruct (get root cur) as [[ | r ents | t] | ]; auto.
      destruct (lookup ents s) as [[m c0 | r0 e0 | t] | ]; auto.
      destruct rest; simpl; eauto.
Qed.

Lemma walk_nofollow fuel root r : forall cur rest,
  walk fuel root cur rest false = Ok r ->
  exists r', walk fuel root cur rest true = Ok r'.
Proof.
  induction fuel as [ | fuel IH]; intros cur rest;
    rewrite !walk_unfold;
    destruct (walk1_nofollow root rest cur) as [-> | (p & t & ->)]; eauto;
    destruct (walk1 root cur rest false) as [p0 n0 | cur' r0 | e];
    eauto; discriminate.
Qed.

(** What exists below a path is below something: [lstat] of the path
    succeeds. *)
Lemma exists_below_lstat fs p s :
  existsSync fs (path_join p s) = true -> exists r, lstat fs p = Ok r.
Proof.
  unfold existsSync, stat, lstat, path_join. rewrite map_app.
  change (map Name [s]) with [Name s].
  destruct (walk SYMLOOP_MAX fs [] (map Name p ++ [Name s]) false) as [r | x]
    eqn:W; [ | simpl; discriminate].
  intros _. apply walk_snoc_inv in W. destruct W as (q & n & W).
  eapply walk_nofollow. eassumption.
Qed.

(** The path of a child that is not a link resolves to the child. *)
Lemma stat_child fs p rp r ents s c b :
  stat fs p = Ok (rp, Dir r ents) ->
  lookup ents s = Some c ->
  isSymbolicLink (kind_of c) = false ->
  walk SYMLOOP_MAX fs [] (map Name (path_join p s)) b = Ok (rp ++ [s], c).
Proof.
  unfold stat, path_join. intros W L K. rewrite map_app.
  change (map Name [s]) with [Name s].
  eapply walk_snoc_Ok; [exact W | ].
  apply walk_Ok_get in W. simpl. rewrite W, L.
  destruct c as [m c0 | r0 e0 | t]; try discriminate K;
    simpl; rewrite get_snoc, W; simpl; rewrite L; reflexivity.
Qed.

(** ** Detection *)

Section Detection.

Variable yaml_parse : string -> Res jsval.
Variable fs : node.

Lemma analyzeSkill_absent p :
  existsSync fs (path_join p manifest) = false ->
  analyzeSkill yaml_parse fs p = Ok None.
Proof. unfold analyzeSkill. intros ->. reflexivity. Qed.

(** [analyzeSkill] does not throw: with the manifest there, [lstatSync] of
    the directory succeeds, and everything else is guarded. *)
Lemma analyzeSkill_present p :
  existsSync fs (path_join p manifest) = true ->
  exists s,
    analyzeSkill yaml_parse fs p = Ok (Some s) /\
    skill_name s = path_basename p /\ skill_path s = p /\
    hasSkillMd s = true /\ sizeKb s = getDirectorySizeKb fs p.
Proof.
  intros E. unfold analyzeSkill. rewrite E. simpl negb. cbv iota.
  destruct (exists_below_lstat _ _ _ E) as [[q n] L].
  unfold lstatSync. rewrite L. simpl res_bind.
  destruct (match readFileSync fs (path_join p manifest) with
            | Ok text =>
                match parseFrontmatter yaml_parse text with
                | Ok fm => (text, fm)
                | Throw _ => (text, empty_mapping)
                end
            | Throw _ => ("", empty_mapping)
            end) as [content fm].
  eexists. split; [reflexivity | ]. simpl. auto.
Qed.

Lemma analyzeSkill_cases p :
  (existsSync fs (path_join p manifest) = false /\
   analyzeSkill yaml_parse fs p = Ok None) \/
  (existsSync fs (path_join p manifest) = true /\
   exists s,
     analyzeSkill yaml_parse fs p = Ok (Some s) /\
     skill_name s = path_basename p /\ skill_path s = p /\
     hasSkillMd s = true /\ sizeKb s = getDirectorySizeKb fs p).
Proof.
  destruct (existsSync fs (path_join p manifest)) eqn:E.
  - right. split; [reflexivity | apply analyzeSkill_present; exact E].
  - left. split; [reflexivity | apply analyzeSkill_absent; exact E].
Qed.

Lemma basename_join p s : path_basename (path_join p s) = s.
Proof. unfold path_basename, path_join. apply last_last. Qed.

(** The entries the inner loop adds: one for each listed directory that
    holds a manifest, in the order of the listing. *)
Lemma detect_nested_adds skillPath entry_name : forall nested,
  exists added,
    (forall skills,
       detect_nested yaml_parse fs skillPath entry_name nested skills
         = (Ok tt, skills ++ added)) /\
    map skill_path added =
      map (fun e => path_join skillPath (fst e))
        (filter (fun e => isDirectory (snd e) &&
                          existsSync fs
                            (path_join (path_join skillPath (fst e)) manifest))
           nested) /\
    Forall (fun s =>
              skill_name s =
                String.append entry_name
                  (String.append "-" (path_basename (skill_path s))) /\
              classified fs s)
           added.
Proof.
  induction nested as [ | [sub k] tl IH].
  - exists []. split; [ | split; constructor].
    intros skills. rewrite app_nil_r. reflexivity.
  - destruct IH as (added & R & Hpaths & Hnames).
    simpl. destruct (isDirectory k); simpl.
    + destruct (analyzeSkill_cases (path_join skillPath sub))
        as [[E A] | (E & s & A & Hn & Hp & _ & Hs)]; rewrite A, E.
      * exists added. auto.
      * exists (set_name (String.append entry_name
                            (String.append "-" (skill_name s))) s :: added).
        split; [ | split].
        -- intros skills. cbv zeta. rewrite R, <- app_assoc. reflexivity.
        -- simpl. rewrite Hp, Hpaths. reflexivity.
        -- constructor; [ | exact Hnames]. unfold classified. simpl.
           rewrite Hn, Hp. auto.
    + exists added. auto.
Qed.

Lemma prefix_underscore_append a b :
  String.prefix "_" a = false ->
  String.prefix "_" (String.append a (String.append "-" b)) = false.
Proof.
  destruct a as [ | c a]; [reflexivity | ].
  unfold String.append; fold String.append.
  unfold String.prefix; fold String.prefix.
  destruct (Ascii.ascii_dec "_"%char c); [ | reflexivity].
  destruct a; intros H; discriminate H.
Qed.

(** One turn of the outer loop does not throw, and adds entries found in
    the child only. *)
Lemma detect_entry_adds dir entry :
  exists added,
    (forall skills,
       detect_entry yaml_parse fs dir entry skills = Ok (skills ++ added)) /\
    Forall (fun s => String.prefix "_" (fst entry) = false /\
                     found_in dir (fst entry) s /\ classified fs s) added.
Proof.
  destruct entry as [name k]. unfold detect_entry. simpl fst. simpl snd.
  assert (Nil : exists added : list DetectedSkill,
             (forall skills, Ok skills = Ok (skills ++ added)) /\
             Forall (fun s => String.prefix "_" name = false /\
                              found_in dir name s /\ classified fs s) added).
  { exists []. split; [ | constructor].
    intros skills. rewrite app_nil_r. reflexivity. }
  destruct (negb (isDirectory k) && negb (isSymbolicLink k)); [exact Nil | ].
  destruct (String.prefix "_" name) eqn:U; [exact Nil | ].
  destruct (if isSymbolicLink k
            then match realpathSync fs (path_join dir name) with
                 | Ok p => Some p
                 | Throw _ => None
                 end
            else Some (path_join dir name)) as [actual | ]; [ | exact Nil].
  destruct (existsSync fs (path_join actual manifest)).
  - destruct (analyzeSkill_cases (path_join dir name))
      as [[_ A] | (E & s & A & Hn & Hp & _ & Hs)]; rewrite A; simpl;
      [exact Nil | ].
    exists [s]. split; [reflexivity | ].
    constructor; [ | constructor]. split; [reflexivity | ].
    split; [ | unfold classified; rewrite Hp; auto].
    left. rewrite Hn, Hp, basename_join. split; reflexivity.
  - destruct (readdirSync fs actual) as [nested | x]; [ | exact Nil].
    destruct (detect_nested_adds (path_join dir name) name nested)
      as (added & R & Hpaths & Hnames).
    exists added. split; [intros skills; rewrite R; reflexivity | ].
    clear R. revert Hpaths Hnames.
    generalize (filter
                  (fun e => isDirectory (snd e) &&
                            existsSync fs
                              (path_join (path_join (path_join dir name) (fst e))
                                 manifest)) nested).
    induction added as [ | s added IH]; intros l Hpaths Hnames;
      [constructor | ].
    destruct l as [ | e l]; [discriminate Hpaths | ].
    simpl in Hpaths. injection Hpaths as Hs Hpaths.
    inversion Hnames as [ | ? ? [Hname Hc] Hnames']; subst.
    constructor; [ | eapply IH; eassumption].
    split; [reflexivity | ]. split; [ | exact Hc]. right. exists (fst e).
    rewrite Hname, Hs, basename_join. split; [ | reflexivity].
    unfold path_join. rewrite <- app_assoc. reflexivity.
Qed.

Lemma detect_loop_adds dir : forall entries,
  exists added,
    (forall skills,
       detect_loop yaml_parse fs dir entries skills = Ok (skills ++ added)) /\
    Forall (fun s => found_under dir entries s /\ classified fs s) added.
Proof.
  induction entries as [ | entry tl IH].
  - exists []. split; [ | constructor].
    intros skills. rewrite app_nil_r. reflexivity.
  - destruct (detect_entry_adds dir entry) as (a1 & R1 & F1).
    destruct IH as (a2 & R2 & F2).
    exists (a1 ++ a2). split.
    + intros skills. simpl. rewrite R1. simpl. rewrite R2, app_assoc.
      reflexivity.
    + apply Forall_app. split.
      * eapply Forall_impl; [ | exact F1]. simpl. intros s (U & F & C).
        split; [ | exact C].
        exists entry. split; [left; reflexivity | auto].
      * eapply Forall_impl; [ | exact F2]. simpl.
        intros s ((e & I & U & F) & C). split; [ | exact C].
        exists e. split; [right; exact I | auto].
Qed.

Lemma detect_loop_app dir : forall l1 l2 skills,
  detect_loop yaml_parse fs dir (l1 ++ l2) skills =
  res_bind (detect_loop yaml_parse fs dir l1 skills)
    (detect_loop yaml_parse fs dir l2).
Proof.
  induction l1 as [ | e l1 IH]; intros l2 skills; simpl.
  - reflexivity.
  - destruct (detect_entry yaml_parse fs dir e skills); simpl;
      [apply IH | reflexivity].
Qed.

End Detection.

Lemma detectSkills_run yaml_parse dir w :
  detectSkills yaml_parse dir w =
  (if negb (existsSync (w_fs w) dir) then Succeed []
   else match readdirSync (w_fs w) dir with
        | Throw x =>
            Failure (mkError (String.append "Failed to detect skills: "
                                (show_exn x)))
        | Ok entries =>
            match detect_loop yaml_parse (w_fs w) dir entries [] with
            | Ok skills => Succeed skills
            | Throw x =>
                Failure (mkError (String.append "Failed to detect skills: "
                                    (show_exn x)))
            end
        end, w).
Proof.
  unfold detectSkills, Effect_try, reading.
  destruct (negb (existsSync (w_fs w) dir)); [reflexivity | ].
  destruct (readdirSync (w_fs w) dir) as [entries | x]; [ | reflexivity].
  simpl. destruct (detect_loop yaml_parse (w_fs w) dir entries []);
    reflexivity.
Qed.

Lemma detectSkills_Succeed_inv yaml_parse dir w skills w' :
  detectSkills yaml_parse dir w = (Succeed skills, w') ->
  w' = w /\
  exists entries,
    Forall (fun s => found_under dir entries s /\ classified (w_fs w) s)
      skills.
Proof.
  rewrite detectSkills_run. intros H. injection H as H <-.
  split; [reflexivity | ].
  destruct (negb (existsSync (w_fs w) dir)).
  - injection H as <-. exists []. constructor.
  - destruct (readdirSync (w_fs w) dir) as [entries | x]; [ | discriminate H].
    destruct (detect_loop_adds yaml_parse (w_fs w) dir entries)
      as (added & E & F).
    rewrite E in H. injection H as <-. exists entries. exact F.
Qed.

Lemma found_in_not_under dir child s other rest :
  found_in dir child s -> child <> other ->
  skill_path s <> dir ++ other :: rest.
Proof.
  intros [[Hp _] | (sub & Hp & _)] Hne E; rewrite Hp in E;
    apply app_inv_head in E; injection E as E; auto.
Qed.

(** C8.  No entry [detectSkills] returns comes from a first-level child
    whose name begins with an underscore: the path of an entry is never
    such a child or anything below it, and the name of an entry never
    begins with an underscore.  In particular the directory of the backups,
    [_backup] under the root [convertSkill] was given, is not an entry of
    that root. *)
Theorem reserved_prefix_never_classified :
  forall yaml_parse dir w skills w',
    detectSkills yaml_parse dir w = (Succeed skills, w') ->
    Forall (fun s =>
              (forall child rest,
                 String.prefix "_" child = true ->
                 skill_path s <> dir ++ child :: rest) /\
              String.prefix "_" (skill_name s) = false /\
              skill_path s <> path_join dir backup_name)
           skills.
Proof.
  intros yaml_parse dir w skills w' H.
  apply detectSkills_Succeed_inv in H. destruct H as (_ & entries & F).
  eapply Forall_impl; [ | exact F]. simpl.
  intros s ((e & _ & U & Fi) & _).
  assert (A : forall child rest, String.prefix "_" child = true ->
                skill_path s <> dir ++ child :: rest).
  { intros child rest Uc. eapply found_in_not_under; [exact Fi | ].
    intros Heq. rewrite Heq, Uc in U. discriminate U. }
  split; [exact A | split].
  - destruct Fi as [[_ ->] | (sub & _ & ->)];
      [exact U | apply prefix_underscore_append; exact U].
  - apply A. reflexivity.
Qed.

Lemma reserved_prefix_never_classified_witness :
  Forall (fun s =>
            (forall child rest,
               String.prefix "_" child = true ->
               skill_path s <> ["src"] ++ child :: rest) /\
            String.prefix "_" (skill_name s) = false /\
            skill_path s <> path_join ["src"] backup_name)
    (match fst (detectSkills Sample.yaml ["src"] Sample.world0) with
     | Succeed skills => skills
     | Failure _ => []
     end).
Proof.
  apply (reserved_prefix_never_classified Sample.yaml ["src"] Sample.world0
           (w' := Sample.world0)).
  vm_compute. reflexivity.
Defined.

(** C5, as stated, fails: a root that is a regular file exists and cannot
    be listed, and the effect of [detectSkills] fails. *)
Lemma detectSkills_fails_on_a_file :
  existsSync Sample.tree ["src"; "plain.txt"] = true /\
  fst (detectSkills Sample.yaml ["src"; "plain.txt"] Sample.world0) =
    Failure
      (mkError "Failed to detect skills: Error: ENOTDIR: not a directory")
  /\ ~ (exists skills w',
          detectSkills Sample.yaml ["src"; "plain.txt"] Sample.world0 =
            (Succeed skills, w')).
Proof.
  split; [vm_compute; reflexivity | ].
  split; [vm_compute; reflexivity | ].
  intros (skills & w' & H). vm_compute in H. discriminate H.
Qed.

(** C5, amended.  [detectSkills] changes nothing, and its effect fails in
    one case only: the root exists and cannot be listed (it is not a
    directory, or it is unreadable); the failure is then the [Error]
    "Failed to detect skills: <cause>".  A missing root gives the empty
    sequence, a root that can be listed gives a sequence, and a child that
    is a dangling link is passed over: the turn of the loop leaves the
    entries found so far as they are, and does not throw. *)
Theorem detectSkills_fails_only_on_unlistable_root :
  forall yaml_parse dir w,
    snd (detectSkills yaml_parse dir w) = w /\
    (existsSync (w_fs w) dir = false ->
     fst (detectSkills yaml_parse dir w) = Succeed []) /\
    (forall entries,
       readdirSync (w_fs w) dir = Ok entries ->
       exists skills, fst (detectSkills yaml_parse dir w) = Succeed skills) /\
    (forall x,
       existsSync (w_fs w) dir = true ->
       readdirSync (w_fs w) dir = Throw x ->
       fst (detectSkills yaml_parse dir w) =
         Failure (mkError (String.append "Failed to detect skills: "
                             (show_exn x)))) /\
    (forall name x skills,
       realpathSync (w_fs w) (path_join dir name) = Throw x ->
       detect_entry yaml_parse (w_fs w) dir (name, KSymlink) skills
         = Ok skills).
Proof.
  intros yaml_parse dir w. rewrite detectSkills_run. simpl.
  split; [reflexivity | ]. split; [ | split; [ | split]].
  - intros ->. reflexivity.
  - intros entries R.
    destruct (negb (existsSync (w_fs w) dir)); [eauto | ]. rewrite R.
    destruct (detect_loop_adds yaml_parse (w_fs w) dir entries)
      as (added & E & _). rewrite E. eauto.
  - intros x -> ->. reflexivity.
  - intros name x skills R. unfold detect_entry.
    cbn [fst snd isDirectory isSymbolicLink negb andb].
    destruct (String.prefix "_" name); [reflexivity | ].
    rewrite R. reflexivity.
Qed.

Lemma detectSkills_fails_only_on_unlistable_root_witness :
  fst (detectSkills Sample.yaml ["nowhere"] Sample.world0) = Succeed [] /\
  detect_entry Sample.yaml Sample.tree ["src"] ("dangling", KSymlink) []
    = Ok [].
Proof.
  split.
  - apply (proj1 (proj2 (detectSkills_fails_only_on_unlistable_root
                           Sample.yaml ["nowhere"] Sample.world0))).
    vm_compute. reflexivity.
  - apply (proj2 (proj2 (proj2 (proj2
             (detectSkills_fails_only_on_unlistable_root
                Sample.yaml ["src"] Sample.world0))))
             "dangling" ENOENT []).
    vm_compute. reflexivity.
Defined.

(** ** Grouping *)

Section Grouping.

Variable yaml_parse : string -> Res jsval.
Variable fs : node.
Variable dir : path.
Variable group : string.
Hypothesis not_reserved : String.prefix "_" group = false.

(** A directory with the manifest in it is one entry, whatever else it
    holds. *)
Lemma detect_entry_direct :
  existsSync fs (path_join (path_join dir group) manifest) = true ->
  exists s,
    (forall skills,
       detect_entry yaml_parse fs dir (group, KDir) skills
         = Ok (skills ++ [s])) /\
    skill_name s = group /\ skill_path s = path_join dir group.
Proof.
  intros E. unfold detect_entry.
  cbn [fst snd isDirectory isSymbolicLink negb andb].
  rewrite not_reserved, E.
  destruct (analyzeSkill_present yaml_parse fs _ E) as (s & -> & Hn & Hp & _).
  exists s. rewrite Hn, Hp, basename_join. auto.
Qed.

Lemma filter_both A (f g : A -> bool) l :
  filter (fun x => f x && g x) l = filter g (filter f l).
Proof.
  induction l as [ | x l IH]; simpl; [reflexivity | ].
  destruct (f x); simpl; [ | exact IH].
  destruct (g x); rewrite IH; reflexivity.
Qed.

(** A directory without the manifest is a grouping directory: its two
    subdirectories with a manifest are the two entries. *)
Lemma detect_entry_group nested sub1 sub2 :
  existsSync fs (path_join (path_join dir group) manifest) = false ->
  readdirSync fs (path_join dir group) = Ok nested ->
  map fst (filter (fun e => isDirectory (snd e)) nested) = [sub1; sub2] ->
  existsSync fs
    (path_join (path_join (path_join dir group) sub1) manifest) = true ->
  existsSync fs
    (path_join (path_join (path_join dir group) sub2) manifest) = true ->
  exists s1 s2,
    (forall skills,
       detect_entry yaml_parse fs dir (group, KDir) skills
         = Ok (skills ++ [s1; s2])) /\
    skill_name s1 = String.append group (String.append "-" sub1) /\
    skill_path s1 = path_join (path_join dir group) sub1 /\
    skill_name s2 = String.append group (String.append "-" sub2) /\
    skill_path s2 = path_join (path_join dir group) sub2.
Proof.
  intros E R Hsubs E1 E2. unfold detect_entry.
  cbn [fst snd isDirectory isSymbolicLink negb andb].
  rewrite not_reserved, E, R.
  destruct (detect_nested_adds yaml_parse fs (path_join dir group) group
              nested) as (added & Hrun & Hpaths & Hnames).
  rewrite filter_both in Hpaths.
  destruct (filter (fun e => isDirectory (snd e)) nested)
    as [ | [n1 k1] [ | [n2 k2] [ | ? ?]]]; try discriminate Hsubs.
  simpl in Hsubs. injection Hsubs as -> ->.
  simpl in Hpaths. rewrite E1, E2 in Hpaths.
  destruct added as [ | s1 [ | s2 [ | ? ?]]]; try discriminate Hpaths.
  simpl in Hpaths. injection Hpaths as P1 P2.
  inversion Hnames as [ | ? ? [N1 _] Hnames']; subst.
  inversion Hnames' as [ | ? ? [N2 _] _]; subst.
  exists s1, s2. split; [intros skills; rewrite Hrun; reflexivity | ].
  rewrite N1, N2, P1, P2, !basename_join. auto.
Qed.

(** The entries of the other children are not the child's or below it. *)
Lemma found_under_elsewhere entries s rest :
  found_under dir entries s ->
  ~ In group (map fst entries) ->
  skill_path s <> path_join dir group ++ rest.
Proof.
  intros (e & I & _ & F) N. unfold path_join. rewrite <- app_assoc. simpl.
  eapply found_in_not_under; [exact F | ].
  intros Heq. apply N. rewrite <- Heq. apply in_map. exact I.
Qed.

(** The scan of a root whose listing has [group] between [before] and
    [after]: what the turn for [group] adds stands between what the
    other children add. *)
Lemma detectSkills_around w before after added :
  w_fs w = fs ->
  readdirSync fs dir = Ok (before ++ (group, KDir) :: after) ->
  ~ In group (map fst (before ++ after)) ->
  (forall skills,
     detect_entry yaml_parse fs dir (group, KDir) skills
       = Ok (skills ++ added)) ->
  exists A B,
    detectSkills yaml_parse dir w = (Succeed (A ++ added ++ B), w) /\
    Forall (fun s => forall rest, skill_path s <> path_join dir group ++ rest)
      (A ++ B).
Proof.
  intros Hw R N Hadd. rewrite detectSkills_run, Hw.
  assert (Ex : existsSync fs dir = true).
  { unfold readdirSync in R. unfold existsSync.
    destruct (stat fs dir); [reflexivity | discriminate R]. }
  rewrite Ex, R. simpl negb. cbv iota.
  rewrite detect_loop_app.
  destruct (detect_loop_adds yaml_parse fs dir before) as (A & RA & FA).
  destruct (detect_loop_adds yaml_parse fs dir after) as (B & RB & FB).
  rewrite RA. simpl. rewrite Hadd. simpl. rewrite RB.
  exists A, B. rewrite <- app_assoc. split; [reflexivity | ].
  rewrite map_app, in_app_iff in N.
  apply Forall_app. split;
    (eapply Forall_impl; [ | eassumption]); simpl; intros s [F _] rest;
    eapply found_under_elsewhere; eauto.
Qed.

End Grouping.

(** C4, as stated, fails: a first-level directory with the manifest in it
    and a name that begins with an underscore gives no entry. *)
Lemma reserved_directory_is_no_entry :
  readdirSync Sample.tree ["src"] =
    Ok [("real", KDir); ("alias", KSymlink); ("dangling", KSymlink);
        ("group", KDir); ("_backup", KDir); ("plain.txt", KFile)] /\
  existsSync Sample.tree ["src"; "_backup"; "SKILL.md"] = true /\
  exists skills,
    fst (detectSkills Sample.yaml ["src"] Sample.world0) = Succeed skills /\
    ~ In "_backup" (map skill_name skills).
Proof.
  split; [vm_compute; reflexivity | ].
  split; [vm_compute; reflexivity | ].
  eexists. split; [vm_compute; reflexivity | ].
  simpl. intros [H | [H | [H | [H | []]]]]; discriminate H.
Qed.

(** C4, amended.  Let the listing of the root have the directory [group],
    once, with a name that does not begin with an underscore.  If [group]
    has no manifest and its subdirectories are [sub1] and [sub2], each with
    a manifest, the scan has exactly two entries at or below [group], named
    [group-sub1] and [group-sub2], in this order.  If [group] has a
    manifest, the scan has exactly one entry at or below [group], named
    [group]: its subdirectories are not looked at. *)
Theorem grouping_detection :
  forall yaml_parse w dir group before after,
    readdirSync (w_fs w) dir = Ok (before ++ (group, KDir) :: after) ->
    ~ In group (map fst (before ++ after)) ->
    String.prefix "_" group = false ->
    (forall nested sub1 sub2,
       existsSync (w_fs w) (path_join (path_join dir group) manifest) = false ->
       readdirSync (w_fs w) (path_join dir group) = Ok nested ->
       map fst (filter (fun e => isDirectory (snd e)) nested) = [sub1; sub2] ->
       existsSync (w_fs w)
         (path_join (path_join (path_join dir group) sub1) manifest) = true ->
       existsSync (w_fs w)
         (path_join (path_join (path_join dir group) sub2) manifest) = true ->
       exists A B s1 s2,
         detectSkills yaml_parse dir w = (Succeed (A ++ [s1; s2] ++ B), w) /\
         skill_name s1 = String.append group (String.append "-" sub1) /\
         skill_path s1 = path_join (path_join dir group) sub1 /\
         skill_name s2 = String.append group (String.append "-" sub2) /\
         skill_path s2 = path_join (path_join dir group) sub2 /\
         Forall (fun s =>
                   forall rest, skill_path s <> path_join dir group ++ rest)
           (A ++ B))
    /\
    (existsSync (w_fs w) (path_join (path_join dir group) manifest) = true ->
     exists A B s,
       detectSkills yaml_parse dir w = (Succeed (A ++ [s] ++ B), w) /\
       skill_name s = group /\
       skill_path s = path_join dir group /\
       Forall (fun s =>
                 forall rest, skill_path s <> path_join dir group ++ rest)
         (A ++ B)).
Proof.
  intros yaml_parse w dir group before after R N U. split.
  - intros nested sub1 sub2 E Rn Hsubs E1 E2.
    destruct (@detect_entry_group yaml_parse (w_fs w) dir group U nested
                sub1 sub2 E Rn Hsubs E1 E2)
      as (s1 & s2 & Hadd & N1 & P1 & N2 & P2).
    destruct (@detectSkills_around yaml_parse (w_fs w) dir group w
                before after [s1; s2] eq_refl R N Hadd)
      as (A & B & Hrun & F).
    exists A, B, s1, s2. auto 10.
  - intros E.
    destruct (@detect_entry_direct yaml_parse (w_fs w) dir group U E)
      as (s & Hadd & N1 & P1).
    destruct (@detectSkills_around yaml_parse (w_fs w) dir group w
                before after [s] eq_refl R N Hadd)
      as (A & B & Hrun & F).
    exists A, B, s. auto.
Qed.

Lemma grouping_detection_witness :
  (exists A B s1 s2,
     detectSkills Sample.yaml ["src"] Sample.world0
       = (Succeed (A ++ [s1; s2] ++ B), Sample.world0) /\
     skill_name s1 = "group-sub1" /\
     skill_path s1 = ["src"; "group"; "sub1"] /\
     skill_name s2 = "group-sub2" /\
     skill_path s2 = ["src"; "group"; "sub2"] /\
     Forall (fun s => forall rest, skill_path s <> ["src"; "group"] ++ rest)
       (A ++ B)) /\
  (exists A B s,
     detectSkills Sample.yaml ["src"] Sample.world0
       = (Succeed (A ++ [s] ++ B), Sample.world0) /\
     skill_name s = "real" /\
     skill_path s = ["src"; "real"] /\
     Forall (fun s => forall rest, skill_path s <> ["src"; "real"] ++ rest)
       (A ++ B)).
Proof.
  split.
  - apply (proj1 (grouping_detection Sample.yaml Sample.world0 ["src"] "group"
             [("real", KDir); ("alias", KSymlink); ("dangling", KSymlink)]
             [("_backup", KDir); ("plain.txt", KFile)]
             eq_refl
             ltac:(simpl; intros [H | [H | [H | [H | [H | []]]]]];
                   discriminate H)
             eq_refl)
           [("sub1", KDir); ("sub2", KDir); ("notes.txt", KFile)]
           "sub1" "sub2");
      vm_compute; reflexivity.
  - apply (proj2 (grouping_detection Sample.yaml Sample.world0 ["src"] "real"
             []
             [("alias", KSymlink); ("dangling", KSymlink); ("group", KDir);
              ("_backup", KDir); ("plain.txt", KFile)]
             eq_refl
             ltac:(simpl; intros [H | [H | [H | [H | [H | []]]]]];
                   discriminate H)
             eq_refl)).
    vm_compute. reflexivity.
Defined.

(** ** The size of an entry *)

Lemma content_size_Dir ents :
  content_size (Dir true ents) = sum_sizes ents.
Proof.
  simpl. induction ents as [ | [s c] tl IH]; simpl; [reflexivity | ].
  rewrite IH. reflexivity.
Qed.

Lemma lookup_In ents s c : lookup ents s = Some c -> In (s, c) ents.
Proof.
  induction ents as [ | [k c0] tl IH]; simpl; [discriminate | ].
  destruct (String.eqb k s) eqn:E.
  - apply String.eqb_eq in E. intros H. injection H as ->. subst. auto.
  - auto.
Qed.

Lemma names_unique_lookup ents s c :
  names_unique (map fst ents) = true -> In (s, c) ents ->
  lookup ents s = Some c.
Proof.
  induction ents as [ | [k c0] tl IH]; simpl; [intros _ [] | ].
  intros U [H | H].
  - injection H as -> ->. rewrite String.eqb_refl. reflexivity.
  - apply andb_prop in U. destruct U as [U1 U2].
    destruct (String.eqb k s) eqn:E; [ | auto].
    apply String.eqb_eq in E. subst k. exfalso.
    apply negb_true_iff in U1.
    assert (X : existsb (String.eqb s) (map fst tl) = true).
    { apply existsb_exists. exists s. split; [ | apply String.eqb_refl].
      change s with (fst (s, c)). apply in_map. exact H. }
    rewrite X in U1. discriminate U1.
Qed.

Lemma wf_node_Dir r ents :
  wf_node (Dir r ents) = true ->
  names_unique (map fst ents) = true /\
  forall s c, In (s, c) ents -> wf_node c = true.
Proof.
  simpl. intros H. apply andb_prop in H. destruct H as [U A].
  split; [exact U | ].
  induction ents as [ | [k c0] tl IH]; [intros s c [] | ].
  apply andb_prop in A. destruct A as [A1 A2].
  intros s c [H | H]; [injection H as _ <-; exact A1 | ].
  simpl in U. apply andb_prop in U. eapply IH; [apply U | exact A2 | exact H].
Qed.

Lemma height_Dir r ents s c :
  In (s, c) ents -> height c < height (Dir r ents).
Proof.
  simpl. induction ents as [ | [k c0] tl IH]; [intros [] | ].
  intros [H | H].
  - injection H as _ <-. lia.
  - specialize (IH H). lia.
Qed.

Lemma get_wf : forall p root n,
  wf_node root = true -> get root p = Some n -> wf_node n = true.
Proof.
  induction p as [ | s p IH]; intros root n W; simpl.
  - intros H. injection H as <-. exact W.
  - destruct root as [m c | r ents | t]; try discriminate. simpl.
    destruct (lookup ents s) as [c | ] eqn:L; [ | discriminate].
    apply IH. apply wf_node_Dir in W. destruct W as [_ W].
    eapply W. apply lookup_In. exact L.
Qed.

Lemma get_height : forall p root n,
  get root p = Some n -> height n <= height root.
Proof.
  induction p as [ | s p IH]; intros root n; simpl.
  - intros H. injection H as <-. lia.
  - destruct root as [m c | r ents | t]; try discriminate. simpl child.
    destruct (lookup ents s) as [c | ] eqn:L; [ | discriminate].
    intros H. apply IH in H. apply lookup_In in L.
    apply (height_Dir r) in L. lia.
Qed.

Section Size.

Variable fs : node.

(** The walk of a directory adds the size of its content to the total. *)
Lemma walkDir_adds : forall depth p rp r ents totalSize,
  stat fs p = Ok (rp, Dir r ents) ->
  wf_node (Dir r ents) = true ->
  height (Dir r ents) <= depth ->
  walkDir depth fs p totalSize = (totalSize + content_size (Dir r ents))%Z.
Proof.
  induction depth as [ | depth IH]; intros p rp r ents totalSize St W Hh.
  - simpl in Hh. lia.
  - simpl walkDir. unfold readdirSync. rewrite St.
    destruct r; [ | simpl; lia]. rewrite content_size_Dir.
    apply wf_node_Dir in W. destruct W as [U W].
    assert (Hl : forall s c, In (s, c) ents -> lookup ents s = Some c)
      by (intros; apply names_unique_lookup; assumption).
    assert (Hd : forall s c, In (s, c) ents -> height c <= depth)
      by (intros s c I; apply (height_Dir true) in I; lia).
    clear U Hh. revert totalSize.
    assert (G : forall l totalSize,
               incl l ents ->
               walkDir_entries (walkDir depth fs) fs p (dirents l) totalSize
                 = (Ok tt, (totalSize + sum_sizes l)%Z)).
    { induction l as [ | [s c] tl IHl]; intros totalSize Hin.
      - simpl. f_equal. lia.
      - assert (I : In (s, c) ents) by (apply Hin; left; reflexivity).
        assert (Htl : incl tl ents) by (intros x Hx; apply Hin; right; exact Hx).
        simpl dirents. simpl walkDir_entries. simpl sum_sizes.
        destruct c as [m c | r0 e0 | t]; simpl kind_of;
          cbn [isDirectory isFile].
        + unfold statSync.
          change (stat fs (path_join p s))
            with (walk SYMLOOP_MAX fs [] (map Name (path_join p s)) false).
          rewrite (@stat_child fs p rp true ents s (File m c) false
                     St (Hl _ _ I) eq_refl).
          simpl res_bind. cbv iota. simpl snd.
          rewrite IHl by exact Htl. f_equal; simpl; lia.
        + rewrite (IH (path_join p s) (rp ++ [s]) r0 e0 totalSize).
          * rewrite IHl by exact Htl. f_equal; simpl; lia.
          * apply (@stat_child fs p rp true ents s (Dir r0 e0) false
                     St (Hl _ _ I) eq_refl).
          * eapply W. exact I.
          * apply Hd in I. exact I.
        + rewrite IHl by exact Htl. f_equal; simpl; lia. }
    intros totalSize. rewrite G by apply incl_refl. reflexivity.
Qed.

Lemma getDirectorySizeKb_spec p rp r ents :
  wf_node fs = true ->
  stat fs p = Ok (rp, Dir r ents) ->
  getDirectorySizeKb fs p = Math_round_div (content_size (Dir r ents)) 1024.
Proof.
  intros W St. unfold getDirectorySizeKb.
  pose proof (walk_Ok_get _ _ _ _ _ St) as G.
  rewrite (@walkDir_adds _ p rp r ents); auto.
  - eapply get_wf; eassumption.
  - apply get_height in G. lia.
Qed.

(** What holds a manifest is a directory. *)
Lemma exists_below_stat p s :
  existsSync fs (path_join p s) = true ->
  exists rp r ents, stat fs p = Ok (rp, Dir r ents).
Proof.
  unfold existsSync, stat, path_join. rewrite map_app.
  change (map Name [s]) with [Name s].
  destruct (walk SYMLOOP_MAX fs [] (map Name p ++ [Name s]) false) as [r | x]
    eqn:W; [ | simpl; discriminate].
  intros _. revert W. generalize SYMLOOP_MAX (@nil string) (map Name p).
  intros fuel. induction fuel as [ | fuel IH]; intros cur rest;
    rewrite !walk_unfold;
    pose proof (walk1_snoc fs (Name s) false rest cur) as S;
    destruct (walk1 fs cur rest false) as [p0 n0 | cur' r0 | e] eqn:W1.
  1, 4: rewrite S; simpl; apply walk1_Done_get in W1; rewrite W1;
        destruct n0 as [ | r1 e1 | ]; try discriminate; eauto.
  - rewrite S. discriminate.
  - destruct S as [e' ->]. discriminate.
  - rewrite S. apply IH.
  - destruct S as [e' ->]. discriminate.
Qed.

End Size.

(** C7, as stated, fails: the size field is not in bytes.  The entry of
    [/src/real] holds 49 bytes in two regular files, and its size field
    is 0. *)
Lemma sizeKb_is_not_in_bytes :
  exists s skills n,
    fst (detectSkills Sample.yaml ["src"] Sample.world0) = Succeed skills /\
    In s skills /\
    stat Sample.tree (skill_path s) = Ok (["src"; "real"], n) /\
    content_size n = 49%Z /\
    sizeKb s = 0%Z.
Proof.
  eexists. eexists. eexists.
  split; [vm_compute; reflexivity | ].
  split; [left; reflexivity | ].
  split; [vm_compute; reflexivity | ].
  split; vm_compute; reflexivity.
Qed.

(** C7, amended.  The size field of every entry [detectSkills] returns is
    the size of the content of the entry's directory in kilobytes: the sum
    of the sizes in bytes of the regular files in the tree, links not
    followed and directories that cannot be listed passed over, divided by
    1024 and rounded to the nearest integer, halves upwards. *)
Theorem sizeKb_is_rounded_kilobytes :
  forall yaml_parse dir w skills w',
    wf_node (w_fs w) = true ->
    detectSkills yaml_parse dir w = (Succeed skills, w') ->
    Forall (fun s =>
              exists rp r ents,
                stat (w_fs w) (skill_path s) = Ok (rp, Dir r ents) /\
                sizeKb s = ((content_size (Dir r ents) + 512) / 1024)%Z)
           skills.
Proof.
  intros yaml_parse dir w skills w' W H.
  apply detectSkills_Succeed_inv in H. destruct H as (_ & entries & F).
  eapply Forall_impl; [ | exact F]. simpl.
  intros s (_ & E & Hs).
  destruct (exists_below_stat _ _ _ E) as (rp & r & ents & St).
  exists rp, r, ents. split; [exact St | ].
  rewrite Hs, (@getDirectorySizeKb_spec (w_fs w) (skill_path s) rp r ents W St).
  unfold Math_round_div.
  replace (2 * content_size (Dir r ents) + 1024)%Z
    with ((content_size (Dir r ents) + 512) * 2)%Z by lia.
  change (2 * 1024)%Z with (1024 * 2)%Z.
  apply Z.div_mul_cancel_r; lia.
Qed.

Lemma sizeKb_is_rounded_kilobytes_witness :
  Forall (fun s =>
            exists rp r ents,
              stat Sample.tree (skill_path s) = Ok (rp, Dir r ents) /\
              sizeKb s = ((content_size (Dir r ents) + 512) / 1024)%Z)
    (match fst (detectSkills Sample.yaml ["src"] Sample.world0) with
     | Succeed skills => skills
     | Failure _ => []
     end).
Proof.
  apply (sizeKb_is_rounded_kilobytes Sample.yaml ["src"] Sample.world0
           (w' := Sample.world0)).
  - vm_compute. reflexivity.
  - vm_compute. reflexivity.
Defined.

(** ** Removing an entry of the tree *)

Lemma is_prefix_spec : forall p q,
  is_prefix p q = true <-> exists r, q = p ++ r.
Proof.
  induction p as [ | a p IH]; intros q; simpl.
  - split; [intros _; exists q; reflexivity | reflexivity].
  - destruct q as [ | b q].
    + split; [discriminate | intros [r H]; discriminate H].
    + rewrite andb_true_iff, String.eqb_eq, IH. split.
      * intros [-> [r ->]]. exists r. reflexivity.
      * intros [r H]. injection H as -> ->. split; [reflexivity | eauto].
Qed.

Lemma is_prefix_skipn p q :
  is_prefix p q = true -> q = p ++ skipn (List.length p) q.
Proof.
  intros H. apply is_prefix_spec in H. destruct H as [r ->].
  rewrite skipn_app, skipn_all, Nat.sub_diag. reflexivity.
Qed.

Lemma lookup_alter_entry_other a b g : forall ents,
  a <> b -> lookup (alter_entry a g ents) b = lookup ents b.
Proof.
  induction ents as [ | [k c] tl IH]; intros N; simpl.
  - destruct (g None); simpl; [ | reflexivity].
    destruct (String.eqb a b) eqn:E; [ | reflexivity].
    apply String.eqb_eq in E. contradiction.
  - destruct (String.eqb k a) eqn:Ka.
    + apply String.eqb_eq in Ka. subst k.
      assert (E : String.eqb a b = false) by (apply String.eqb_neq; exact N).
      destruct (g (Some c)); simpl; rewrite E; reflexivity.
    + simpl. destruct (String.eqb k b); [reflexivity | apply IH; exact N].
Qed.

Lemma lookup_alter_entry_replace a g c c' : forall ents,
  lookup ents a = Some c -> g (Some c) = Some c' ->
  lookup (alter_entry a g ents) a = Some c'.
Proof.
  induction ents as [ | [k c0] tl IH]; simpl; [discriminate | ].
  destruct (String.eqb k a) eqn:Ka.
  - intros H G. injection H as ->. rewrite G. simpl. rewrite Ka. reflexivity.
  - intros H G. simpl. rewrite Ka. apply IH; assumption.
Qed.

(** Removing a leaf leaves every node that does not hold it as it is. *)
Lemma get_del_other t : forall L root q n,
  get root L = Some (Symlink t) ->
  get root q = Some n ->
  (forall r, L <> q ++ r) ->
  get (del L root) q = Some n.
Proof.
  induction L as [ | a L IH]; intros root q n GL Gq N.
  - simpl in GL. injection GL as ->.
    destruct q as [ | b q]; [exfalso; apply (N []); reflexivity | ].
    discriminate Gq.
  - destruct q as [ | b q]; [exfalso; apply (N (a :: L)); reflexivity | ].
    destruct root as [m c | r ents | t0]; try discriminate GL.
    simpl in GL, Gq. unfold del. simpl alter. simpl get.
    destruct (string_dec a b) as [<- | Nab].
    + destruct (lookup ents a) as [c | ] eqn:La; [ | discriminate GL].
      destruct L as [ | a' L'].
      * simpl in GL. injection GL as ->.
        destruct q as [ | b q]; [ | discriminate Gq].
        exfalso. apply (N []). reflexivity.
      * rewrite (lookup_alter_entry_replace a _ ents La eq_refl).
        apply (IH c q n GL Gq). intros r' E. apply (N r'). simpl. rewrite E.
        reflexivity.
    + rewrite lookup_alter_entry_other by exact Nab. exact Gq.
Qed.

(** Altering below a node alters the node. *)
Lemma get_alter_below f r : forall D root n,
  r <> [] ->
  get root D = Some n ->
  get (alter f (D ++ r) root) D = Some (alter f r n).
Proof.
  induction D as [ | a D IH]; intros root n Nr G.
  - simpl in G. injection G as ->. reflexivity.
  - destruct root as [m c | r0 ents | t0]; try discriminate G.
    simpl in G. destruct (lookup ents a) as [c | ] eqn:La; [ | discriminate G].
    simpl app. simpl alter. simpl get.
    rewrite (lookup_alter_entry_replace a _ ents (c' := alter f (D ++ r) c) La).
    + apply IH; assumption.
    + clear IH. destruct (D ++ r) as [ | x rest] eqn:E; [ | reflexivity].
      apply app_eq_nil in E. destruct E as [_ E]. contradiction.
Qed.

Lemma lookup_not_listed a : forall ents,
  existsb (String.eqb a) (map fst ents) = false -> lookup ents a = None.
Proof.
  induction ents as [ | [k c] tl IH]; simpl; [reflexivity | ].
  intros H. apply orb_false_elim in H. destruct H as [H1 H2].
  rewrite String.eqb_sym, H1. apply IH. exact H2.
Qed.

Lemma lookup_alter_entry_delete a g : forall ents,
  names_unique (map fst ents) = true ->
  (forall o, g o = None) ->
  lookup (alter_entry a g ents) a = None.
Proof.
  induction ents as [ | [k c] tl IH]; simpl; intros U G.
  - rewrite G. reflexivity.
  - apply andb_prop in U. destruct U as [U1 U2].
    destruct (String.eqb k a) eqn:Ka.
    + rewrite G. apply String.eqb_eq in Ka. subst k.
      apply lookup_not_listed. apply negb_true_iff. exact U1.
    + simpl. rewrite Ka. apply IH; assumption.
Qed.

(** What is deleted is no longer there. *)
Lemma get_del_self : forall L root n,
  wf_node root = true -> L <> [] ->
  get root L = Some n -> get (del L root) L = None.
Proof.
  induction L as [ | a L IH]; intros root n W N G; [contradiction | ].
  destruct root as [m c | r ents | t]; try discriminate G.
  simpl in G. destruct (lookup ents a) as [c | ] eqn:La; [ | discriminate G].
  apply wf_node_Dir in W. destruct W as [U W].
  unfold del. simpl alter. simpl get.
  destruct L as [ | a' L'].
  - rewrite lookup_alter_entry_delete; auto.
  - rewrite (lookup_alter_entry_replace a _ ents La eq_refl).
    apply (IH c n); [ | discriminate | exact G].
    eapply W. apply lookup_In. exact La.
Qed.

(** Below a root that is a link nothing resolves. *)
Lemma walk_link_root fuel t c rest b :
  walk fuel (Symlink t) [] (c :: rest) b = Throw ENOTDIR.
Proof. rewrite walk_unfold. destruct c; reflexivity. Qed.

(** A link found at a path that ends with a name is not the root. *)
Lemma lstat_link_not_root fs p s L t :
  lstat fs (path_join p s) = Ok (L, Symlink t) -> L <> [].
Proof.
  intros H E. subst L. pose proof (walk_Ok_get _ _ _ _ _ H) as G.
  simpl in G. injection G as ->. revert H.
  unfold lstat, path_join. rewrite map_app.
  destruct (map Name p ++ map Name [s]) as [ | c rest] eqn:X.
  - destruct p; discriminate X.
  - rewrite walk_link_root. discriminate.
Qed.

(** C10.  With the policy [overwrite] and a symbolic link at the target
    path that is not already the link to the source, the conflict is
    resolved by removing the one directory entry of the link, and the
    conversion goes on from the tree without it.  Every node of which the
    link was not a part is as it was.  The directory the link referred to
    is still there: it is as it was, unless the link was inside it, in which
    case it has lost the link and nothing else.  The link itself is gone:
    in a tree whose directories list a name once, nothing is left at the
    place it had. *)
Theorem overwrite_unlinks_only_the_link :
  forall s targetDir mode w L t,
    let target := path_join targetDir (skill_name s) in
    let w1 := with_fs w (del L (w_fs w)) in
    lstat (w_fs w) target = Ok (L, Symlink t) ->
    mode_is_symlink mode && isSymlinkTo (w_fs w) target (skill_path s)
      = false ->
    resolveConflict s targetDir target overwrite w = (Ok None, w1) /\
    convertSkill_body s targetDir mode overwrite w =
      (ensureDir targetDir ;;;
       executeMode s (skill_path s) target mode) w1 /\
    (forall q n,
       get (w_fs w) q = Some n -> (forall r, L <> q ++ r) ->
       get (w_fs w1) q = Some n) /\
    (forall D r ents,
       stat (w_fs w) target = Ok (D, Dir r ents) ->
       get (w_fs w1) D =
         Some (if is_prefix D L
               then del (skipn (List.length D) L) (Dir r ents)
               else Dir r ents)) /\
    get (w_fs w) L = Some (Symlink t) /\
    (wf_node (w_fs w) = true -> get (w_fs w1) L = None).
Proof.
  intros s td mode w L t target w1 Hl Hno.
  assert (Hr : resolveConflict s td target overwrite w = (Ok None, w1)).
  { unfold resolveConflict, bind, reading, lstatSync. rewrite Hl. simpl.
    unfold unlinkSync. rewrite Hl. reflexivity. }
  pose proof (walk_Ok_get _ _ _ _ _ Hl) as GL.
  split; [exact Hr | ]. split; [ | split; [ | split; [ | split]]].
  - subst target. unfold convertSkill_body. cbv zeta.
    unfold bind at 1. unfold observe at 1.
    unfold targetExists, lstatSync. rewrite Hl. unfold res_bind.
    cbv beta iota.
    unfold bind at 1. unfold observe at 1. cbv beta iota. rewrite Hno.
    unfold bind at 1. rewrite Hr. reflexivity.
  - intros q n Gq N. simpl. eapply get_del_other; eassumption.
  - intros D r ents St. simpl.
    pose proof (walk_Ok_get _ _ _ _ _ St) as GD.
    destruct (is_prefix D L) eqn:P.
    + pose proof (is_prefix_skipn _ _ P) as E.
      assert (Nr : skipn (List.length D) L <> []).
      { intros Z. rewrite Z, app_nil_r in E. subst D.
        rewrite GL in GD. discriminate GD. }
      unfold del. rewrite E at 1. apply get_alter_below; assumption.
    + eapply get_del_other; [exact GL | exact GD | ].
      intros r0 E. assert (X : is_prefix D L = true)
        by (apply is_prefix_spec; eauto).
      rewrite X in P. discriminate P.
  - exact GL.
  - intros W. simpl. eapply get_del_self; [exact W | | exact GL].
    eapply lstat_link_not_root. exact Hl.
Qed.

Lemma overwrite_unlinks_only_the_link_witness :
  resolveConflict Sample.real ["tgt"] ["tgt"; "real"] overwrite
    Sample.world_linked
    = (Ok None,
       with_fs Sample.world_linked (del ["tgt"; "real"] Sample.tree_linked)) /\
  get (del ["tgt"; "real"] Sample.tree_linked) ["src"; "real"] =
    Some (Dir true
            [("SKILL.md", File 420 Sample.skill_md);
             ("run.sh", File 493 "#!/bin/sh")]) /\
  get Sample.tree_linked ["tgt"; "real"]
    = Some (Symlink (LRel 1 ["src"; "real"])) /\
  get (del ["tgt"; "real"] Sample.tree_linked) ["tgt"; "real"] = None.
Proof.
  pose proof (@overwrite_unlinks_only_the_link Sample.real ["tgt"] copy
                Sample.world_linked ["tgt"; "real"] (LRel 1 ["src"; "real"])
                eq_refl eq_refl) as (H1 & _ & _ & H4 & H5 & H6).
  split; [exact H1 | ].
  split; [exact (H4 ["src"; "real"] true _ eq_refl) | ].
  split; [exact H5 | exact (H6 eq_refl)].
Defined.

(** ** Linking twice *)

(** C2 on an entry that is a directory: the second conversion finds the
    link of the first and reports "Already linked". *)
Example link_twice_directory :
  let first := convertSkill Sample.real ["tgt"] symlink skip Sample.world0 in
  let second := convertSkill Sample.real ["tgt"] symlink skip (snd first) in
  fst first =
    Succeed (mkResult Sample.real true symlinked ["tgt"; "real"] None) /\
  fst second =
    Succeed (mkResult Sample.real true skipped ["tgt"; "real"]
               (Some "Already linked")) /\
  realpathSync (w_fs (snd first)) ["tgt"; "real"] = Ok ["src"; "real"] /\
  realpathSync (w_fs (snd second)) ["tgt"; "real"] = Ok ["src"; "real"].
Proof. vm_compute. repeat split; reflexivity. Qed.

(** C2 on an entry that is itself a link, as [detectSkills] returns it for
    [/src/alias]: the first conversion links the target to the directory
    the entry's link resolves to, and the second compares the target's
    link with the unresolved path of the entry, finds them different and
    reports "Already exists". *)
Lemma link_twice_through_a_link :
  exists s skills,
    fst (detectSkills Sample.yaml ["src"] Sample.world0) = Succeed skills /\
    In s skills /\
    skill_path s = ["src"; "alias"] /\ isSymlink s = true /\
    existsSync Sample.tree (path_join (skill_path s) manifest) = true /\
    readdirSync Sample.tree ["tgt"] = Ok [] /\
    let first := convertSkill s ["tgt"] symlink skip Sample.world0 in
    let second := convertSkill s ["tgt"] symlink skip (snd first) in
    fst first = Succeed (mkResult s true symlinked ["tgt"; "alias"] None) /\
    readlinkSync (w_fs (snd first)) ["tgt"; "alias"]
      = Ok (LRel 1 ["src"; "real"]) /\
    isSymlinkTo (w_fs (snd first)) ["tgt"; "alias"] (skill_path s) = false /\
    fst second =
      Succeed (mkResult s true skipped ["tgt"; "alias"]
                 (Some "Already exists")).
Proof.
  eexists. eexists.
  split; [vm_compute; reflexivity | ].
  split; [right; left; reflexivity | ].
  vm_compute. repeat split; reflexivity.
Qed.

(** ** A new entry in the tree *)

Lemma walk_snoc_Throw fuel root c b e : forall cur rest p n,
  walk fuel root cur rest false = Ok (p, n) ->
  walk1 root p [c] b = Stuck e ->
  walk fuel root cur (rest ++ [c]) b = Throw e.
Proof.
  induction fuel as [ | fuel IH]; intros cur rest p n;
    rewrite !walk_unfold; pose proof (walk1_snoc root c b rest cur) as S;
    destruct (walk1 root cur rest false) as [p0 n0 | cur' r0 | e0];
    try discriminate.
  - intros H D. injection H as <- <-. rewrite S, D. reflexivity.
  - intros H D. injection H as <- <-. rewrite S, D. reflexivity.
  - intros H D. rewrite S. eapply IH; eassumption.
Qed.

(** A name a directory does not list does not resolve. *)
Lemma stat_no_child fs p rp r ents s b :
  stat fs p = Ok (rp, Dir r ents) ->
  lookup ents s = None ->
  walk SYMLOOP_MAX fs [] (map Name (path_join p s)) b = Throw ENOENT.
Proof.
  unfold stat, path_join. intros W L. rewrite map_app.
  change (map Name [s]) with [Name s].
  eapply walk_snoc_Throw; [exact W | ].
  apply walk_Ok_get in W. simpl. rewrite W, L. reflexivity.
Qed.

(** Putting a node where there was none changes the skeleton of no node
    that was there. *)
Lemma get_put_fresh c : forall L root q n,
  get root L = None ->
  get root q = Some n ->
  exists n', get (put L c root) q = Some n' /\ skel n' = skel n.
Proof.
  induction L as [ | a L IH]; intros root q n GL Gq; [discriminate GL | ].
  destruct root as [m c0 | r ents | t];
    try (exists n; split; [exact Gq | reflexivity]).
  destruct q as [ | b q].
  - simpl in Gq. injection Gq as <-. eexists. split; reflexivity.
  - simpl in GL, Gq. unfold put. simpl alter. simpl get.
    destruct (string_dec a b) as [<- | Nab].
    + destruct (lookup ents a) as [c0 | ] eqn:La; [ | discriminate Gq].
      destruct L as [ | a' L']; [discriminate GL | ].
      rewrite (lookup_alter_entry_replace a _ ents La eq_refl).
      apply IH; assumption.
    + rewrite lookup_alter_entry_other by exact Nab. eauto.
Qed.

Lemma lookup_alter_entry_insert a c : forall ents,
  lookup ents a = None ->
  lookup (alter_entry a (fun _ => Some c) ents) a = Some c.
Proof.
  induction ents as [ | [k c0] tl IH]; simpl.
  - intros _. rewrite String.eqb_refl. reflexivity.
  - destruct (String.eqb k a) eqn:Ka; [discriminate | ].
    intros H. simpl. rewrite Ka. apply IH. exact H.
Qed.

Lemma get_put_new c s : forall D root r ents,
  get root D = Some (Dir r ents) ->
  lookup ents s = None ->
  get (put (D ++ [s]) c root) (D ++ [s]) = Some c.
Proof.
  induction D as [ | a D IH]; intros root r ents G L.
  - simpl in G. injection G as ->. unfold put. simpl.
    rewrite lookup_alter_entry_insert by exact L. reflexivity.
  - destruct root as [m c0 | r0 e0 | t0]; try discriminate G.
    simpl in G. destruct (lookup e0 a) as [c0 | ] eqn:La; [ | discriminate G].
    unfold put. simpl app. simpl alter. simpl get.
    rewrite (lookup_alter_entry_replace a _ e0
               (c' := alter (fun _ => Some c) (D ++ [s]) c0) La).
    + eapply IH; eassumption.
    + destruct (D ++ [s]) eqn:E; [ | reflexivity].
      apply app_eq_nil in E. destruct E as [_ E]. discriminate E.
Qed.

Section Extension.

(** Two trees, the second with the skeleton of every node of the first. *)
Variables fs fs1 : node.
Hypothesis extends : forall q n,
  get fs q = Some n -> exists n', get fs1 q = Some n' /\ skel n' = skel n.

Lemma extends_Dir q r ents :
  get fs q = Some (Dir r ents) ->
  exists r' ents', get fs1 q = Some (Dir r' ents').
Proof.
  intros G. destruct (extends _ G) as (n' & G' & S).
  destruct n'; try discriminate S. eauto.
Qed.

Lemma extends_child q r ents s c :
  get fs q = Some (Dir r ents) -> lookup ents s = Some c ->
  exists r' ents' c',
    get fs1 q = Some (Dir r' ents') /\ lookup ents' s = Some c' /\
    skel c' = skel c /\ get fs1 (q ++ [s]) = Some c'.
Proof.
  intros G L. destruct (extends_Dir _ G) as (r' & ents' & G').
  assert (Gc : get fs (q ++ [s]) = Some c)
    by (rewrite get_snoc, G; exact L).
  destruct (extends _ Gc) as (c' & Gc' & S).
  exists r', ents', c'. repeat split; auto.
  rewrite get_snoc, G' in Gc'. exact Gc'.
Qed.

(** A step that does not get stuck is the same step in the larger tree. *)
Lemma walk1_extends b : forall rest cur,
  match walk1 fs cur rest b with
  | Done p n =>
      exists n', walk1 fs1 cur rest b = Done p n' /\ skel n' = skel n
  | Redirect cur' rest' => walk1 fs1 cur rest b = Redirect cur' rest'
  | Stuck _ => True
  end.
Proof.
  induction rest as [ | x rest IH]; intros cur.
  - simpl. destruct (get fs cur) as [n | ] eqn:G; [ | exact I].
    destruct (extends _ G) as (n' & -> & S). eauto.
  - destruct x as [ | s]; simpl.
    + destruct (get fs cur) as [[ | r ents | t] | ] eqn:G; try exact I.
      destruct (extends_Dir _ G) as (r' & ents' & ->). apply IH.
    + destruct (get fs cur) as [[ | r ents | t] | ] eqn:G; try exact I.
      destruct (lookup ents s) as [c | ] eqn:L; [ | exact I].
      destruct (extends_child _ s G L) as (r' & ents' & c' & -> & -> & S & Gc).
      destruct c as [m c0 | r0 e0 | t]; destruct c' as [m' c0' | r0' e0' | t'];
        try discriminate S; try apply IH.
      injection S as ->.
      destruct (b && _); [eauto | ].
      destruct (link_is_empty t); [exact I | reflexivity].
Qed.

Lemma walk_extends fuel b p n : forall cur rest,
  walk fuel fs cur rest b = Ok (p, n) ->
  exists n', walk fuel fs1 cur rest b = Ok (p, n') /\ skel n' = skel n.
Proof.
  induction fuel as [ | fuel IH]; intros cur rest;
    rewrite !walk_unfold; pose proof (walk1_extends b rest cur) as E;
    destruct (walk1 fs cur rest b) as [p0 n0 | cur' rest' | e];
    try discriminate.
  - intros H. injection H as <- <-. destruct E as (n' & -> & S). eauto.
  - intros H. injection H as <- <-. destruct E as (n' & -> & S). eauto.
  - rewrite E. apply IH.
Qed.

End Extension.

(** ** Lexical paths *)

Lemma strip_common_spec : forall from to f t,
  strip_common from to = (f, t) ->
  exists common, from = common ++ f /\ to = common ++ t.
Proof.
  induction from as [ | a from IH]; intros to f t; simpl.
  - intros H. injection H as <- <-. exists []. split; reflexivity.
  - destruct to as [ | b to].
    + intros H. injection H as <- <-. exists []. split; reflexivity.
    + destruct (String.eqb a b) eqn:E.
      * apply String.eqb_eq in E. subst b. intros H.
        destruct (IH _ _ _ H) as (common & -> & ->).
        exists (a :: common). split; reflexivity.
      * intros H. injection H as <- <-. exists []. split; reflexivity.
Qed.

(** [path.resolve(from, path.relative(from, to))] is [to]. *)
Lemma resolve_relative from to :
  path_resolve from (path_relative from to) = to.
Proof.
  unfold path_relative. destruct (strip_common from to) as [f t] eqn:E.
  apply strip_common_spec in E. destruct E as (common & -> & ->). simpl.
  rewrite length_app, Nat.add_sub, firstn_app, firstn_all, Nat.sub_diag.
  simpl. rewrite app_nil_r. reflexivity.
Qed.

(** The relative path is empty between a directory and itself only. *)
Lemma relative_not_empty from to :
  to <> from -> link_is_empty (path_relative from to) = false.
Proof.
  unfold path_relative. destruct (strip_common from to) as [f t] eqn:E.
  apply strip_common_spec in E. destruct E as (common & -> & ->).
  intros N. destruct f; destruct t; try reflexivity.
  exfalso. apply N. reflexivity.
Qed.

Lemma path_eqb_refl p : path_eqb p p = true.
Proof.
  unfold path_eqb. destruct (list_eq_dec string_dec p p); [reflexivity | ].
  contradiction.
Qed.

Lemma dirname_join p s : path_dirname (path_join p s) = p.
Proof. unfold path_dirname, path_join. apply removelast_last. Qed.

Lemma slot_join fs p s :
  slot fs (path_join p s) =
  match stat fs p with
  | Ok (rp, Dir _ ents) => Ok (rp ++ [s], lookup ents s)
  | Ok _ => Throw ENOTDIR
  | Throw e => Throw e
  end.
Proof.
  unfold slot, path_join. destruct (p ++ [s]) as [ | a l] eqn:E.
  - apply app_eq_nil in E. destruct E as [_ E]. discriminate E.
  - rewrite <- E, removelast_last, last_last. reflexivity.
Qed.

Section LinkTwice.

Variable s : DetectedSkill.
Variable targetDir : path.
Variable cr : ConflictResolution.
Variable w : world.

Let target : path := path_join targetDir (skill_name s).
Let text : linktext := path_relative targetDir (skill_path s).

(** The entry is not a link; the target root is a directory that has
    nothing under the name of the entry, and is not the entry itself. *)
Variables (q rtd : path) (n : node) (r : bool) (ents : list (string * node)).
Hypothesis source_there : lstat (w_fs w) (skill_path s) = Ok (q, n).
Hypothesis source_no_link : st_isSymbolicLink n = false.
Hypothesis root_there : stat (w_fs w) targetDir = Ok (rtd, Dir r ents).
Hypothesis target_free : lookup ents (skill_name s) = None.
Hypothesis not_itself : skill_path s <> targetDir.

Let w1 : world :=
  with_fs w (put (rtd ++ [skill_name s]) (Symlink text) (w_fs w)).

Lemma first_link :
  convertSkill s targetDir symlink cr w =
  (Succeed (mkResult s true symlinked target None), w1).
Proof.
  unfold convertSkill, Effect_try, convertSkill_body. cbv zeta.
  fold target.
  assert (T : targetExists (w_fs w) target = false).
  { unfold targetExists, lstatSync, lstat, target.
    rewrite (@stat_no_child (w_fs w) targetDir rtd r ents (skill_name s) true
               root_there target_free).
    reflexivity. }
  unfold bind at 1. unfold observe at 1. rewrite T.
  assert (E : ensureDir targetDir w = (Ok tt, w)).
  { unfold ensureDir, bind, observe, existsSync. rewrite root_there.
    reflexivity. }
  unfold bind at 1. rewrite E.
  unfold executeMode, bind, reading, lstatSync. rewrite source_there.
  simpl res_bind. cbv beta iota. rewrite source_no_link. unfold ret at 1.
  unfold createRelativeSymlink, symlinkSync, target.
  rewrite !dirname_join, (relative_not_empty not_itself).
  rewrite slot_join, root_there, target_free.
  reflexivity.
Qed.

Lemma lstat_after_link :
  lstat (w_fs w1) target = Ok (rtd ++ [skill_name s], Symlink text).
Proof.
  pose proof (walk_Ok_get _ _ _ _ _ root_there) as G.
  assert (Fresh : get (w_fs w) (rtd ++ [skill_name s]) = None)
    by (rewrite get_snoc, G; exact target_free).
  destruct (@walk_extends (w_fs w) (w_fs w1)
              (fun q0 n0 =>
                 @get_put_fresh (Symlink text) _ (w_fs w) q0 n0 Fresh)
              SYMLOOP_MAX false rtd (Dir r ents) [] (map Name targetDir)
              root_there) as (n' & W' & _).
  pose proof (@get_put_new (Symlink text) (skill_name s) rtd (w_fs w) r ents
                G target_free) as New.
  change (put (rtd ++ [skill_name s]) (Symlink text) (w_fs w))
    with (w_fs w1) in New.
  remember (w_fs w1) as fs1 eqn:Efs1. clear Efs1.
  unfold lstat, target, path_join. rewrite map_app.
  change (map Name [skill_name s]) with [Name (skill_name s)].
  eapply walk_snoc_Ok; [exact W' | ].
  rewrite get_snoc in New. simpl.
  destruct (get fs1 rtd) as [[ | r' ents' | ] | ]; try discriminate New.
  simpl in New. rewrite New. reflexivity.
Qed.

Lemma second_link :
  convertSkill s targetDir symlink cr w1 =
  (Succeed (mkResult s true skipped target (Some "Already linked")), w1).
Proof.
  unfold convertSkill, Effect_try, convertSkill_body. cbv zeta.
  fold target.
  assert (T : targetExists (w_fs w1) target = true).
  { unfold targetExists, lstatSync. rewrite lstat_after_link. reflexivity. }
  assert (L : isSymlinkTo (w_fs w1) target (skill_path s) = true).
  { unfold isSymlinkTo, lstatSync, readlinkSync. rewrite lstat_after_link.
    simpl. unfold target. rewrite dirname_join. unfold text.
    rewrite resolve_relative, path_eqb_refl. reflexivity. }
  unfold bind at 1. unfold observe at 1. rewrite T.
  unfold bind at 1. unfold observe at 1. cbv beta iota. rewrite L.
  reflexivity.
Qed.

End LinkTwice.

(** C2 for an entry that is not itself a link: with nothing at the target
    path, in a target root that is a directory, linking twice reports
    [symlinked] and then [skipped] with "Already linked", and the second
    conversion changes nothing, the resolved path of the target included. *)
Theorem link_twice_plain_entry :
  forall s targetDir cr w q n rtd r ents,
    lstat (w_fs w) (skill_path s) = Ok (q, n) ->
    st_isSymbolicLink n = false ->
    stat (w_fs w) targetDir = Ok (rtd, Dir r ents) ->
    lookup ents (skill_name s) = None ->
    skill_path s <> targetDir ->
    let target := path_join targetDir (skill_name s) in
    let first := convertSkill s targetDir symlink cr w in
    let second := convertSkill s targetDir symlink cr (snd first) in
    fst first = Succeed (mkResult s true symlinked target None) /\
    fst second =
      Succeed (mkResult s true skipped target (Some "Already linked")) /\
    snd second = snd first /\
    realpathSync (w_fs (snd second)) target
      = realpathSync (w_fs (snd first)) target.
Proof.
  intros s td cr w q n rtd r ents Hs Hn Hr Hf Hne target first second.
  subst first second.
  rewrite (@first_link s td cr w q rtd n r ents Hs Hn Hr Hf Hne).
  simpl snd. simpl fst.
  rewrite (@second_link s td cr w rtd r ents Hr Hf).
  simpl. auto.
Qed.

Lemma link_twice_plain_entry_witness :
  fst (convertSkill Sample.real ["tgt"] symlink skip Sample.world0) =
    Succeed (mkResult Sample.real true symlinked ["tgt"; "real"] None) /\
  fst (convertSkill Sample.real ["tgt"] symlink skip
         (snd (convertSkill Sample.real ["tgt"] symlink skip Sample.world0))) =
    Succeed (mkResult Sample.real true skipped ["tgt"; "real"]
               (Some "Already linked")).
Proof.
  pose proof (@link_twice_plain_entry Sample.real ["tgt"] skip Sample.world0
                ["src"; "real"] _ ["tgt"] true []
                eq_refl eq_refl eq_refl eq_refl
                ltac:(discriminate)) as (H1 & H2 & _).
  split; [exact H1 | exact H2].
Defined.

(** ** The tests of the repository, on the model *)

Example countReferences_wiki :
  countReferences "See [[link1]] and [[link2]] for more info" = 2.
Proof. reflexivity. Qed.

Example countReferences_markdown :
  countReferences
    "Check [Google](https://google.com) and [GitHub](https://github.com)" = 2.
Proof. reflexivity. Qed.

Example countReferences_both :
  countReferences "See [[internal]] and [external](https://example.com)" = 2.
Proof. reflexivity. Qed.

Example countReferences_none :
  countReferences "No links here at all" = 0.
Proof. reflexivity. Qed.

Example frontmatter_match_block :
  frontmatter_match
    (Sample.lines ["---"; "name: Tool Skill"; "allowed-tools: Bash"; "---"])
  = Some (Sample.lines ["name: Tool Skill"; "allowed-tools: Bash"]).
Proof. reflexivity. Qed.

Example frontmatter_match_unclosed :
  frontmatter_match (Sample.lines ["---"; "---"]) = None.
Proof. reflexivity. Qed.

(** "copies skill directory to target". *)
Example copy_to_empty_target :
  let run := convertSkill Sample.real ["tgt"] copy skip Sample.world0 in
  fst run = Succeed (mkResult Sample.real true copied ["tgt"; "real"] None) /\
  get (w_fs (snd run)) ["tgt"; "real"] = get Sample.tree ["src"; "real"].
Proof. vm_compute. split; reflexivity. Qed.

(** "moves skill directory to target". *)
Example move_to_empty_target :
  let run := convertSkill Sample.real ["tgt"] move skip Sample.world0 in
  fst run = Succeed (mkResult Sample.real true moved ["tgt"; "real"] None) /\
  existsSync (w_fs (snd run)) ["src"; "real"] = false /\
  get (w_fs (snd run)) ["tgt"; "real"] = get Sample.tree ["src"; "real"].
Proof. vm_compute. repeat split; reflexivity. Qed.

(** "skips existing skill with skip resolution". *)
Example skip_existing_target :
  let run := convertSkill Sample.real ["tgt"] copy skip Sample.world_linked in
  run = (Succeed (mkResult Sample.real true skipped ["tgt"; "real"]
                    (Some "Already exists")),
         Sample.world_linked).
Proof. vm_compute. reflexivity. Qed.

(** "overwrites existing skill with overwrite resolution". *)
Example overwrite_existing_target :
  let run :=
    convertSkill Sample.real ["tgt"] copy overwrite Sample.world_linked in
  fst run = Succeed (mkResult Sample.real true copied ["tgt"; "real"] None) /\
  get (w_fs (snd run)) ["tgt"; "real"] = get Sample.tree ["src"; "real"].
Proof. vm_compute. split; reflexivity. Qed.

(** "handles missing source gracefully in convertSkills", with an entry
    before and an entry after the missing one. *)
Example partial_failure_isolation :
  let sub1 := Sample.entry "group-sub1" ["src"; "group"; "sub1"] None in
  map (fun r => (skill_name (skill r), success r, action r))
    (fst (results_in_order [Sample.real; Sample.ghost; sub1] ["tgt"]
            copy skip Sample.world0))
  = [("real", true, copied); ("ghost", false, skipped);
     ("group-sub1", true, copied)].
Proof. vm_compute. reflexivity. Qed.

(* ================================================================== *)
(** * More properties *)

(** ** Strings *)

Lemma length_append a b :
  String.length (String.append a b) = String.length a + String.length b.
Proof.
  induction a as [ | c a IH]; simpl; [reflexivity | rewrite IH; reflexivity].
Qed.

Lemma prefix_append a b : String.prefix a (String.append a b) = true.
Proof.
  induction a as [ | c a IH]; simpl; [destruct b; reflexivity | ].
  destruct (Ascii.ascii_dec c c); [exact IH | contradiction].
Qed.

Lemma append_nil_r a : String.append a "" = a.
Proof. induction a as [ | c a IH]; simpl; [ | rewrite IH]; reflexivity. Qed.

(** [parts.join(sep)] begins with the first part, and is as long as the
    parts and the separators between them. *)
Lemma concat_prefix sep first rest :
  String.prefix first (String.concat sep (first :: rest)) = true.
Proof.
  destruct rest as [ | x rest].
  - simpl. rewrite <- (append_nil_r first) at 2. apply prefix_append.
  - apply prefix_append.
Qed.

Lemma concat_length sep : forall rest first,
  String.length (String.concat sep (first :: rest)) =
  String.length first +
  fold_right (fun x n => String.length sep + String.length x + n) 0 rest.
Proof.
  induction rest as [ | x rest IH]; intros first.
  - simpl. lia.
  - change (String.concat sep (first :: x :: rest))
      with (String.append first
              (String.append sep (String.concat sep (x :: rest)))).
    rewrite !length_append, IH. simpl. lia.
Qed.

(** ** The display of an entry *)

(** [formatSkillDisplay] always begins with the size and [KB]; it is the
    size and [KB] alone exactly when the entry has none of the six
    features. *)
Theorem formatSkillDisplay_size_first :
  forall skill,
    let size := String.append (show_Z (sizeKb skill)) "KB" in
    String.prefix size (formatSkillDisplay skill) = true /\
    (formatSkillDisplay skill = size <->
     hasReferences skill = false /\ hasTemplates skill = false /\
     hasRules skill = false /\ hasScripts skill = false /\
     hasAgentsMd skill = false /\ isSymlink skill = false).
Proof.
  intros skill size. unfold formatSkillDisplay.
  change ([String.append (show_Z (sizeKb skill)) "KB"] ++ ?l)
    with (size :: l).
  split; [apply concat_prefix | ]. split.
  - intros E. apply (f_equal String.length) in E.
    rewrite concat_length in E.
    destruct (hasReferences skill), (hasTemplates skill), (hasRules skill),
      (hasScripts skill), (hasAgentsMd skill), (isSymlink skill);
      simpl in E; try lia; auto 10.
  - intros (-> & -> & -> & -> & -> & ->). reflexivity.
Qed.

(** ** Whether a directory exists *)

Lemma directoryExists_spec fs dir :
  directoryExists fs dir = true <->
  exists rp r ents, stat fs dir = Ok (rp, Dir r ents).
Proof.
  unfold directoryExists, existsSync, statSync.
  destruct (stat fs dir) as [[rp [m c | r ents | t]] | x]; simpl; split;
    try discriminate; eauto; intros (rp' & r' & ents' & H); discriminate H.
Qed.

(** [directoryExists] is [true] exactly for a path that resolves to a
    directory.  On such a root [detectSkills] yields a sequence or fails
    with the permission error of a directory that cannot be listed, and
    with nothing else; on any other root it yields no entry. *)
Theorem directoryExists_guards_detectSkills :
  forall yaml_parse dir w,
    (directoryExists (w_fs w) dir = true <->
     exists rp r ents, stat (w_fs w) dir = Ok (rp, Dir r ents)) /\
    (directoryExists (w_fs w) dir = true ->
     (exists skills, fst (detectSkills yaml_parse dir w) = Succeed skills) \/
     fst (detectSkills yaml_parse dir w) =
       Failure (mkError (String.append "Failed to detect skills: "
                           (show_exn EACCES)))) /\
    (directoryExists (w_fs w) dir = false ->
     forall skills,
       fst (detectSkills yaml_parse dir w) = Succeed skills -> skills = []).
Proof.
  intros yaml_parse dir w. split; [apply directoryExists_spec | ].
  rewrite detectSkills_run. simpl fst. split.
  - intros D. apply directoryExists_spec in D.
    destruct D as (rp & r & ents & St).
    unfold existsSync, readdirSync. rewrite St. simpl.
    destruct r; [ | right; reflexivity].
    destruct (detect_loop_adds yaml_parse (w_fs w) dir (dirents ents))
      as (added & E & _).
    rewrite E. left. eauto.
  - intros D skills.
    unfold directoryExists, existsSync, readdirSync, statSync in *.
    destruct (stat (w_fs w) dir) as [[rp [m c | r ents | t]] | x];
      simpl in *; try discriminate;
      intros H; injection H as <-; reflexivity.
Qed.

Lemma directoryExists_guards_detectSkills_witness :
  (exists skills,
     fst (detectSkills Sample.yaml ["src"] Sample.world0) = Succeed skills) \/
  fst (detectSkills Sample.yaml ["src"] Sample.world0) =
    Failure (mkError (String.append "Failed to detect skills: "
                        (show_exn EACCES))).
Proof.
  apply (proj1 (proj2 (directoryExists_guards_detectSkills
                         Sample.yaml ["src"] Sample.world0))).
  vm_compute. reflexivity.
Defined.

(** ** The report of a run *)

Section ReportProperties.

Variables pc_yellow pc_green pc_red pc_dim pc_bold : string -> string.

Lemma display_loop_counts : forall results c,
  let '(lines, c') := display_loop pc_yellow pc_green pc_red pc_dim results c in
  List.length lines = List.length results /\
  successCount c' =
    successCount c +
    List.length (filter (fun r => success r && negb (is_skipped (action r)))
                   results) /\
  skipCount c' =
    skipCount c +
    List.length (filter (fun r => success r && is_skipped (action r))
                   results) /\
  errorCount c' =
    errorCount c +
    List.length (filter (fun r => negb (success r)) results).
Proof.
  induction results as [ | r tl IH]; intros c.
  - simpl. lia.
  - simpl display_loop.
    destruct (display_result pc_yellow pc_green pc_red pc_dim r c)
      as [line c1] eqn:E.
    specialize (IH c1).
    destruct (display_loop pc_yellow pc_green pc_red pc_dim tl c1)
      as [lines c2].
    unfold display_result in E.
    destruct (success r) eqn:S; simpl filter; rewrite ?S; simpl.
    + destruct (action r); injection E as _ <-; simpl in *; lia.
    + injection E as _ <-. simpl in *. lia.
Qed.

Lemma filter_three A (f g h : A -> bool) (l : list A) :
  (forall x, In x l ->
     (f x = true /\ g x = false /\ h x = false) \/
     (f x = false /\ g x = true /\ h x = false) \/
     (f x = false /\ g x = false /\ h x = true)) ->
  List.length (filter f l) + List.length (filter g l)
    + List.length (filter h l) = List.length l.
Proof.
  induction l as [ | x l IH]; intros H; [reflexivity | ].
  simpl. specialize (IH (fun y I => H y (or_intror I))).
  destruct (H x (or_introl eq_refl))
    as [(-> & -> & ->) | [(-> & -> & ->) | (-> & -> & ->)]]; simpl; lia.
Qed.

Lemma display_loop_from_zero results :
  let c := snd (display_loop pc_yellow pc_green pc_red pc_dim results
                  (mkCounts 0 0 0)) in
  List.length (fst (display_loop pc_yellow pc_green pc_red pc_dim results
                      (mkCounts 0 0 0))) = List.length results /\
  successCount c =
    List.length
      (filter (fun r => success r && negb (is_skipped (action r)))
         results) /\
  skipCount c =
    List.length
      (filter (fun r => success r && is_skipped (action r)) results) /\
  errorCount c =
    List.length (filter (fun r => negb (success r)) results) /\
  successCount c + skipCount c + errorCount c = List.length results.
Proof.
  intros c. subst c.
  pose proof (display_loop_counts results (mkCounts 0 0 0)) as H.
  destruct (display_loop pc_yellow pc_green pc_red pc_dim results
              (mkCounts 0 0 0)) as [lines c].
  simpl in *. destruct H as (Hl & Hs & Hk & He).
  repeat split; auto.
  rewrite Hs, Hk, He. apply filter_three. intros r _.
  destruct (success r), (is_skipped (action r)); simpl; auto.
Qed.

Lemma summary_parts_none c :
  Nat.ltb 0 (List.length (summary_parts pc_yellow pc_green pc_red c)) =
  Nat.ltb 0 (successCount c + skipCount c + errorCount c).
Proof.
  unfold summary_parts, push_if. rewrite !length_app.
  destruct (successCount c), (skipCount c), (errorCount c); reflexivity.
Qed.

(** [displayResults] counts every result once: as converted when it
    succeeded with an action other than [skipped], as skipped when it
    succeeded with [skipped], as failed otherwise.  It logs one line for
    each result, an empty line, and the summary line unless there is no
    result. *)
Theorem displayResults_counts_each_result_once :
  forall results,
    let c := snd (display_loop pc_yellow pc_green pc_red pc_dim results
                    (mkCounts 0 0 0)) in
    successCount c + skipCount c + errorCount c = List.length results /\
    successCount c =
      List.length
        (filter (fun r => success r && negb (is_skipped (action r)))
           results) /\
    skipCount c =
      List.length
        (filter (fun r => success r && is_skipped (action r)) results) /\
    errorCount c =
      List.length (filter (fun r => negb (success r)) results) /\
    List.length
      (displayResults pc_yellow pc_green pc_red pc_dim pc_bold results) =
      List.length results + 1 +
      match results with [] => 0 | _ :: _ => 1 end.
Proof.
  intros results c. subst c.
  destruct (display_loop_from_zero results) as (Hl & Hs & Hk & He & T).
  repeat split; auto.
  unfold displayResults.
  destruct (display_loop pc_yellow pc_green pc_red pc_dim results
              (mkCounts 0 0 0)) as [lines c].
  simpl in Hl, T. rewrite summary_parts_none, T, !length_app, Hl.
  destruct results; simpl; lia.
Qed.

(** The report of a batch accounts for every entry: the three counters add
    up to the number of entries converted; [converted] counts the results
    whose action is not [skipped], and an entry whose conversion failed is
    counted as failed, never as skipped; the report has one line for each
    entry, an empty line, and the summary unless there was no entry. *)
Theorem report_accounts_for_the_batch :
  forall skills targetDir mode cr w,
  exists results w',
    convertSkills skills targetDir mode cr w = (Succeed results, w') /\
    let c := snd (display_loop pc_yellow pc_green pc_red pc_dim results
                    (mkCounts 0 0 0)) in
    successCount c + skipCount c + errorCount c = List.length skills /\
    successCount c =
      List.length
        (filter (fun r => negb (is_skipped (action r))) results) /\
    errorCount c =
      List.length
        (filter (fun s => negb (success s)) results) /\
    skipCount c + errorCount c =
      List.length (filter (fun r => is_skipped (action r)) results) /\
    List.length
      (displayResults pc_yellow pc_green pc_red pc_dim pc_bold results) =
      List.length skills + 1 +
      match skills with [] => 0 | _ :: _ => 1 end.
Proof.
  intros skills td mode cr w.
  exists (fst (results_in_order skills td mode cr w)),
         (snd (results_in_order skills td mode cr w)).
  split; [apply convertSkills_results_in_order | ].
  destruct (results_in_order_fields skills td mode cr w) as [Hm Hf].
  remember (fst (results_in_order skills td mode cr w)) as results eqn:R.
  clear R. intros c. subst c.
  destruct (display_loop_from_zero results) as (Hn & Hs & Hk & He & Ht).
  assert (Hl : List.length
                 (displayResults pc_yellow pc_green pc_red pc_dim pc_bold
                    results)
               = List.length results + 1 +
                 match results with [] => 0 | _ :: _ => 1 end).
  { unfold displayResults.
    destruct (display_loop pc_yellow pc_green pc_red pc_dim results
                (mkCounts 0 0 0)) as [lines c].
    simpl in Hn, Ht. rewrite summary_parts_none, Ht, !length_app, Hn.
    destruct results; simpl; lia. }
  assert (Len : List.length results = List.length skills)
    by (rewrite <- Hm; symmetry; apply length_map).
  assert (F1 : filter (fun r => success r && negb (is_skipped (action r)))
                 results
               = filter (fun r => negb (is_skipped (action r))) results).
  { apply filter_ext_in. intros r Hr.
    rewrite Forall_forall in Hf. destruct (Hf r Hr) as (_ & _ & H).
    destruct (success r); [reflexivity | ].
    destruct (H eq_refl) as [-> _]. reflexivity. }
  assert (F2 : List.length (filter (fun r => is_skipped (action r)) results)
               + List.length
                   (filter (fun r => negb (is_skipped (action r))) results)
               = List.length results).
  { clear. induction results as [ | r tl IH]; [reflexivity | ].
    simpl. destruct (is_skipped (action r)); simpl; lia. }
  apply (f_equal (@List.length _)) in F1.
  repeat split; try assumption; try lia.
  rewrite Hl, Len. destruct skills, results; try discriminate Len; reflexivity.
Qed.

End ReportProperties.

(** ** The command line *)

Lemma parse_loop_app_bounded : forall n a b o,
  List.length a <= n ->
  dangling a = false ->
  parse_loop (a ++ b) o = parse_loop b (parse_loop a o).
Proof.
  induction n as [ | n IH]; intros a b o Hn D.
  - destruct a; [reflexivity | simpl in Hn; lia].
  - destruct a as [ | arg rest]; [reflexivity | ].
    simpl in *. destruct (value_option arg) as [set | ].
    + destruct rest as [ | v rest']; [discriminate D | ].
      simpl. apply IH; [simpl in Hn; lia | exact D].
    + apply IH; [lia | exact D].
Qed.

(** [parseArgs] skips the first two words of [process.argv] and reads the
    others from left to right: the arguments [a] followed by the arguments
    [b] are read as [b] after [a], unless [a] ends with a value option that
    lacks its value.  So the last direction flag is the direction, and a
    value option at the very end makes its field undefined, whatever an
    earlier occurrence had set. *)
Theorem parseArgs_left_to_right :
  forall node script a b,
    dangling a = false ->
    let argv := fun args => node :: script :: args in
    parseArgs (argv (a ++ b)) = parse_loop b (parseArgs (argv a)) /\
    opt_direction (parseArgs (argv (a ++ ["--sync"]))) = Some sync /\
    opt_direction (parseArgs (argv (a ++ ["--to-agents"]))) = Some to_agents /\
    opt_direction (parseArgs (argv (a ++ ["--to-claude"]))) = Some to_claude /\
    opt_source (parseArgs (argv (a ++ ["--source"]))) = None /\
    opt_target (parseArgs (argv (a ++ ["--target"]))) = None /\
    opt_mode (parseArgs (argv (a ++ ["--mode"]))) = None /\
    opt_conflictResolution (parseArgs (argv (a ++ ["--conflict"]))) = None.
Proof.
  intros node script a b D argv. subst argv. unfold parseArgs. simpl skipn.
  split; [apply (parse_loop_app_bounded (n := List.length a)); auto | ].
  rewrite !(parse_loop_app_bounded (n := List.length a)) by auto.
  repeat split; reflexivity.
Qed.

Lemma parseArgs_left_to_right_witness :
  opt_direction
    (parseArgs
       ("node" :: "index.ts" ::
        ["--source"; "--sync"; "--to-claude"] ++ ["--to-agents"]))
    = Some to_agents /\
  opt_source
    (parseArgs
       ("node" :: "index.ts" ::
        ["--source"; "--sync"; "--to-claude"] ++ ["--source"])) = None.
Proof.
  pose proof (parseArgs_left_to_right "node" "index.ts"
                ["--source"; "--sync"; "--to-claude"] [] eq_refl)
    as (_ & _ & H & _ & H' & _).
  split; [exact H | exact H'].
Defined.

(** ** Counting references *)

Lemma span_until_length c : forall s run rest,
  span_until c s = (run, rest) ->
  String.length run + String.length rest = String.length s.
Proof.
  induction s as [ | a s IH]; intros run rest; simpl.
  - intros H. injection H as <- <-. reflexivity.
  - destruct (Ascii.eqb a c).
    + intros H. injection H as <- <-. reflexivity.
    + destruct (span_until c s) as [run' rest'].
      intros H. injection H as <- <-. simpl. rewrite (IH _ _ eq_refl).
      reflexivity.
Qed.

(** A match on a character: the character is the one matched. *)
Ltac head_char a ch :=
  let N := fresh "N" in
  destruct (Ascii.ascii_dec a ch) as [-> | N];
  [ | destruct a as [[] [] [] [] [] [] [] []]; try discriminate;
      exfalso; apply N; reflexivity].

(** A wiki link is five characters or more, a markdown link six or
    more. *)
Lemma wiki_at_shrinks s rest :
  wiki_at s = Some rest -> String.length rest + 5 <= String.length s.
Proof.
  unfold wiki_at.
  destruct s as [ | a s]; [discriminate | ]. head_char a "["%char.
  destruct s as [ | a s]; [discriminate | ]. head_char a "["%char.
  destruct (span_until "]"%char s) as [run after] eqn:E.
  apply span_until_length in E.
  destruct run as [ | r0 run]; [discriminate | ].
  destruct after as [ | b after]; [discriminate | ]. head_char b "]"%char.
  destruct after as [ | b after]; [discriminate | ]. head_char b "]"%char.
  intros H. injection H as <-. simpl in *. lia.
Qed.

Lemma markdown_at_shrinks s rest :
  markdown_at s = Some rest -> String.length rest + 6 <= String.length s.
Proof.
  unfold markdown_at.
  destruct s as [ | a s]; [discriminate | ]. head_char a "["%char.
  destruct (span_until "]"%char s) as [run after] eqn:E.
  apply span_until_length in E.
  destruct run as [ | r0 run]; [discriminate | ].
  destruct after as [ | b after]; [discriminate | ]. head_char b "]"%char.
  destruct after as [ | b after]; [discriminate | ]. head_char b "("%char.
  destruct (span_until ")"%char after) as [run2 after2] eqn:E2.
  apply span_until_length in E2.
  destruct run2 as [ | r1 run2]; [discriminate | ].
  destruct after2 as [ | b after2]; [discriminate | ]. head_char b ")"%char.
  intros H. injection H as <-. simpl in *. lia.
Qed.

Section Counting.

Variable at_head : string -> option string.
Variable k : nat.
Hypothesis shrinks : forall s rest,
  at_head s = Some rest -> String.length rest + S k <= String.length s.

(** Each match uses up its characters. *)
Lemma count_matches_bound : forall fuel s,
  S k * count_matches at_head fuel s <= String.length s.
Proof.
  induction fuel as [ | fuel IH]; intros s; [simpl; lia | ].
  simpl count_matches. destruct (at_head s) as [rest | ] eqn:E.
  - apply shrinks in E. specialize (IH rest). lia.
  - destruct s as [ | c s]; [simpl; lia | ].
    specialize (IH s). simpl String.length. lia.
Qed.

(** The search ends before the characters do: more turns than the content
    has characters find nothing more. *)
Lemma count_matches_fuel : forall fuel1 fuel2 s,
  String.length s < fuel1 -> String.length s < fuel2 ->
  count_matches at_head fuel1 s = count_matches at_head fuel2 s.
Proof.
  induction fuel1 as [ | fuel1 IH]; intros fuel2 s H1 H2; [lia | ].
  destruct fuel2 as [ | fuel2]; [lia | ].
  simpl. destruct (at_head s) as [rest | ] eqn:E.
  - apply shrinks in E. f_equal. apply IH; lia.
  - destruct s as [ | c s]; [reflexivity | ].
    simpl in *. apply IH; lia.
Qed.

(** Where no match can begin there is none. *)
Lemma count_matches_none : forall fuel s,
  (forall s', at_head s' <> None ->
     exists s'', s' = String "["%char s'') ->
  existsb (Ascii.eqb "["%char) (list_ascii_of_string s) = false ->
  count_matches at_head fuel s = 0.
Proof.
  induction fuel as [ | fuel IH]; intros s Hh Hs; [reflexivity | ].
  simpl. destruct (at_head s) as [rest | ] eqn:E.
  - destruct (Hh s) as [s'' ->]; [rewrite E; discriminate | ].
    simpl in Hs. discriminate Hs.
  - destruct s as [ | c s]; [reflexivity | ].
    simpl in Hs. apply orb_false_elim in Hs. apply IH; tauto.
Qed.

End Counting.

(** [countReferences] counts at most one wiki link for each five
    characters of the content and one markdown link for each six; a
    content without an opening bracket has no reference; and the two
    searches, which take a turn for each character at most, are over
    before the turns the model gives them. *)
Theorem countReferences_bounds :
  forall content,
    30 * countReferences content <= 11 * String.length content /\
    (existsb (Ascii.eqb "["%char) (list_ascii_of_string content) = false ->
     countReferences content = 0) /\
    (forall fuel,
       String.length content < fuel ->
       count_matches wiki_at fuel content
       + count_matches markdown_at fuel content = countReferences content).
Proof.
  intros content. unfold countReferences. split; [ | split].
  - pose proof (@count_matches_bound wiki_at 4 wiki_at_shrinks
                  (S (String.length content)) content).
    pose proof (@count_matches_bound markdown_at 5 markdown_at_shrinks
                  (S (String.length content)) content).
    lia.
  - intros H. rewrite !count_matches_none; auto.
    + intros s' N. unfold markdown_at in N.
      destruct s' as [ | a s']; [contradiction | ].
      destruct (Ascii.ascii_dec a "["%char) as [-> | Na]; [eauto | ].
      exfalso. apply N.
      destruct a as [[] [] [] [] [] [] [] []]; try reflexivity.
      exfalso. apply Na. reflexivity.
    + intros s' N. unfold wiki_at in N.
      destruct s' as [ | a s']; [contradiction | ].
      destruct (Ascii.ascii_dec a "["%char) as [-> | Na]; [eauto | ].
      exfalso. apply N.
      destruct a as [[] [] [] [] [] [] [] []]; try reflexivity.
      exfalso. apply Na. reflexivity.
  - intros fuel H.
    rewrite (@count_matches_fuel wiki_at 4 wiki_at_shrinks
               fuel (S (String.length content))) by lia.
    rewrite (@count_matches_fuel markdown_at 5 markdown_at_shrinks
               fuel (S (String.length content))) by lia.
    reflexivity.
Qed.

Lemma countReferences_bounds_witness :
  countReferences "No links here at all" = 0 /\
  count_matches wiki_at 100 "See [[a]] and [b](c)"
  + count_matches markdown_at 100 "See [[a]] and [b](c)"
  = countReferences "See [[a]] and [b](c)".
Proof.
  split.
  - apply (proj1 (proj2 (countReferences_bounds "No links here at all"))).
    reflexivity.
  - apply (proj2 (proj2 (countReferences_bounds "See [[a]] and [b](c)"))).
    simpl. lia.
Defined.

(** ** What a conversion leaves alone *)

Lemma observe_inv A (f : node -> A) w a w' :
  observe f w = (Ok a, w') -> a = f (w_fs w) /\ w' = w.
Proof. unfold observe. intros H. injection H as <- <-. auto. Qed.

Lemma convertSkill_body_skipped s td mode cr w r w' :
  convertSkill_body s td mode cr w = (Ok r, w') ->
  action r = skipped -> w' = w.
Proof.
  unfold convertSkill_body. intros H Ha.
  peel H. apply observe_inv in Hm. destruct Hm as [-> ->].
  assert (Hx : forall wx wy,
             (ensureDir td ;;;
              executeMode s (skill_path s) (path_join td (skill_name s)) mode)
               wx = (Ok r, wy) -> False).
  { intros wx wy Hp. peel Hp. apply executeMode_result in Hp. subst r.
    destruct mode; discriminate Ha. }
  destruct (targetExists (w_fs w) (path_join td (skill_name s)));
    [ | exfalso; eapply Hx; exact H].
  peel H. apply observe_inv in Hm. destruct Hm as [-> ->].
  destruct (mode_is_symlink mode && _).
  - apply ret_Ok_inv in H. destruct H as [_ H]. auto.
  - peel H. destruct cr.
    + apply ret_Ok_inv in Hm. destruct Hm as [<- <-].
      apply ret_Ok_inv in H. destruct H as [_ H]. auto.
    + pose proof (resolveConflict_result _ _ _ _ Hm) as R.
      destruct a as [r0 | ]; [destruct R as [R _]; discriminate R | ].
      exfalso. eapply Hx. exact H.
    + pose proof (resolveConflict_result _ _ _ _ Hm) as R.
      destruct a as [r0 | ]; [destruct R as [R _]; discriminate R | ].
      exfalso. eapply Hx. exact H.
Qed.

(** A conversion that reports [skipped] has changed nothing; and with the
    policy [skip], a conversion that finds something at the target path
    reports [skipped] and changes nothing, whatever the mode. *)
Theorem skipped_changes_nothing :
  forall s targetDir mode cr w,
    (forall r w',
       convertSkill s targetDir mode cr w = (Succeed r, w') ->
       action r = skipped -> w' = w) /\
    (targetExists (w_fs w) (path_join targetDir (skill_name s)) = true ->
     convertSkill s targetDir mode skip w =
       (Succeed
          (mkResult s true skipped (path_join targetDir (skill_name s))
             (Some (if mode_is_symlink mode &&
                       isSymlinkTo (w_fs w)
                         (path_join targetDir (skill_name s)) (skill_path s)
                    then "Already linked" else "Already exists"))),
        w)).
Proof.
  intros s td mode cr w. split.
  - intros r w' H Ha. unfold convertSkill, Effect_try in H.
    destruct (convertSkill_body s td mode cr w) as [[r0 | x] w1] eqn:E;
      [ | discriminate H].
    injection H as -> ->. eapply convertSkill_body_skipped; eassumption.
  - intros T. unfold convertSkill, Effect_try, convertSkill_body.
    cbv zeta. unfold bind at 1. unfold observe at 1. rewrite T.
    unfold bind at 1. unfold observe at 1. cbv beta iota.
    destruct (mode_is_symlink mode && _); reflexivity.
Qed.

Lemma skipped_changes_nothing_witness :
  convertSkill Sample.real ["tgt"] move skip Sample.world_linked =
    (Succeed (mkResult Sample.real true skipped ["tgt"; "real"]
                (Some "Already exists")),
     Sample.world_linked).
Proof.
  apply (proj2 (skipped_changes_nothing Sample.real ["tgt"] move skip
                  Sample.world_linked)).
  reflexivity.
Defined.

(** ** Batches *)

Lemma results_in_order_app td mode cr : forall l1 l2 w,
  results_in_order (l1 ++ l2) td mode cr w =
  (fst (results_in_order l1 td mode cr w)
   ++ fst (results_in_order l2 td mode cr
             (snd (results_in_order l1 td mode cr w))),
   snd (results_in_order l2 td mode cr
          (snd (results_in_order l1 td mode cr w)))).
Proof.
  induction l1 as [ | s l1 IH]; intros l2 w; simpl.
  - destruct (results_in_order l2 td mode cr w); reflexivity.
  - destruct (convertSkill s td mode cr w) as [e w1]. rewrite IH.
    destruct (results_in_order l1 td mode cr w1) as [r1 w2]. reflexivity.
Qed.

(** A batch can be cut in two: converting [l1 ++ l2] gives the results of
    converting [l1], followed by the results of converting [l2] in the
    world that [l1] left. *)
Theorem convertSkills_app :
  forall l1 l2 targetDir mode cr w,
  exists r1 w1 r2 w2,
    convertSkills l1 targetDir mode cr w = (Succeed r1, w1) /\
    convertSkills l2 targetDir mode cr w1 = (Succeed r2, w2) /\
    convertSkills (l1 ++ l2) targetDir mode cr w = (Succeed (r1 ++ r2), w2).
Proof.
  intros l1 l2 td mode cr w.
  exists (fst (results_in_order l1 td mode cr w)),
         (snd (results_in_order l1 td mode cr w)),
         (fst (results_in_order l2 td mode cr
                 (snd (results_in_order l1 td mode cr w)))),
         (snd (results_in_order l2 td mode cr
                 (snd (results_in_order l1 td mode cr w)))).
  rewrite !convertSkills_results_in_order, results_in_order_app.
  auto.
Qed.

(** ** What every entry of a scan satisfies *)

Section DetectInvariant.

Variable yaml_parse : string -> Res jsval.
Variable fs : node.
Variable P : DetectedSkill -> Prop.
Hypothesis analyzed : forall p s,
  analyzeSkill yaml_parse fs p = Ok (Some s) -> P s.
Hypothesis renamed : forall n s, P s -> P (set_name n s).

Lemma detect_nested_inv skillPath entry_name : forall nested skills,
  Forall P skills ->
  Forall P (snd (detect_nested yaml_parse fs skillPath entry_name nested
                   skills)).
Proof.
  induction nested as [ | [sub k] tl IH]; intros skills F; simpl; [exact F | ].
  destruct (isDirectory k); simpl; [ | apply IH; exact F].
  destruct (analyzeSkill yaml_parse fs (path_join skillPath sub))
    as [[s | ] | x] eqn:A; simpl; [ | apply IH; exact F | exact F].
  apply IH. apply Forall_app. split; [exact F | ].
  constructor; [ | constructor]. apply renamed. eapply analyzed. exact A.
Qed.

Lemma detect_entry_inv dir entry skills skills' :
  Forall P skills ->
  detect_entry yaml_parse fs dir entry skills = Ok skills' ->
  Forall P skills'.
Proof.
  intros F. unfold detect_entry.
  destruct (negb (isDirectory (snd entry)) && _);
    [intros H; injection H as <-; exact F | ].
  destruct (String.prefix "_" (fst entry));
    [intros H; injection H as <-; exact F | ].
  destruct (if isSymbolicLink (snd entry) then _ else _) as [actual | ];
    [ | intros H; injection H as <-; exact F].
  destruct (existsSync fs (path_join actual manifest)).
  - destruct (analyzeSkill yaml_parse fs (path_join dir (fst entry)))
      as [[s | ] | x] eqn:A; simpl; intros H; try discriminate H;
      injection H as <-; [ | exact F].
    apply Forall_app. split; [exact F | ].
    constructor; [ | constructor]. eapply analyzed. exact A.
  - destruct (readdirSync fs actual) as [nested | x];
      intros H; injection H as <-; [ | exact F].
    apply detect_nested_inv. exact F.
Qed.

Lemma detect_loop_inv dir : forall entries skills skills',
  Forall P skills ->
  detect_loop yaml_parse fs dir entries skills = Ok skills' ->
  Forall P skills'.
Proof.
  induction entries as [ | entry tl IH]; intros skills skills' F; simpl.
  - intros H. injection H as <-. exact F.
  - destruct (detect_entry yaml_parse fs dir entry skills) as [s1 | x] eqn:E;
      simpl; [ | discriminate].
    apply IH. eapply detect_entry_inv; eassumption.
Qed.

Lemma detectSkills_inv dir w skills w' :
  w_fs w = fs ->
  detectSkills yaml_parse dir w = (Succeed skills, w') ->
  Forall P skills.
Proof.
  intros Hfs. rewrite detectSkills_run, Hfs. intros H. injection H as H _.
  destruct (negb (existsSync fs dir));
    [injection H as <-; constructor | ].
  destruct (readdirSync fs dir) as [entries | x]; [ | discriminate H].
  destruct (detect_loop yaml_parse fs dir entries []) as [l | x] eqn:E;
    [ | discriminate H].
  injection H as <-. eapply detect_loop_inv; [ | exact E]. constructor.
Qed.

End DetectInvariant.

(** The fields of an entry as [analyzeSkill] fills them. *)
Lemma analyzeSkill_fields yaml_parse fs p s :
  analyzeSkill yaml_parse fs p = Ok (Some s) ->
  skill_path s = p /\
  hasSkillMd s = true /\
  existsSync fs (path_join p manifest) = true /\
  truthy (frontmatter s) = true /\
  (exists st, lstatSync fs p = Ok st /\ isSymlink s = st_isSymbolicLink st) /\
  (if isSymlink s
   then exists t, symlinkTarget s = Some t /\ readlinkSync fs p = Ok t
   else symlinkTarget s = None) /\
  hasAgentsMd s = existsSync fs (path_join p "AGENTS.md") /\
  hasRules s = existsSync fs (path_join p "rules") /\
  hasScripts s = existsSync fs (path_join p "scripts") /\
  hasTemplates s = existsSync fs (path_join p "templates") /\
  hasReferences s =
    Nat.ltb 0
      (countReferences
         (match readFileSync fs (path_join p manifest) with
          | Ok text => text
          | Throw _ => ""
          end)) /\
  sizeKb s = getDirectorySizeKb fs p /\
  frontmatter s =
    match readFileSync fs (path_join p manifest) with
    | Ok text =>
        match parseFrontmatter yaml_parse text with
        | Ok fm => fm
        | Throw _ => empty_mapping
        end
    | Throw _ => empty_mapping
    end.
Proof.
  unfold analyzeSkill.
  destruct (existsSync fs (path_join p manifest)) eqn:E; [ | discriminate].
  simpl negb. cbv iota. unfold lstatSync at 1.
  destruct (lstat fs p) as [[q n] | x] eqn:L; [ | discriminate].
  simpl res_bind.
  assert (T : truthy
                (match readFileSync fs (path_join p manifest) with
                 | Ok text =>
                     match parseFrontmatter yaml_parse text with
                     | Ok fm => fm
                     | Throw _ => empty_mapping
                     end
                 | Throw _ => empty_mapping
                 end) = true).
  { destruct (readFileSync fs (path_join p manifest)) as [text | x];
      [ | reflexivity].
    unfold parseFrontmatter.
    destruct (frontmatter_match text) as [block | ]; [ | reflexivity].
    destruct (yaml_parse block) as [v | x]; [ | reflexivity].
    simpl. unfold js_or. destruct (truthy v) eqn:Tv; [exact Tv | reflexivity]. }
  assert (Rest : forall content fm,
            (content, fm) =
              match readFileSync fs (path_join p manifest) with
              | Ok text =>
                  match parseFrontmatter yaml_parse text with
                  | Ok fm => (text, fm)
                  | Throw _ => (text, empty_mapping)
                  end
              | Throw _ => ("", empty_mapping)
              end ->
            content =
              match readFileSync fs (path_join p manifest) with
              | Ok text => text
              | Throw _ => ""
              end /\
            fm =
              match readFileSync fs (path_join p manifest) with
              | Ok text =>
                  match parseFrontmatter yaml_parse text with
                  | Ok fm => fm
                  | Throw _ => empty_mapping
                  end
              | Throw _ => empty_mapping
              end).
  { intros content fm.
    destruct (readFileSync fs (path_join p manifest)) as [text | x];
      [destruct (parseFrontmatter yaml_parse text) | ];
      intros H; injection H as -> ->; auto. }
  destruct (match readFileSync fs (path_join p manifest) with
            | Ok text =>
                match parseFrontmatter yaml_parse text with
                | Ok fm => (text, fm)
                | Throw _ => (text, empty_mapping)
                end
            | Throw _ => ("", empty_mapping)
            end) as [content fm].
  destruct (Rest content fm eq_refl) as [Ec Ef].
  assert (T' : truthy fm = true) by (rewrite Ef; exact T).
  intros H. injection H as <-. simpl.
  repeat split; auto.
  - exists n. unfold lstatSync. rewrite L. auto.
  - unfold readlinkSync. rewrite L.
    destruct n as [m c | r ents | t]; simpl; eauto.
  - rewrite <- Ec. reflexivity.
Qed.

(** Every entry [detectSkills] returns has its manifest; its feature flags
    say what exists in its directory; [isSymlink] says whether its path is
    a link, and [symlinkTarget] is then the text of that link; it has
    references exactly when [countReferences] finds one in the text of its
    manifest; its size is that of its directory; and its metadata is what
    [parseFrontmatter] makes of the manifest, never a falsy value. *)
Theorem detected_entries_are_analyzed :
  forall yaml_parse dir w skills w',
    detectSkills yaml_parse dir w = (Succeed skills, w') ->
    Forall (fun s =>
              let p := skill_path s in
              let fs := w_fs w in
              hasSkillMd s = true /\
              existsSync fs (path_join p manifest) = true /\
              truthy (frontmatter s) = true /\
              (exists st, lstatSync fs p = Ok st /\
                          isSymlink s = st_isSymbolicLink st) /\
              (if isSymlink s
               then exists t, symlinkTarget s = Some t /\
                              readlinkSync fs p = Ok t
               else symlinkTarget s = None) /\
              hasAgentsMd s = existsSync fs (path_join p "AGENTS.md") /\
              hasRules s = existsSync fs (path_join p "rules") /\
              hasScripts s = existsSync fs (path_join p "scripts") /\
              hasTemplates s = existsSync fs (path_join p "templates") /\
              hasReferences s =
                Nat.ltb 0
                  (countReferences
                     (match readFileSync fs (path_join p manifest) with
                      | Ok text => text
                      | Throw _ => ""
                      end)) /\
              sizeKb s = getDirectorySizeKb fs p /\
              frontmatter s =
                match readFileSync fs (path_join p manifest) with
                | Ok text =>
                    match parseFrontmatter yaml_parse text with
                    | Ok fm => fm
                    | Throw _ => empty_mapping
                    end
                | Throw _ => empty_mapping
                end)
           skills.
Proof.
  intros yaml_parse dir w skills w' H.
  eapply (@detectSkills_inv yaml_parse (w_fs w)); [ | | reflexivity | exact H].
  - intros p s A. apply analyzeSkill_fields in A.
    destruct A as (-> & A). exact A.
  - intros n s A. exact A.
Qed.

Lemma detected_entries_are_analyzed_witness :
  Forall (fun s =>
            hasSkillMd s = true /\
            existsSync Sample.tree (path_join (skill_path s) manifest)
              = true)
    (match fst (detectSkills Sample.yaml ["src"] Sample.world0) with
     | Succeed skills => skills
     | Failure _ => []
     end).
Proof.
  eapply Forall_impl;
    [ | apply (detected_entries_are_analyzed Sample.yaml ["src"]
                 Sample.world0 (w' := Sample.world0));
        vm_compute; reflexivity].
  simpl. intros s (H1 & H2 & _). split; [exact H1 | exact H2].
Defined.

(** ** Validation *)

Lemma push_if_In flag label x :
  In x (push_if flag label) <-> flag = true /\ x = label.
Proof.
  destruct flag; simpl; split.
  - intros [<- | []]. auto.
  - intros [_ ->]. auto.
  - intros [].
  - intros [H _]. discriminate H.
Qed.

Lemma validateSkill_eq s :
  frontmatter s <> JNull ->
  validateSkill s =
  let warnings :=
    push_if (negb (given (frontmatter s) "name") &&
             negb (given (frontmatter s) "description")) missing_metadata
    ++ push_if (hasRules s && negb (hasAgentsMd s)) missing_build in
  Some (no_warning warnings, warnings).
Proof.
  intros N. unfold validateSkill, given.
  destruct (frontmatter s) as [ | b | z | t | items | fields];
    try contradiction; simpl;
    try (destruct (hasRules s && negb (hasAgentsMd s)); reflexivity).
  destruct (js_not (field fields "name")); simpl;
    [destruct (js_not (field fields "description")); simpl | ];
    destruct (hasRules s && negb (hasAgentsMd s)); reflexivity.
Qed.

Lemma validateSkill_lists s warnings :
  warnings =
    push_if (negb (given (frontmatter s) "name") &&
             negb (given (frontmatter s) "description")) missing_metadata
    ++ push_if (hasRules s && negb (hasAgentsMd s)) missing_build ->
  (In missing_metadata warnings <->
   given (frontmatter s) "name" = false /\
   given (frontmatter s) "description" = false) /\
  (In missing_build warnings <->
   hasRules s = true /\ hasAgentsMd s = false) /\
  (no_warning warnings = true <->
   ~ In missing_metadata warnings /\ ~ In missing_build warnings).
Proof.
  intros ->.
  assert (D1 : missing_build <> missing_metadata) by discriminate.
  assert (D2 : missing_metadata <> missing_build) by discriminate.
  split; [ | split].
  - rewrite in_app_iff, !push_if_In. split.
    + intros [[H _] | [_ H]]; [ | contradiction].
      apply andb_true_iff in H. destruct H as [H1 H2].
      apply negb_true_iff in H1, H2. auto.
    + intros [H1 H2]. left. rewrite H1, H2. auto.
  - rewrite in_app_iff, !push_if_In. split.
    + intros [[_ H] | [H _]]; [contradiction | ].
      apply andb_true_iff in H. destruct H as [H1 H2].
      apply negb_true_iff in H2. auto.
    + intros [H1 H2]. right. rewrite H1, H2. auto.
  - destruct (negb (given (frontmatter s) "name") &&
              negb (given (frontmatter s) "description")),
      (hasRules s && negb (hasAgentsMd s)); simpl; split;
      try discriminate.
    + intros [H _]. exfalso. apply H. left. reflexivity.
    + intros [H _]. exfalso. apply H. left. reflexivity.
    + intros [_ H]. exfalso. apply H. left. reflexivity.
    + intros _. split; intros [].
    + reflexivity.
Qed.

(** [validateSkill] throws exactly on an entry whose metadata is [null].
    On every other entry it returns: [valid] says that there is no warning;
    the warning about the metadata is there exactly when the metadata has
    neither a non-empty [name] nor a non-empty [description]; the warning
    about the build exactly when the entry has [rules] and no
    [AGENTS.md]. *)
Theorem validateSkill_warnings :
  forall s,
    (validateSkill s = None <-> frontmatter s = JNull) /\
    (frontmatter s <> JNull ->
     exists warnings,
       validateSkill s = Some (no_warning warnings, warnings) /\
       (In missing_metadata warnings <->
        given (frontmatter s) "name" = false /\
        given (frontmatter s) "description" = false) /\
       (In missing_build warnings <->
        hasRules s = true /\ hasAgentsMd s = false) /\
       (no_warning warnings = true <->
        ~ In missing_metadata warnings /\ ~ In missing_build warnings)).
Proof.
  intros s. split.
  - split.
    + intros H. destruct (frontmatter s) eqn:F; try reflexivity;
        rewrite validateSkill_eq in H by (rewrite F; discriminate);
        discriminate H.
    + intros F. unfold validateSkill. rewrite F. reflexivity.
  - intros N. eexists. split; [apply validateSkill_eq; exact N | ].
    apply validateSkill_lists. reflexivity.
Qed.

Lemma validateSkill_warnings_witness :
  exists warnings,
    validateSkill Sample.real = Some (no_warning warnings, warnings) /\
    (In missing_build warnings <->
     hasRules Sample.real = true /\ hasAgentsMd Sample.real = false).
Proof.
  destruct (proj2 (validateSkill_warnings Sample.real))
    as (warnings & E & _ & B & _); [vm_compute; discriminate | ].
  exists warnings. split; [exact E | exact B].
Defined.

(** Every entry [detectSkills] returns passes through [validateSkill]
    without an exception, and is warned about the build exactly when its
    directory has [rules] and no [AGENTS.md]. *)
Theorem detected_entries_validate :
  forall yaml_parse dir w skills w',
    detectSkills yaml_parse dir w = (Succeed skills, w') ->
    Forall (fun s =>
              exists warnings,
                validateSkill s = Some (no_warning warnings, warnings) /\
                (In missing_build warnings <->
                 existsSync (w_fs w) (path_join (skill_path s) "rules")
                   = true /\
                 existsSync (w_fs w) (path_join (skill_path s) "AGENTS.md")
                   = false))
           skills.
Proof.
  intros yaml_parse dir w skills w' H.
  eapply (@detectSkills_inv yaml_parse (w_fs w)); [ | | reflexivity | exact H].
  - intros p s A. apply analyzeSkill_fields in A.
    destruct A as (-> & _ & _ & T & _ & _ & <- & <- & _).
    assert (N : frontmatter s <> JNull)
      by (intros E; rewrite E in T; discriminate T).
    eexists. split; [apply validateSkill_eq; exact N | ].
    apply validateSkill_lists. reflexivity.
  - intros n s A. exact A.
Qed.

Lemma detected_entries_validate_witness :
  Forall (fun s => exists warnings,
            validateSkill s = Some (no_warning warnings, warnings))
    (match fst (detectSkills Sample.yaml ["src"] Sample.world0) with
     | Succeed skills => skills
     | Failure _ => []
     end).
Proof.
  eapply Forall_impl;
    [ | apply (detected_entries_validate Sample.yaml ["src"]
                 Sample.world0 (w' := Sample.world0));
        vm_compute; reflexivity].
  simpl. intros s (warnings & E & _). exists warnings. exact E.
Defined.

(** ** Paths that go through no link *)

Lemma get_parent fs p s n :
  get fs (p ++ [s]) = Some n ->
  exists r ents, get fs p = Some (Dir r ents) /\ lookup ents s = Some n.
Proof.
  rewrite get_snoc.
  destruct (get fs p) as [[m c | r ents | t] | ]; simpl; try discriminate.
  eauto.
Qed.

Lemma exists_last_or_nil A (l : list A) :
  l = [] \/ exists l' a, l = l' ++ [a].
Proof.
  induction l as [ | x l' _] using rev_ind; [left | right]; eauto.
Qed.

Lemma get_removelast fs p r ents :
  get fs p = Some (Dir r ents) ->
  exists r' ents', get fs (removelast p) = Some (Dir r' ents').
Proof.
  destruct (exists_last_or_nil p) as [-> | (l & a & ->)]; [eauto | ].
  rewrite removelast_last. intros G. apply get_parent in G.
  destruct G as (r' & ents' & G & _). eauto.
Qed.

(** The names of a place of the tree lead to it. *)
Lemma walk1_get fs b : forall p cur n,
  get fs (cur ++ p) = Some n ->
  b = true \/ st_isSymbolicLink n = false ->
  walk1 fs cur (map Name p) b = Done (cur ++ p) n.
Proof.
  induction p as [ | s p IH]; intros cur n G H.
  - rewrite app_nil_r in *. simpl. rewrite G. reflexivity.
  - pose proof G as G0. rewrite get_app in G.
    destruct (get fs cur) as [[m c | r ents | t] | ] eqn:Gc;
      simpl in G; try discriminate G.
    destruct (lookup ents s) as [c | ] eqn:L; [ | discriminate G].
    assert (E : cur ++ s :: p = (cur ++ [s]) ++ p)
      by (rewrite <- app_assoc; reflexivity).
    simpl. rewrite Gc, L.
    destruct c as [mo co | r0 e0 | t];
      try (rewrite E; apply IH; [rewrite <- E; exact G0 | exact H]).
    destruct p as [ | s' p']; [ | discriminate G].
    simpl in G. injection G as <-.
    destruct H as [-> | H]; [reflexivity | discriminate H].
Qed.

Lemma lstat_get fs p n : get fs p = Some n -> lstat fs p = Ok (p, n).
Proof.
  intros G. unfold lstat. rewrite walk_unfold.
  rewrite (@walk1_get fs true p [] n G (or_introl eq_refl)). reflexivity.
Qed.

Lemma stat_get fs p n :
  get fs p = Some n -> st_isSymbolicLink n = false -> stat fs p = Ok (p, n).
Proof.
  intros G H. unfold stat. rewrite walk_unfold.
  rewrite (@walk1_get fs false p [] n G (or_intror H)). reflexivity.
Qed.

(** Leading [..] components, from a directory of the tree. *)
Lemma walk1_ups fs b rest : forall k cur r ents,
  get fs cur = Some (Dir r ents) ->
  walk1 fs cur (repeat Up k ++ rest) b =
  walk1 fs (firstn (List.length cur - k) cur) rest b.
Proof.
  induction k as [ | k IH]; intros cur r ents G.
  - rewrite Nat.sub_0_r, firstn_all. reflexivity.
  - simpl. rewrite G.
    destruct (@get_removelast _ _ _ _ G) as (r' & ents' & G').
    rewrite (IH _ _ _ G'). f_equal.
    destruct (exists_last_or_nil cur) as [-> | (l & a & ->)];
      [reflexivity | ].
    rewrite removelast_last, length_app. simpl List.length.
    replace (List.length l + 1 - S k) with (List.length l - k) by lia.
    rewrite firstn_app.
    replace (List.length l - k - List.length l) with 0 by lia.
    simpl. rewrite app_nil_r. reflexivity.
Qed.

(** Following links from the root ends on no link. *)
Lemma walk1_not_link root :
  st_isSymbolicLink root = false ->
  forall rest cur,
    (forall t, get root cur <> Some (Symlink t)) ->
    match walk1 root cur rest false with
    | Done p n => st_isSymbolicLink n = false
    | Redirect cur' _ => forall t, get root cur' <> Some (Symlink t)
    | Stuck _ => True
    end.
Proof.
  intros R. induction rest as [ | x rest IH]; intros cur H.
  - simpl. destruct (get root cur) as [[m c | r ents | t] | ] eqn:G;
      try reflexivity; try exact I.
    exfalso. exact (H _ eq_refl).
  - destruct x as [ | s]; simpl.
    + destruct (get root cur) as [[m c | r ents | t] | ] eqn:G; try exact I.
      apply IH. intros t Gt.
      destruct (@get_removelast _ _ _ _ G) as (r' & ents' & G').
      rewrite G' in Gt. discriminate Gt.
    + destruct (get root cur) as [[m c | r ents | t] | ] eqn:G; try exact I.
      destruct (lookup ents s) as [[m c | r0 e0 | t] | ] eqn:L; try exact I.
      * apply IH. intros t. rewrite get_snoc, G. simpl. rewrite L.
        discriminate.
      * apply IH. intros t. rewrite get_snoc, G. simpl. rewrite L.
        discriminate.
      * simpl. destruct (link_is_empty t); [exact I | ].
        destruct t as [p | up down]; intros t' Gt.
        -- simpl in Gt. injection Gt as ->. discriminate R.
        -- rewrite G in Gt. discriminate Gt.
Qed.

Lemma walk_not_link fuel root :
  st_isSymbolicLink root = false ->
  forall cur rest p n,
    (forall t, get root cur <> Some (Symlink t)) ->
    walk fuel root cur rest false = Ok (p, n) ->
    st_isSymbolicLink n = false.
Proof.
  intros R. induction fuel as [ | fuel IH]; intros cur rest p n H;
    rewrite walk_unfold;
    pose proof (@walk1_not_link root R rest cur H) as W;
    destruct (walk1 root cur rest false) as [p0 n0 | cur' rest' | e];
    try discriminate.
  - intros E. injection E as <- <-. exact W.
  - intros E. injection E as <- <-. exact W.
  - apply IH. exact W.
Qed.

Lemma stat_not_link fs p q n :
  st_isSymbolicLink fs = false ->
  stat fs p = Ok (q, n) -> st_isSymbolicLink n = false.
Proof.
  intros R. apply walk_not_link; [exact R | ].
  intros t G. simpl in G. injection G as ->. discriminate R.
Qed.

(** A tree with a directory at a place is no link itself. *)
Lemma root_of_Dir fs p r ents :
  get fs p = Some (Dir r ents) -> st_isSymbolicLink fs = false.
Proof.
  destruct p as [ | s p]; simpl.
  - intros H. injection H as ->. reflexivity.
  - destruct fs; simpl; try discriminate; reflexivity.
Qed.

(** ** What a change at one place leaves alone *)

Lemma lookup_alter_entry_none a g : forall ents,
  lookup ents a = None -> g None = None ->
  lookup (alter_entry a g ents) a = None.
Proof.
  induction ents as [ | [k c] tl IH]; simpl; intros L G.
  - rewrite G. reflexivity.
  - destruct (String.eqb k a) eqn:Ka; [discriminate L | ].
    simpl. rewrite Ka. apply IH; assumption.
Qed.

Lemma is_prefix_refl p : is_prefix p p = true.
Proof. apply is_prefix_spec. exists []. symmetry. apply app_nil_r. Qed.

Lemma is_prefix_app p r : is_prefix p (p ++ r) = true.
Proof. apply is_prefix_spec. eauto. Qed.

(** A change at [L] is not seen at a place that is neither above nor
    below [L]. *)
Lemma get_alter_other f : forall L root q,
  is_prefix L q = false -> is_prefix q L = false ->
  get (alter f L root) q = get root q.
Proof.
  induction L as [ | a L IH]; intros root q H1 H2; [discriminate H1 | ].
  destruct q as [ | b q]; [discriminate H2 | ].
  destruct root as [m c | r ents | t]; try reflexivity.
  simpl in H1, H2. simpl alter. simpl get.
  destruct (String.eqb a b) eqn:Eab.
  - apply String.eqb_eq in Eab. subst b.
    rewrite String.eqb_refl in H2. simpl in H1, H2.
    destruct L as [ | a' L']; [discriminate H1 | ].
    destruct (lookup ents a) as [c | ] eqn:La.
    + rewrite (lookup_alter_entry_replace a _ ents La eq_refl).
      apply IH; assumption.
    + rewrite lookup_alter_entry_none by (exact La || reflexivity).
      reflexivity.
  - rewrite lookup_alter_entry_other; [reflexivity | ].
    intros E. subst b. rewrite String.eqb_refl in Eab. discriminate Eab.
Qed.

(** What is below a place where there is nothing or a link. *)
Lemma get_below_leaf fs p x r :
  match get fs p with
  | None | Some (Symlink _) | Some (File _ _) => True
  | Some (Dir _ _) => False
  end ->
  get fs (p ++ x :: r) = None.
Proof.
  rewrite get_app.
  destruct (get fs p) as [[m c | r0 ents | t] | ]; simpl; tauto.
Qed.


(** ** The link that the mode [symlink] makes *)

(** The conversion, when the target root is a directory of the tree that
    has nothing under the name of the entry. *)
Lemma symlink_run s td cr w ro ents q0 n0 q :
  get (w_fs w) td = Some (Dir ro ents) ->
  lookup ents (skill_name s) = None ->
  lstat (w_fs w) (skill_path s) = Ok (q0, n0) ->
  realpathSync (w_fs w) (skill_path s) = Ok q ->
  (st_isSymbolicLink n0 = false -> q = skill_path s) ->
  q <> td ->
  convertSkill s td symlink cr w =
  (Succeed (mkResult s true symlinked (path_join td (skill_name s)) None),
   with_fs w (put (td ++ [skill_name s]) (Symlink (path_relative td q))
                (w_fs w))).
Proof.
  intros G L Hs Hq Hp Hne.
  assert (St : stat (w_fs w) td = Ok (td, Dir ro ents))
    by (apply stat_get; [exact G | reflexivity]).
  unfold convertSkill, Effect_try, convertSkill_body. cbv zeta.
  assert (T : targetExists (w_fs w) (path_join td (skill_name s)) = false).
  { unfold targetExists, lstatSync, lstat.
    rewrite (@stat_no_child (w_fs w) td td ro ents (skill_name s) true St L).
    reflexivity. }
  unfold bind at 1. unfold observe at 1. rewrite T.
  assert (E : ensureDir td w = (Ok tt, w)).
  { unfold ensureDir, bind, observe, existsSync. rewrite St. reflexivity. }
  unfold bind at 1. rewrite E.
  assert (A : (if st_isSymbolicLink n0
               then reading (fun fs => realpathSync fs (skill_path s))
               else ret (skill_path s)) w = (Ok q, w)).
  { destruct (st_isSymbolicLink n0).
    - unfold reading. rewrite Hq. reflexivity.
    - rewrite (Hp eq_refl). reflexivity. }
  unfold executeMode. unfold bind at 1. unfold reading at 1.
  unfold lstatSync. rewrite Hs. simpl res_bind. cbv beta iota.
  unfold bind at 1. simpl snd. rewrite A.
  unfold bind, ret, createRelativeSymlink, symlinkSync.
  rewrite !dirname_join, (relative_not_empty Hne).
  rewrite slot_join, St, L. reflexivity.
Qed.

(** The new link, read and followed. *)
Lemma link_resolves fs td name ro ents q n :
  get fs td = Some (Dir ro ents) ->
  lookup ents name = None ->
  get fs q = Some n ->
  st_isSymbolicLink n = false ->
  q <> td ->
  forall fs1, fs1 = put (td ++ [name]) (Symlink (path_relative td q)) fs ->
  lstat fs1 (td ++ [name]) = Ok (td ++ [name], Symlink (path_relative td q)) /\
  exists n', stat fs1 (td ++ [name]) = Ok (q, n') /\ skel n' = skel n.
Proof.
  intros G L Gq Hn Hne fs1 Efs1.
  assert (Fresh : get fs (td ++ [name]) = None)
    by (rewrite get_snoc, G; exact L).
  assert (Ext : forall p m, get fs p = Some m ->
                  exists m', get fs1 p = Some m' /\ skel m' = skel m).
  { intros p m Gp. rewrite Efs1. eapply get_put_fresh; eassumption. }
  assert (New : get fs1 (td ++ [name]) = Some (Symlink (path_relative td q))).
  { rewrite Efs1. eapply get_put_new; eassumption. }
  clear Efs1. split; [apply lstat_get; exact New | ].
  destruct (Ext _ _ G) as (d' & Gd & Sd).
  destruct d' as [m c | ro' ents' | t]; try discriminate Sd. clear Sd.
  destruct (Ext _ _ Gq) as (n' & Gn & Sn).
  assert (Hn' : st_isSymbolicLink n' = false)
    by (destruct n, n'; try discriminate Sn; try discriminate Hn; reflexivity).
  exists n'. split; [ | exact Sn].
  assert (Lk : lookup ents' name = Some (Symlink (path_relative td q))).
  { rewrite get_snoc, Gd in New. exact New. }
  pose proof (relative_not_empty Hne) as Ne.
  unfold path_relative in *.
  destruct (strip_common td q) as [f t] eqn:E.
  apply strip_common_spec in E. destruct E as (common & Etd & Eq).
  unfold stat. rewrite map_app. change (map Name [name]) with [Name name].
  rewrite walk_unfold.
  pose proof (walk1_snoc fs1 (Name name) false (map Name td) []) as S.
  rewrite (@walk1_get fs1 false td [] (Dir ro' ents') Gd
             (or_intror eq_refl)) in S.
  rewrite S. simpl walk1. simpl app in Gd. rewrite Gd, Lk, Ne.
  unfold SYMLOOP_MAX. simpl comps_of_link.
  rewrite walk_unfold, app_nil_r.
  rewrite (@walk1_ups fs1 false (map Name t) (List.length f) td ro' ents' Gd).
  assert (C : firstn (List.length td - List.length f) td = common).
  { rewrite Etd, length_app, Nat.add_sub, firstn_app, firstn_all,
      Nat.sub_diag. simpl. apply app_nil_r. }
  rewrite C. rewrite Eq in Gn.
  rewrite (@walk1_get fs1 false t common n' Gn (or_intror Hn')).
  rewrite Eq. reflexivity.
Qed.



(** ** Moving an entry *)

Lemma is_prefix_trans p q r :
  is_prefix p q = true -> is_prefix q r = true -> is_prefix p r = true.
Proof.
  rewrite !is_prefix_spec. intros [x ->] [y ->]. exists (x ++ y).
  symmetry. apply app_assoc.
Qed.

(** A place that exists has every place above it. *)
Lemma get_prefix fs p x n :
  get fs (p ++ x) = Some n -> exists m, get fs p = Some m.
Proof.
  rewrite get_app. destruct (get fs p) as [m | ]; [eauto | discriminate].
Qed.

(** The directory of the new name, once the old name is deleted. *)
Lemma get_del_parent fs qa na D r ents name :
  get fs D = Some (Dir r ents) ->
  lookup ents name = None ->
  get fs qa = Some na ->
  is_prefix qa (D ++ [name]) = false ->
  exists ents',
    get (del qa fs) D = Some (Dir r ents') /\ lookup ents' name = None.
Proof.
  intros G L Ga N.
  destruct (is_prefix D qa) eqn:B.
  - apply is_prefix_spec in B. destruct B as [x ->].
    destruct x as [ | a x].
    + rewrite app_nil_r, is_prefix_app in N. discriminate N.
    + unfold del.
      rewrite (@get_alter_below (fun _ => None) (a :: x) D fs (Dir r ents))
        by (discriminate || exact G).
      simpl. eexists. split; [reflexivity | ].
      rewrite lookup_alter_entry_other; [exact L | ]. intros ->.
      rewrite get_app, G in Ga. simpl in Ga. rewrite L in Ga.
      discriminate Ga.
  - assert (B' : is_prefix qa D = false).
    { destruct (is_prefix qa D) eqn:B'; [ | reflexivity].
      rewrite (is_prefix_trans _ _ _ B' (is_prefix_app D [name])) in N.
      discriminate N. }
    unfold del. rewrite get_alter_other by assumption. eauto.
Qed.

(** The conversion in the mode [move] of an entry that is no link, to a
    target root that has nothing under the name of the entry and is not
    inside the entry. *)
Lemma move_run s td cr w qa na rtd r ents :
  lstat (w_fs w) (skill_path s) = Ok (qa, na) ->
  st_isSymbolicLink na = false ->
  qa <> [] ->
  stat (w_fs w) td = Ok (rtd, Dir r ents) ->
  lookup ents (skill_name s) = None ->
  is_prefix qa (rtd ++ [skill_name s]) = false ->
  convertSkill s td move cr w =
  (Succeed (mkResult s true moved (path_join td (skill_name s)) None),
   with_fs w (put (rtd ++ [skill_name s]) na (del qa (w_fs w)))).
Proof.
  intros Hs Hn Hq St L N.
  unfold convertSkill, Effect_try, convertSkill_body. cbv zeta.
  assert (T : targetExists (w_fs w) (path_join td (skill_name s)) = false).
  { unfold targetExists, lstatSync, lstat.
    rewrite (@stat_no_child (w_fs w) td rtd r ents (skill_name s) true St L).
    reflexivity. }
  unfold bind at 1. unfold observe at 1. rewrite T.
  assert (E : ensureDir td w = (Ok tt, w)).
  { unfold ensureDir, bind, observe, existsSync. rewrite St. reflexivity. }
  unfold bind at 1. rewrite E.
  unfold executeMode. unfold bind at 1. unfold bind at 1.
  unfold reading at 1. unfold lstatSync. rewrite Hs. simpl res_bind.
  cbv beta iota. rewrite Hn.
  unfold renameSync. rewrite Hs, slot_join, St, L.
  destruct qa as [ | a qa']; [contradiction | ].
  assert (Ne : path_eqb (a :: qa') (rtd ++ [skill_name s]) = false).
  { unfold path_eqb.
    destruct (list_eq_dec string_dec (a :: qa') (rtd ++ [skill_name s]))
      as [E' | ]; [ | reflexivity].
    rewrite E', is_prefix_refl in N. discriminate N. }
  rewrite Ne, N.
  destruct na as [m c | r0 e0 | t]; reflexivity.
Qed.

(** The same conversion to a target root inside the entry: [rename]
    refuses. *)
Lemma move_inside_run s td cr w qa na rtd r ents :
  lstat (w_fs w) (skill_path s) = Ok (qa, na) ->
  st_isSymbolicLink na = false ->
  qa <> [] ->
  stat (w_fs w) td = Ok (rtd, Dir r ents) ->
  lookup ents (skill_name s) = None ->
  is_prefix qa (rtd ++ [skill_name s]) = true ->
  convertSkill s td move cr w =
  (Failure
     (mkError (String.append "Failed to convert skill "
                 (String.append (skill_name s)
                    (String.append ": " (show_exn EINVAL))))),
   w).
Proof.
  intros Hs Hn Hq St L N.
  unfold convertSkill, Effect_try, convertSkill_body. cbv zeta.
  assert (T : targetExists (w_fs w) (path_join td (skill_name s)) = false).
  { unfold targetExists, lstatSync, lstat.
    rewrite (@stat_no_child (w_fs w) td rtd r ents (skill_name s) true St L).
    reflexivity. }
  unfold bind at 1. unfold observe at 1. rewrite T.
  assert (E : ensureDir td w = (Ok tt, w)).
  { unfold ensureDir, bind, observe, existsSync. rewrite St. reflexivity. }
  unfold bind at 1. rewrite E.
  unfold executeMode. unfold bind at 1. unfold bind at 1.
  unfold reading at 1. unfold lstatSync. rewrite Hs. simpl res_bind.
  cbv beta iota. rewrite Hn.
  unfold renameSync. rewrite Hs, slot_join, St, L.
  destruct qa as [ | a qa']; [contradiction | ].
  assert (Ne : path_eqb (a :: qa') (rtd ++ [skill_name s]) = false).
  { unfold path_eqb.
    destruct (list_eq_dec string_dec (a :: qa') (rtd ++ [skill_name s]))
      as [E' | ]; [ | reflexivity].
    pose proof (walk_Ok_get _ _ _ _ _ Hs) as Ga.
    pose proof (walk_Ok_get _ _ _ _ _ St) as Gd.
    rewrite E', get_snoc, Gd in Ga. simpl in Ga. rewrite L in Ga.
    discriminate Ga. }
  rewrite Ne, N. reflexivity.
Qed.

(** In the mode [move], an entry that is no link, with a target root that
    has nothing under its name: when the target root is not inside the
    entry, the conversion moves the entry, so that its tree is at the
    target path, nothing is left at the place it had, and every place that
    is neither above nor below one of the two is as it was; when the
    target root is inside the entry, the conversion fails with the error
    of [rename] and changes nothing. *)
Theorem move_relocates_the_entry :
  forall s targetDir cr w qa na rtd r ents,
    wf_node (w_fs w) = true ->
    lstat (w_fs w) (skill_path s) = Ok (qa, na) ->
    st_isSymbolicLink na = false ->
    qa <> [] ->
    stat (w_fs w) targetDir = Ok (rtd, Dir r ents) ->
    lookup ents (skill_name s) = None ->
    let target := path_join targetDir (skill_name s) in
    let qb := rtd ++ [skill_name s] in
    let run := convertSkill s targetDir move cr w in
    (is_prefix qa qb = false ->
     fst run = Succeed (mkResult s true moved target None) /\
     get (w_fs (snd run)) qb = Some na /\
     get (w_fs (snd run)) qa = None /\
     (forall p,
        is_prefix p qa = false -> is_prefix qa p = false ->
        is_prefix p qb = false -> is_prefix qb p = false ->
        get (w_fs (snd run)) p = get (w_fs w) p)) /\
    (is_prefix qa qb = true ->
     fst run =
       Failure
         (mkError (String.append "Failed to convert skill "
                     (String.append (skill_name s)
                        (String.append ": " (show_exn EINVAL))))) /\
     snd run = w).
Proof.
  intros s td cr w qa na rtd r ents W Hs Hn Hq St L target qb run.
  subst target qb run. split; intros N.
  - rewrite (@move_run s td cr w qa na rtd r ents Hs Hn Hq St L N).
    unfold with_fs. cbn [fst snd w_fs].
    pose proof (walk_Ok_get _ _ _ _ _ Hs) as Ga.
    pose proof (walk_Ok_get _ _ _ _ _ St) as Gd.
    destruct (@get_del_parent (w_fs w) qa na rtd r ents (skill_name s)
                Gd L Ga N) as (ents' & Gd' & L').
    split; [reflexivity | ]. split; [ | split].
    + eapply get_put_new; eassumption.
    + unfold put. rewrite get_alter_other.
      * eapply get_del_self; eassumption.
      * destruct (is_prefix (rtd ++ [skill_name s]) qa) eqn:B;
          [ | reflexivity].
        apply is_prefix_spec in B. destruct B as [x B].
        rewrite B in Ga. apply get_prefix in Ga. destruct Ga as [m Ga].
        rewrite get_snoc, Gd in Ga. simpl in Ga. rewrite L in Ga.
        discriminate Ga.
      * exact N.
    + intros p P1 P2 P3 P4. unfold put, del.
      rewrite !get_alter_other by assumption. reflexivity.
  - rewrite (@move_inside_run s td cr w qa na rtd r ents Hs Hn Hq St L N).
    split; reflexivity.
Qed.

Lemma move_relocates_the_entry_witness :
  let run := convertSkill Sample.real ["tgt"] move skip Sample.world0 in
  fst run = Succeed (mkResult Sample.real true moved ["tgt"; "real"] None) /\
  get (w_fs (snd run)) ["tgt"; "real"] =
    Some (Dir true
            [("SKILL.md", File 420 Sample.skill_md);
             ("run.sh", File 493 "#!/bin/sh")]) /\
  get (w_fs (snd run)) ["src"; "real"] = None.
Proof.
  intros run.
  destruct (@move_relocates_the_entry Sample.real ["tgt"] skip Sample.world0
              ["src"; "real"] _ ["tgt"] true []
              eq_refl eq_refl eq_refl ltac:(discriminate) eq_refl eq_refl)
    as [H _].
  destruct (H eq_refl) as (H1 & H2 & H3 & _).
  split; [exact H1 | split; [exact H2 | exact H3]].
Defined.

(** ** Trees that only grow *)

Lemma keeps_refl n : keeps n n.
Proof. destruct n; simpl; eauto. Qed.

Lemma keeps_trans a b c : keeps a b -> keeps b c -> keeps a c.
Proof.
  destruct a; simpl.
  - intros ->. simpl. auto.
  - intros [e ->]. simpl. auto.
  - intros ->. simpl. auto.
Qed.

Lemma keeps_skel n n' : keeps n n' -> skel n' = skel n.
Proof. destruct n; simpl; [intros -> | intros [e ->] | intros ->]; reflexivity. Qed.

Lemma grows_refl fs : grows fs fs.
Proof. intros p n G. exists n. split; [exact G | apply keeps_refl]. Qed.

Lemma grows_trans a b c : grows a b -> grows b c -> grows a c.
Proof.
  intros H1 H2 p n G. destruct (H1 _ _ G) as (n1 & G1 & K1).
  destruct (H2 _ _ G1) as (n2 & G2 & K2).
  exists n2. split; [exact G2 | eapply keeps_trans; eassumption].
Qed.

(** A new node where there was none makes the tree grow. *)
Lemma put_fresh_grows c L root :
  get root L = None -> grows root (put L c root).
Proof.
  intros Fresh q n G.
  destruct (is_prefix q L) eqn:A.
  - apply is_prefix_spec in A. destruct A as [x ->].
    destruct x as [ | a x].
    + rewrite app_nil_r, G in Fresh. discriminate Fresh.
    + unfold put.
      rewrite (@get_alter_below (fun _ => Some c) (a :: x) q root n)
        by (discriminate || exact G).
      eexists. split; [reflexivity | ].
      destruct n; simpl; eauto.
  - destruct (is_prefix L q) eqn:B.
    + apply is_prefix_spec in B. destruct B as [y ->].
      apply get_prefix in G. destruct G as [m G].
      rewrite G in Fresh. discriminate Fresh.
    + unfold put. rewrite get_alter_other by assumption.
      exists n. split; [exact G | apply keeps_refl].
Qed.

(** Resolution in a tree that has grown. *)
Lemma grows_walk fs fs1 fuel b p n cur rest :
  grows fs fs1 ->
  walk fuel fs cur rest b = Ok (p, n) ->
  exists n', walk fuel fs1 cur rest b = Ok (p, n') /\ keeps n n'.
Proof.
  intros Gr W.
  assert (Ext : forall q m, get fs q = Some m ->
                  exists m', get fs1 q = Some m' /\ skel m' = skel m).
  { intros q m G. destruct (Gr _ _ G) as (m' & G' & K).
    exists m'. split; [exact G' | apply keeps_skel; exact K]. }
  destruct (@walk_extends fs fs1 Ext fuel b p n cur rest W) as (n' & W' & _).
  exists n'. split; [exact W' | ].
  apply walk_Ok_get in W. apply walk_Ok_get in W'.
  destruct (Gr _ _ W) as (n'' & G'' & K). rewrite W' in G''.
  injection G'' as <-. exact K.
Qed.

Lemma grows_exists fs fs1 p :
  grows fs fs1 -> existsSync fs p = true -> existsSync fs1 p = true.
Proof.
  unfold existsSync, stat. intros Gr.
  destruct (walk SYMLOOP_MAX fs [] (map Name p) false) as [[q n] | x] eqn:W;
    [ | discriminate].
  destruct (@grows_walk fs fs1 SYMLOOP_MAX false q n [] (map Name p) Gr W)
    as (n' & -> & _).
  reflexivity.
Qed.

(** The path of a new node that is no link resolves to it. *)
Lemma stat_after_put_new fs D rp r ents s c :
  stat fs D = Ok (rp, Dir r ents) ->
  lookup ents s = None ->
  st_isSymbolicLink c = false ->
  stat (put (rp ++ [s]) c fs) (D ++ [s]) = Ok (rp ++ [s], c).
Proof.
  intros St L Hc.
  pose proof (walk_Ok_get _ _ _ _ _ St) as G.
  assert (Fresh : get fs (rp ++ [s]) = None)
    by (rewrite get_snoc, G; exact L).
  destruct (@grows_walk fs (put (rp ++ [s]) c fs) SYMLOOP_MAX false rp
              (Dir r ents) [] (map Name D)
              (@put_fresh_grows c (rp ++ [s]) fs Fresh) St) as (n' & W' & _).
  pose proof (@get_put_new c s rp fs r ents G L) as New.
  remember (put (rp ++ [s]) c fs) as fs1 eqn:Efs1. clear Efs1.
  unfold stat. rewrite map_app. change (map Name [s]) with [Name s].
  eapply walk_snoc_Ok; [exact W' | ].
  pose proof New as New'. rewrite get_snoc in New'. simpl.
  destruct (get fs1 rp) as [[ | r' ents' | ] | ]; try discriminate New'.
  simpl in New'. rewrite New'.
  destruct c as [m c0 | r0 e0 | t]; try discriminate Hc;
    simpl; rewrite New; reflexivity.
Qed.

(** ** Making a directory *)

Lemma mkdir1_inv pre s w res w' :
  mkdir1 (pre ++ [s]) w = (res, w') ->
  (exists x, res = Throw x /\ w' = w) \/
  (exists rp r ents,
     res = Ok tt /\
     stat (w_fs w) pre = Ok (rp, Dir r ents) /\
     lookup ents s = None /\
     w' = with_fs w (put (rp ++ [s]) (Dir true []) (w_fs w))).
Proof.
  unfold mkdir1. change (pre ++ [s]) with (path_join pre s).
  rewrite slot_join.
  destruct (stat (w_fs w) pre) as [[rp [m c | r ents | t]] | x] eqn:St;
    try (intros H; injection H as <- <-; left; eauto).
  destruct (lookup ents s) eqn:L; intros H; injection H as <- <-;
    [left; eauto | ].
  right. exists rp, r, ents. auto.
Qed.

(** Whatever [mkdir] does, the tree only grows, and the clock is not
    read. *)
Lemma mkdirp_grows : forall rest pre w res w',
  mkdirp pre rest w = (res, w') ->
  grows (w_fs w) (w_fs w') /\ w_clock w' = w_clock w.
Proof.
  induction rest as [ | s rest IH]; intros pre w res w'; simpl.
  - intros H. injection H as <- <-. split; [apply grows_refl | reflexivity].
  - assert (Same : forall (x : exn), (Throw x : Res unit, w) = (res, w') ->
                     grows (w_fs w) (w_fs w') /\ w_clock w' = w_clock w).
    { intros x H. injection H as <- <-.
      split; [apply grows_refl | reflexivity]. }
    destruct (stat (w_fs w) (pre ++ [s])) as [[q [m c | r ents | t]] | x];
      try (apply Same); try apply IH.
    destruct x as [[] | msg]; try (apply Same).
    unfold bind.
    destruct (mkdir1 (pre ++ [s]) w) as [[[] | x] w1] eqn:M;
      apply mkdir1_inv in M;
      destruct M as [(x' & E & ->) | (rp & r & ents & E & St & L & ->)];
      try discriminate E.
    + intros H. apply IH in H. simpl in H. destruct H as [H1 H2].
      split; [ | exact H2].
      eapply grows_trans; [ | exact H1].
      apply put_fresh_grows.
      apply walk_Ok_get in St. rewrite get_snoc, St. exact L.
    + apply Same.
Qed.

(** When [mkdir] returns, the path resolves to a directory. *)
Lemma mkdirp_creates : forall rest pre w w',
  rest <> [] ->
  mkdirp pre rest w = (Ok tt, w') ->
  exists q r ents, stat (w_fs w') (pre ++ rest) = Ok (q, Dir r ents).
Proof.
  induction rest as [ | s rest IH]; intros pre w w' N; [contradiction | ].
  assert (Next : forall w1,
            (exists q r ents,
               stat (w_fs w1) (pre ++ [s]) = Ok (q, Dir r ents)) ->
            mkdirp (pre ++ [s]) rest w1 = (Ok tt, w') ->
            exists q r ents,
              stat (w_fs w') (pre ++ s :: rest) = Ok (q, Dir r ents)).
  { intros w1 Here H. destruct rest as [ | s' rest'].
    - simpl in H. injection H as <-. exact Here.
    - apply IH in H; [ | discriminate].
      rewrite <- app_assoc in H. exact H. }
  simpl.
  destruct (stat (w_fs w) (pre ++ [s])) as [[q [m c | r ents | t]] | x]
    eqn:St; try discriminate.
  - apply Next. eauto.
  - destruct x as [[] | msg]; try discriminate.
    unfold bind.
    destruct (mkdir1 (pre ++ [s]) w) as [[[] | x] w1] eqn:M;
      [ | discriminate].
    apply mkdir1_inv in M.
    destruct M as [(x' & E & _) | (rp & r & ents & _ & Sp & L & ->)];
      [discriminate E | ].
    apply Next. simpl.
    rewrite (@stat_after_put_new (w_fs w) pre rp r ents s (Dir true [])
               Sp L eq_refl).
    eauto.
Qed.

(** [ensureDir] does nothing to a path that resolves.  Otherwise it makes
    the directories that are missing: when it returns, the path resolves
    to a directory.  Whether it returns or throws, it only adds to the
    tree: every file and every link is as it was, every directory is still
    one. *)
Theorem ensureDir_only_adds_directories :
  forall dir w,
    (existsSync (w_fs w) dir = true -> ensureDir dir w = (Ok tt, w)) /\
    (forall res w',
       ensureDir dir w = (res, w') ->
       grows (w_fs w) (w_fs w') /\
       w_clock w' = w_clock w /\
       (res = Ok tt ->
        existsSync (w_fs w') dir = true /\
        (existsSync (w_fs w) dir = false ->
         directoryExists (w_fs w') dir = true))).
Proof.
  intros dir w. unfold ensureDir, bind, observe. split.
  - intros ->. reflexivity.
  - intros res w'. destruct (existsSync (w_fs w) dir) eqn:E; simpl.
    + intros H. injection H as <- <-.
      split; [apply grows_refl | ]. split; [reflexivity | ].
      intros _. split; [exact E | discriminate].
    + unfold mkdirSync_recursive. intros H.
      destruct (mkdirp_grows _ _ _ H) as [Gr Ck].
      split; [exact Gr | ]. split; [exact Ck | ].
      intros ->.
      assert (N : dir <> []) by (intros ->; discriminate E).
      destruct (@mkdirp_creates dir [] w w' N H) as (q & r & ents & St).
      simpl in St.
      split; [unfold existsSync; rewrite St; reflexivity | ].
      intros _. apply directoryExists_spec. eauto.
Qed.

Lemma ensureDir_only_adds_directories_witness :
  let w' := snd (ensureDir ["tgt"; "a"; "b"] Sample.world0) in
  directoryExists (w_fs w') ["tgt"; "a"; "b"] = true /\
  grows Sample.tree (w_fs w').
Proof.
  intros w'.
  destruct (proj2 (ensureDir_only_adds_directories ["tgt"; "a"; "b"]
                     Sample.world0) _ _ eq_refl) as (Gr & _ & H).
  destruct (H eq_refl) as [_ D].
  split; [apply D; reflexivity | exact Gr].
Defined.

(** ** Putting nodes one after the other *)

Lemma alter_entry_append a c : forall ents,
  lookup ents a = None ->
  alter_entry a (fun _ => Some c) ents = ents ++ [(a, c)].
Proof.
  induction ents as [ | [k c0] tl IH]; simpl; [reflexivity | ].
  destruct (String.eqb k a); [discriminate | ].
  intros H. rewrite IH by exact H. reflexivity.
Qed.

Lemma alter_entry_at a g1 g2 c : forall ents,
  lookup ents a = Some c -> g1 (Some c) = g2 (Some c) ->
  alter_entry a g1 ents = alter_entry a g2 ents.
Proof.
  induction ents as [ | [k c0] tl IH]; simpl; [discriminate | ].
  destruct (String.eqb k a).
  - intros H E. injection H as ->. rewrite E. reflexivity.
  - intros H E. rewrite IH by assumption. reflexivity.
Qed.

Lemma alter_entry_id a g c : forall ents,
  lookup ents a = Some c -> g (Some c) = Some c ->
  alter_entry a g ents = ents.
Proof.
  induction ents as [ | [k c0] tl IH]; simpl; [discriminate | ].
  destruct (String.eqb k a).
  - intros H E. injection H as ->. rewrite E. reflexivity.
  - intros H E. rewrite IH by assumption. reflexivity.
Qed.

Lemma alter_cons_snoc f a D k r ents :
  alter f (a :: D ++ [k]) (Dir r ents) =
  Dir r (alter_entry a (option_map (alter f (D ++ [k]))) ents).
Proof.
  simpl. destruct (D ++ [k]) as [ | x y] eqn:E; [ | reflexivity].
  apply app_eq_nil in E. destruct E as [_ E]. discriminate E.
Qed.

(** A new entry of a directory, as a new directory. *)
Lemma put_child c k : forall D fs r l,
  get fs D = Some (Dir r l) ->
  lookup l k = None ->
  put (D ++ [k]) c fs = put D (Dir r (l ++ [(k, c)])) fs.
Proof.
  induction D as [ | a D IH]; intros fs r l G L.
  - simpl in G. injection G as ->. unfold put. simpl.
    rewrite alter_entry_append by exact L. reflexivity.
  - destruct fs as [m c0 | r0 e0 | t]; try discriminate G.
    simpl in G. destruct (lookup e0 a) as [ch | ] eqn:La; [ | discriminate G].
    unfold put. simpl app. rewrite alter_cons_snoc. simpl alter. f_equal.
    apply (alter_entry_at a _ _ e0 La).
    simpl option_map. fold (put (D ++ [k]) c ch).
    rewrite (IH ch r l G L).
    destruct D; reflexivity.
Qed.

Lemma alter_cons f a p r ents :
  alter f (a :: p) (Dir r ents) =
  Dir r (alter_entry a
           (fun o => match p with
                     | [] => f o
                     | _ :: _ => option_map (alter f p) o
                     end) ents).
Proof. reflexivity. Qed.

Lemma alter_entry_twice a g g' : forall ents,
  (forall o, match g' o with
             | Some c' => g (Some c') = g o
             | None => o = None
             end) ->
  alter_entry a g (alter_entry a g' ents) = alter_entry a g ents.
Proof.
  intros ents H. induction ents as [ | [k c] tl IH]; simpl.
  - specialize (H None). destruct (g' None) as [c' | ]; [ | reflexivity].
    simpl. rewrite String.eqb_refl, H. reflexivity.
  - destruct (String.eqb k a) eqn:Ka.
    + specialize (H (Some c)).
      destruct (g' (Some c)) as [c' | ]; [ | discriminate H].
      simpl. rewrite Ka, H. reflexivity.
    + simpl. rewrite Ka, IH. reflexivity.
Qed.

Lemma put_put X Y : forall p fs, put p X (put p Y fs) = put p X fs.
Proof.
  induction p as [ | a p IH]; intros fs; [reflexivity | ].
  destruct fs as [m c0 | r0 e0 | t]; try reflexivity.
  unfold put in *. rewrite !alter_cons. f_equal.
  apply alter_entry_twice. intros o.
  destruct p as [ | b p']; [reflexivity | ].
  destruct o as [n | ]; [ | reflexivity].
  cbn [option_map]. f_equal. apply IH.
Qed.

Lemma put_get_id : forall q fs c, get fs q = Some c -> put q c fs = fs.
Proof.
  induction q as [ | a q IH]; intros fs c G.
  - simpl in G. injection G as ->. reflexivity.
  - destruct fs as [m c0 | r0 e0 | t]; try discriminate G.
    simpl in G. destruct (lookup e0 a) as [ch | ] eqn:La; [ | discriminate G].
    unfold put. simpl alter. f_equal.
    apply (alter_entry_id a _ e0 La).
    destruct q as [ | b q'].
    + simpl in G. symmetry. exact G.
    + simpl option_map. f_equal. apply (IH ch c G).
Qed.

Lemma get_prefix_Dir fs p x r e :
  get fs (p ++ x) = Some (Dir r e) ->
  exists r' e', get fs p = Some (Dir r' e').
Proof.
  rewrite get_app.
  destruct (get fs p) as [n | ]; [ | discriminate].
  destruct x as [ | a x]; simpl; [intros H; injection H as ->; eauto | ].
  destruct n as [m c | r' e' | t]; simpl; try discriminate. eauto.
Qed.

(** Two places of which none is above the other, one level down. *)
Lemma apart_snoc p q a b :
  is_prefix p q = false -> is_prefix q p = false ->
  is_prefix (p ++ [a]) (q ++ [b]) = false.
Proof.
  intros H1 H2. destruct (is_prefix (p ++ [a]) (q ++ [b])) eqn:E;
    [ | reflexivity].
  apply is_prefix_spec in E. destruct E as [x E].
  destruct (exists_last_or_nil x) as [-> | (x' & z & ->)].
  - rewrite app_nil_r in E. apply app_inj_tail in E. destruct E as [-> _].
    rewrite is_prefix_refl in H1. discriminate H1.
  - rewrite !app_assoc in E. apply app_inj_tail in E. destruct E as [-> _].
    rewrite <- app_assoc, is_prefix_app in H1. discriminate H1.
Qed.

Lemma apart_below p q a :
  is_prefix p q = false -> is_prefix q p = false ->
  is_prefix q (p ++ [a]) = false.
Proof.
  intros H1 H2. destruct (is_prefix q (p ++ [a])) eqn:E; [ | reflexivity].
  apply is_prefix_spec in E. destruct E as [x E].
  destruct (exists_last_or_nil x) as [-> | (x' & z & ->)].
  - rewrite app_nil_r in E. subst q.
    rewrite is_prefix_app in H1. discriminate H1.
  - rewrite app_assoc in E. apply app_inj_tail in E. destruct E as [-> _].
    rewrite is_prefix_app in H2. discriminate H2.
Qed.

(** ** Copying a tree *)

Lemma copyable_Dir r ents :
  copyable (Dir r ents) = true ->
  r = true /\ forall s c, In (s, c) ents -> copyable c = true.
Proof.
  simpl. intros H. apply andb_prop in H. destruct H as [R A].
  split; [exact R | ].
  induction ents as [ | [k c0] tl IH]; [intros s c [] | ].
  apply andb_prop in A. destruct A as [A1 A2].
  intros s c [H | H]; [injection H as _ <-; exact A1 | ].
  eapply IH; eassumption.
Qed.

Lemma names_unique_app_None done k c rest :
  names_unique (map fst (done ++ (k, c) :: rest)) = true ->
  lookup done k = None.
Proof.
  induction done as [ | [k0 c0] tl IH]; simpl; [reflexivity | ].
  intros U. apply andb_prop in U. destruct U as [U1 U2].
  destruct (String.eqb k0 k) eqn:E; [ | apply IH; exact U2].
  apply String.eqb_eq in E. subst k0. apply negb_true_iff in U1.
  rewrite map_app, existsb_app in U1. simpl in U1.
  rewrite String.eqb_refl, orb_true_r in U1. discriminate U1.
Qed.

(** Nothing is below a place that is not there. *)
Lemma fresh_not_above fs p q n :
  get fs p = None -> get fs q = Some n -> is_prefix p q = false.
Proof.
  intros F G. destruct (is_prefix p q) eqn:E; [ | reflexivity].
  apply is_prefix_spec in E. destruct E as [x ->].
  apply get_prefix in G. destruct G as [m G]. rewrite G in F.
  discriminate F.
Qed.

(** [mkdir -p] of a new name in a directory of the tree. *)
Lemma mkdirp_plain w D r ents name : forall rest pre,
  pre ++ rest = D ->
  get (w_fs w) D = Some (Dir r ents) ->
  lookup ents name = None ->
  mkdirp pre (rest ++ [name]) w =
  (Ok tt, with_fs w (put (D ++ [name]) (Dir true []) (w_fs w))).
Proof.
  induction rest as [ | s rest IH]; intros pre E G L.
  - rewrite app_nil_r in E. subst pre. simpl.
    assert (St : stat (w_fs w) D = Ok (D, Dir r ents))
      by (apply stat_get; [exact G | reflexivity]).
    pose proof (@stat_no_child (w_fs w) D D r ents name false St L) as No.
    unfold stat at 1. unfold path_join in No. rewrite No.
    unfold bind, mkdir1. change (D ++ [name]) with (path_join D name).
    rewrite slot_join, St, L. reflexivity.
  - assert (E' : (pre ++ [s]) ++ rest = D)
      by (rewrite <- app_assoc; exact E).
    pose proof G as G'. rewrite <- E' in G'.
    apply get_prefix_Dir in G'. destruct G' as (r' & e' & G').
    simpl. rewrite (@stat_get (w_fs w) (pre ++ [s]) (Dir r' e') G' eq_refl).
    apply IH; assumption.
Qed.

Lemma copyDir_S d src dest :
  copyDir (S d) src dest =
  (ensureDir dest ;;;
   entries <- reading (fun fs => readdirSync fs src) ;;
   for_each entries (fun entry =>
     let srcPath := path_join src (fst entry) in
     let destPath := path_join dest (fst entry) in
     if isDirectory (snd entry) then copyDir d srcPath destPath
     else if isSymbolicLink (snd entry) then
       linkTarget <- reading (fun fs => readlinkSync fs srcPath) ;;
       symlinkSync linkTarget destPath
     else
       copyFileSync srcPath destPath ;;;
       stats <- reading (fun fs => statSync fs srcPath) ;;
       if negb (Z.eqb (Z.land (st_mode stats) 73) 0)
       then chmodSync destPath (st_mode stats)
       else ret tt)).
Proof. reflexivity. Qed.

(** One turn of the loop of [copyDir], on the entry [k] of the source. *)
Lemma copy_entry d src dest wk done k c :
  copies d ->
  height c < d -> wf_node c = true -> copyable c = true ->
  get (w_fs wk) dest = Some (Dir true done) ->
  lookup done k = None ->
  get (w_fs wk) (src ++ [k]) = Some c ->
  is_prefix (src ++ [k]) (dest ++ [k]) = false ->
  (let srcPath := path_join src k in
   let destPath := path_join dest k in
   if isDirectory (kind_of c) then copyDir d srcPath destPath
   else if isSymbolicLink (kind_of c) then
     linkTarget <- reading (fun fs => readlinkSync fs srcPath) ;;
     symlinkSync linkTarget destPath
   else
     copyFileSync srcPath destPath ;;;
     stats <- reading (fun fs => statSync fs srcPath) ;;
     if negb (Z.eqb (Z.land (st_mode stats) 73) 0)
     then chmodSync destPath (st_mode stats)
     else ret tt) wk =
  (Ok tt, with_fs wk (put (dest ++ [k]) c (w_fs wk))).
Proof.
  intros IH Hh Hw Hc Gd Lk Gs Ap. cbv zeta. unfold path_join.
  assert (Sd : stat (w_fs wk) dest = Ok (dest, Dir true done))
    by (apply stat_get; [exact Gd | reflexivity]).
  assert (Fresh : get (w_fs wk) (dest ++ [k]) = None)
    by (rewrite get_snoc, Gd; exact Lk).
  destruct c as [m c0 | r0 e0 | t];
    cbn [kind_of isDirectory isSymbolicLink].
  - (* a file *)
    assert (Ss : stat (w_fs wk) (src ++ [k]) = Ok (src ++ [k], File m c0))
      by (apply stat_get; [exact Gs | reflexivity]).
    pose proof (@stat_no_child (w_fs wk) dest dest true done k false Sd Lk)
      as No.
    unfold path_join in No. fold (stat (w_fs wk) (dest ++ [k])) in No.
    assert (C : copyFileSync (src ++ [k]) (dest ++ [k]) wk =
                (Ok tt, with_fs wk (put (dest ++ [k]) (File m c0) (w_fs wk)))).
    { unfold copyFileSync. cbv zeta. rewrite Ss, No.
      change (dest ++ [k]) with (path_join dest k).
      rewrite slot_join, Sd, Lk. reflexivity. }
    unfold bind at 1. rewrite C.
    remember (put (dest ++ [k]) (File m c0) (w_fs wk)) as fs1 eqn:Efs1.
    assert (G1s : get fs1 (src ++ [k]) = Some (File m c0)).
    { rewrite Efs1. unfold put. rewrite get_alter_other; [exact Gs | | exact Ap].
      eapply fresh_not_above; eassumption. }
    assert (G1d : get fs1 (dest ++ [k]) = Some (File m c0))
      by (rewrite Efs1; eapply get_put_new; eassumption).
    unfold bind at 1. unfold reading at 1. unfold statSync at 1.
    unfold with_fs at 1. cbn [w_fs].
    rewrite (@stat_get fs1 (src ++ [k]) (File m c0) G1s eq_refl).
    cbn [res_bind snd st_mode].
    destruct (negb (Z.eqb (Z.land m 73) 0)); [ | reflexivity].
    unfold chmodSync. cbv zeta. unfold with_fs at 1. cbn [w_fs].
    rewrite (@stat_get fs1 (dest ++ [k]) (File m c0) G1d eq_refl).
    unfold with_fs. cbn [w_fs w_clock].
    rewrite (put_get_id _ _ G1d). reflexivity.
  - (* a directory *)
    apply (IH (Dir r0 e0) (src ++ [k]) dest k wk true done); auto.
  - (* a link *)
    unfold bind, reading, readlinkSync.
    rewrite (@lstat_get (w_fs wk) (src ++ [k]) (Symlink t) Gs).
    unfold symlinkSync. simpl in Hc. apply negb_true_iff in Hc. rewrite Hc.
    change (dest ++ [k]) with (path_join dest k).
    rewrite slot_join, Sd, Lk. reflexivity.
Qed.

Lemma for_each_cons A (x : A) tl body :
  for_each (x :: tl) body = (body x ;;; for_each tl body).
Proof. reflexivity. Qed.

(** The loop of [copyDir] over the entries that are left, when the entries
    [done] are copied. *)
Lemma copy_loop d src D name fs0 w rD eD ents :
  copies d ->
  height (Dir true ents) < S d ->
  wf_node (Dir true ents) = true ->
  copyable (Dir true ents) = true ->
  get fs0 src = Some (Dir true ents) ->
  get fs0 D = Some (Dir rD eD) ->
  lookup eD name = None ->
  is_prefix src (D ++ [name]) = false ->
  forall rest done,
    ents = done ++ rest ->
    for_each (dirents rest) (fun entry =>
      let srcPath := path_join src (fst entry) in
      let destPath := path_join (D ++ [name]) (fst entry) in
      if isDirectory (snd entry) then copyDir d srcPath destPath
      else if isSymbolicLink (snd entry) then
        linkTarget <- reading (fun fs => readlinkSync fs srcPath) ;;
        symlinkSync linkTarget destPath
      else
        copyFileSync srcPath destPath ;;;
        stats <- reading (fun fs => statSync fs srcPath) ;;
        if negb (Z.eqb (Z.land (st_mode stats) 73) 0)
        then chmodSync destPath (st_mode stats)
        else ret tt)
      (with_fs w (put (D ++ [name]) (Dir true done) fs0)) =
    (Ok tt, with_fs w (put (D ++ [name]) (Dir true (done ++ rest)) fs0)).
Proof.
  intros IH Hh Hw Hc Gs Gd L Ap.
  assert (Fresh : get fs0 (D ++ [name]) = None)
    by (rewrite get_snoc, Gd; exact L).
  assert (Ap' : is_prefix (D ++ [name]) src = false)
    by (eapply fresh_not_above; eassumption).
  destruct (@wf_node_Dir true ents Hw) as [U Wc].
  destruct (@copyable_Dir true ents Hc) as [_ Cc].
  induction rest as [ | [k c] rest IHr]; intros done E.
  - rewrite app_nil_r. reflexivity.
  - assert (In_c : In (k, c) ents)
      by (rewrite E; apply in_or_app; right; left; reflexivity).
    assert (Lk : lookup done k = None)
      by (rewrite E in U; eapply names_unique_app_None; exact U).
    assert (Gk : get (put (D ++ [name]) (Dir true done) fs0) (D ++ [name])
                 = Some (Dir true done))
      by (eapply get_put_new; eassumption).
    assert (Gc : get (put (D ++ [name]) (Dir true done) fs0) (src ++ [k])
                 = Some c).
    { unfold put. rewrite get_alter_other.
      - rewrite get_snoc, Gs. simpl. apply names_unique_lookup; assumption.
      - apply apart_below; assumption.
      - destruct (is_prefix (src ++ [k]) (D ++ [name])) eqn:B;
          [ | reflexivity].
        rewrite (is_prefix_trans _ _ _ (is_prefix_app src [k]) B) in Ap.
        discriminate Ap. }
    assert (Hk : height c < d).
    { pose proof (@height_Dir true ents k c In_c) as Hlt. lia. }
    change (dirents ((k, c) :: rest)) with ((k, kind_of c) :: dirents rest).
    rewrite for_each_cons. unfold bind at 1.
    match goal with
    | |- (let (_, _) := ?X in _) = _ =>
        assert (CE : X =
                     (Ok tt,
                      with_fs (with_fs w (put (D ++ [name]) (Dir true done) fs0))
                        (put ((D ++ [name]) ++ [k]) c
                           (put (D ++ [name]) (Dir true done) fs0))))
          by exact (@copy_entry d src (D ++ [name])
                      (with_fs w (put (D ++ [name]) (Dir true done) fs0))
                      done k c IH Hk (Wc _ _ In_c) (Cc _ _ In_c) Gk Lk Gc
                      (@apart_snoc src (D ++ [name]) k k Ap Ap'));
        rewrite CE; clear CE
    end.
    unfold with_fs at 1. cbn [w_fs w_clock].
    rewrite (@put_child c k (D ++ [name]) _ true done Gk Lk), put_put.
    replace (done ++ (k, c) :: rest) with ((done ++ [(k, c)]) ++ rest)
      by (rewrite <- app_assoc; reflexivity).
    apply IHr. rewrite <- app_assoc. exact E.
Qed.

(** [copyDir] puts a copy of a directory of the tree under a new name. *)
Lemma copyDir_copies : forall depth, copies depth.
Proof.
  induction depth as [ | d IH];
    intros N src D name w rD eD Hh Hw Hc Hk Gs Gd L Ap; [lia | ].
  destruct N as [m c0 | r ents | t]; try discriminate Hk.
  destruct (@copyable_Dir r ents Hc) as [-> _].
  assert (Fresh : get (w_fs w) (D ++ [name]) = None)
    by (rewrite get_snoc, Gd; exact L).
  assert (Sd : stat (w_fs w) D = Ok (D, Dir rD eD))
    by (apply stat_get; [exact Gd | reflexivity]).
  assert (E : ensureDir (D ++ [name]) w =
              (Ok tt, with_fs w (put (D ++ [name]) (Dir true []) (w_fs w)))).
  { unfold ensureDir, bind, observe, existsSync.
    pose proof (@stat_no_child (w_fs w) D D rD eD name false Sd L) as No.
    unfold path_join in No. fold (stat (w_fs w) (D ++ [name])) in No.
    rewrite No. simpl. unfold mkdirSync_recursive.
    apply (@mkdirp_plain w D rD eD name D []); auto. }
  rewrite copyDir_S. unfold bind at 1. rewrite E.
  unfold bind at 1. unfold reading at 1. unfold readdirSync.
  unfold with_fs at 1. cbn [w_fs].
  assert (G1 : get (put (D ++ [name]) (Dir true []) (w_fs w)) src
               = Some (Dir true ents)).
  { unfold put. rewrite get_alter_other; [exact Gs | | exact Ap].
    eapply fresh_not_above; eassumption. }
  rewrite (@stat_get _ src (Dir true ents) G1 eq_refl).
  apply (@copy_loop d src D name (w_fs w) w rD eD ents IH Hh Hw Hc Gs Gd L Ap
           ents [] eq_refl).
Qed.




(** ** Removing a tree *)

(** [rm -rf] removes a tree in full exactly when every directory of it
    that is not empty can be listed. *)
Lemma rm_node_removable : forall h n,
  height n < h -> (rm_node n = None <-> removable n = true).
Proof.
  induction h as [ | h IH]; intros n Hh; [lia | ].
  destruct n as [m c | r ents | t]; try (simpl; tauto).
  destruct ents as [ | e tl]; [simpl; rewrite orb_true_r; tauto | ].
  destruct r; [ | simpl; split; discriminate].
  assert (G : forall l,
             (forall s c, In (s, c) l -> height c < h) ->
             (fix rm_entries (l : list (string * node)) :=
                match l with
                | [] => []
                | (s, c) :: tl =>
                    match rm_node c with
                    | None => rm_entries tl
                    | Some c' => (s, c') :: tl
                    end
                end) l = [] <->
             (fix all (l : list (string * node)) : bool :=
                match l with
                | [] => true
                | (_, c) :: tl => removable c && all tl
                end) l = true).
  { induction l as [ | [s c] l' IHl]; intros Hl; [tauto | ].
    assert (Hc : height c < h) by (apply (Hl s); left; reflexivity).
    specialize (IHl (fun s' c' I => Hl s' c' (or_intror I))).
    pose proof (IH c Hc) as Rc.
    destruct (rm_node c) as [c' | ].
    - destruct (removable c); [ | split; discriminate].
      destruct Rc as [_ Rc]. discriminate (Rc eq_refl).
    - rewrite (proj1 Rc eq_refl). exact IHl. }
  specialize (G (e :: tl)
                (fun s c I =>
                   let H := @height_Dir true (e :: tl) s c I in
                   ltac:(lia))).
  change (removable (Dir true (e :: tl)))
    with ((fix all (l : list (string * node)) : bool :=
             match l with
             | [] => true
             | (_, c) :: tl => removable c && all tl
             end) (e :: tl)).
  rewrite <- G.
  change (rm_node (Dir true (e :: tl)))
    with (match (fix rm_entries (l : list (string * node)) :=
                   match l with
                   | [] => []
                   | (s, c) :: tl =>
                       match rm_node c with
                       | None => rm_entries tl
                       | Some c' => (s, c') :: tl
                       end
                   end) (e :: tl) with
          | [] => None
          | remaining => Some (Dir true remaining)
          end).
  destruct ((fix rm_entries (l : list (string * node)) :=
               match l with
               | [] => []
               | (s, c) :: tl =>
                   match rm_node c with
                   | None => rm_entries tl
                   | Some c' => (s, c') :: tl
                   end
               end) (e :: tl)); split; (reflexivity || discriminate).
Qed.

Lemma get_put_here c : forall q fs n,
  get fs q = Some n -> get (put q c fs) q = Some c.
Proof.
  induction q as [ | a q IH]; intros fs n G; [reflexivity | ].
  destruct fs as [m c0 | r0 e0 | t]; try discriminate G.
  simpl in G. destruct (lookup e0 a) as [ch | ] eqn:La; [ | discriminate G].
  unfold put. rewrite alter_cons. simpl get.
  destruct q as [ | b q'].
  - rewrite (lookup_alter_entry_replace a _ e0 La eq_refl). reflexivity.
  - rewrite (lookup_alter_entry_replace a _ e0 La eq_refl).
    apply (IH ch n G).
Qed.

(** [removeDir] of a place of the tree that is no link. *)
Lemma removeDir_run w q n :
  get (w_fs w) q = Some n ->
  st_isSymbolicLink n = false ->
  removeDir q w =
  match rm_node n with
  | None => (Ok tt, with_fs w (del q (w_fs w)))
  | Some n' => (Throw EACCES, with_fs w (put q n' (w_fs w)))
  end.
Proof.
  intros G Hn. unfold removeDir, bind, observe, existsSync.
  rewrite (@stat_get (w_fs w) q n G Hn). simpl.
  unfold rmSync_rf. rewrite (@lstat_get (w_fs w) q n G). reflexivity.
Qed.

(** What the policy [overwrite] comes to, for something at the target path
    that is no link. *)
Lemma overwrite_run s td mode w ro ents n :
  get (w_fs w) td = Some (Dir ro ents) ->
  lookup ents (skill_name s) = Some n ->
  st_isSymbolicLink n = false ->
  resolveConflict s td (td ++ [skill_name s]) overwrite w =
    match rm_node n with
    | None =>
        (Ok None, with_fs w (del (td ++ [skill_name s]) (w_fs w)))
    | Some n' =>
        (Throw EACCES,
         with_fs w (put (td ++ [skill_name s]) n' (w_fs w)))
    end /\
  convertSkill_body s td mode overwrite w =
    match rm_node n with
    | None =>
        (ensureDir td ;;;
         executeMode s (skill_path s) (td ++ [skill_name s]) mode)
          (with_fs w (del (td ++ [skill_name s]) (w_fs w)))
    | Some n' =>
        (Throw EACCES,
         with_fs w (put (td ++ [skill_name s]) n' (w_fs w)))
    end.
Proof.
  intros G L Hn.
  assert (Gt : get (w_fs w) (td ++ [skill_name s]) = Some n)
    by (rewrite get_snoc, G; exact L).
  pose proof (@lstat_get (w_fs w) _ n Gt) as Hl.
  pose proof (@removeDir_run w _ n Gt Hn) as Rm.
  assert (Hr : resolveConflict s td (td ++ [skill_name s]) overwrite w =
               match rm_node n with
               | None =>
                   (Ok None,
                    with_fs w (del (td ++ [skill_name s]) (w_fs w)))
               | Some n' =>
                   (Throw EACCES,
                    with_fs w (put (td ++ [skill_name s]) n' (w_fs w)))
               end).
  { unfold resolveConflict, bind, reading, lstatSync. rewrite Hl.
    simpl res_bind. cbv beta iota. rewrite Hn, Rm.
    destruct (rm_node n); reflexivity. }
  split; [exact Hr | ].
  unfold convertSkill_body. cbv zeta. unfold path_join.
  unfold bind at 1. unfold observe at 1.
  unfold targetExists, lstatSync. rewrite Hl. unfold res_bind.
  cbv beta iota.
  unfold bind at 1. unfold observe at 1. cbv beta iota.
  assert (No : mode_is_symlink mode &&
               isSymlinkTo (w_fs w) (td ++ [skill_name s]) (skill_path s)
               = false).
  { unfold isSymlinkTo, lstatSync. rewrite Hl. simpl. rewrite Hn.
    apply andb_false_r. }
  rewrite No. unfold bind at 1. rewrite Hr.
  destruct (rm_node n); reflexivity.
Qed.

(** With the policy [overwrite] and, at the target path, in a target root
    that is a directory of the tree, something that is no link: when every
    directory of it that is not empty can be listed, the conflict is
    resolved by removing it whole, the conversion goes on from the tree
    without it, and every place that is neither above nor below the
    target path is as it was; otherwise the conversion fails with the
    permission error of the removal, whatever the mode, and something is
    left at the target path. *)
Theorem overwrite_removes_the_directory :
  forall s targetDir mode w ro ents n,
    wf_node (w_fs w) = true ->
    get (w_fs w) targetDir = Some (Dir ro ents) ->
    lookup ents (skill_name s) = Some n ->
    st_isSymbolicLink n = false ->
    let target := path_join targetDir (skill_name s) in
    (removable n = true ->
     let w1 := with_fs w (del target (w_fs w)) in
     resolveConflict s targetDir target overwrite w = (Ok None, w1) /\
     convertSkill_body s targetDir mode overwrite w =
       (ensureDir targetDir ;;;
        executeMode s (skill_path s) target mode) w1 /\
     get (w_fs w1) target = None /\
     (forall p,
        is_prefix target p = false -> is_prefix p target = false ->
        get (w_fs w1) p = get (w_fs w) p)) /\
    (removable n = false ->
     let run := convertSkill s targetDir mode overwrite w in
     fst run =
       Failure
         (mkError (String.append "Failed to convert skill "
                     (String.append (skill_name s)
                        (String.append ": " (show_exn EACCES))))) /\
     exists n', get (w_fs (snd run)) target = Some n').
Proof.
  intros s td mode w ro ents n W G L Hn target. subst target.
  unfold path_join.
  assert (Gt : get (w_fs w) (td ++ [skill_name s]) = Some n)
    by (rewrite get_snoc, G; exact L).
  destruct (@overwrite_run s td mode w ro ents n G L Hn) as [Hr Hb].
  pose proof (@rm_node_removable (S (height n)) n (Nat.lt_succ_diag_r _))
    as R.
  split; intros Hrem.
  - rewrite (proj2 R Hrem) in Hr, Hb.
    split; [exact Hr | ]. split; [exact Hb | ].
    unfold with_fs. cbn [w_fs]. split.
    + eapply get_del_self; [exact W | | exact Gt].
      intros E. apply app_eq_nil in E. destruct E as [_ E]. discriminate E.
    + intros p P1 P2. unfold del. apply get_alter_other; assumption.
  - destruct (rm_node n) as [n' | ] eqn:E;
      [ | rewrite (proj1 R eq_refl) in Hrem; discriminate Hrem].
    unfold convertSkill, Effect_try. rewrite Hb. cbn [fst snd].
    split; [reflexivity | ].
    exists n'. unfold with_fs. cbn [w_fs]. eapply get_put_here. exact Gt.
Qed.

Lemma overwrite_removes_the_directory_witness :
  let old := Sample.entry "group" ["tgt"; "group"] None in
  let w1 := with_fs Sample.world0 (del ["src"; "group"] Sample.tree) in
  resolveConflict old ["src"] ["src"; "group"] overwrite Sample.world0
    = (Ok None, w1) /\
  get (w_fs w1) ["src"; "group"] = None /\
  get (w_fs w1) ["src"; "real"; "SKILL.md"]
    = Some (File 420 Sample.skill_md).
Proof.
  intros old w1.
  destruct (@overwrite_removes_the_directory old ["src"] copy Sample.world0
              true _ _ eq_refl eq_refl eq_refl eq_refl) as [H _].
  destruct (H eq_refl) as (H1 & _ & H3 & H4).
  split; [exact H1 | ]. split; [exact H3 | ].
  etransitivity;
    [exact (H4 ["src"; "real"; "SKILL.md"] eq_refl eq_refl) | reflexivity].
Defined.

(** ** Directories that list a name once *)

Lemma wf_node_Dir_intro r ents :
  names_unique (map fst ents) = true ->
  (forall s c, In (s, c) ents -> wf_node c = true) ->
  wf_node (Dir r ents) = true.
Proof.
  intros U A. simpl. rewrite U. simpl.
  clear U. induction ents as [ | [k c] tl IH]; [reflexivity | ].
  rewrite (A k c (or_introl eq_refl)). simpl.
  apply IH. intros s c' I. apply (A s). right. exact I.
Qed.

Lemma lookup_None_not_listed a : forall ents,
  lookup ents a = None -> existsb (String.eqb a) (map fst ents) = false.
Proof.
  induction ents as [ | [k c] tl IH]; simpl; [reflexivity | ].
  destruct (String.eqb k a) eqn:E; [discriminate | ].
  intros H. rewrite String.eqb_sym, E. apply IH. exact H.
Qed.

Lemma names_unique_snoc k : forall names,
  names_unique names = true ->
  existsb (String.eqb k) names = false ->
  names_unique (names ++ [k]) = true.
Proof.
  induction names as [ | s tl IH]; simpl; [reflexivity | ].
  intros U N. apply andb_prop in U. destruct U as [U1 U2].
  apply orb_false_elim in N. destruct N as [N1 N2].
  rewrite existsb_app. simpl. rewrite String.eqb_sym, N1.
  apply negb_true_iff in U1. rewrite U1. simpl. apply IH; assumption.
Qed.

Lemma wf_node_snoc r l k c :
  wf_node (Dir r l) = true -> lookup l k = None -> wf_node c = true ->
  wf_node (Dir r (l ++ [(k, c)])) = true.
Proof.
  intros W L Wc. pose proof (@wf_node_Dir r l W) as [U A].
  apply wf_node_Dir_intro.
  - rewrite map_app. apply names_unique_snoc; [exact U | ].
    apply lookup_None_not_listed. exact L.
  - intros s x I. apply in_app_or in I. destruct I as [I | [I | []]].
    + eapply A. exact I.
    + injection I as _ <-. exact Wc.
Qed.

Lemma alter_entry_replace_spec a g c c' : forall ents,
  lookup ents a = Some c -> g (Some c) = Some c' ->
  map fst (alter_entry a g ents) = map fst ents /\
  (forall s x, In (s, x) (alter_entry a g ents) -> In (s, x) ents \/ x = c').
Proof.
  induction ents as [ | [k c0] tl IH]; simpl; [discriminate | ].
  destruct (String.eqb k a) eqn:Ka.
  - intros H G. injection H as ->. rewrite G. simpl.
    split; [reflexivity | ].
    intros s x [I | I]; [injection I as _ <-; auto | auto].
  - intros H G. destruct (IH H G) as [M I]. simpl. rewrite M.
    split; [reflexivity | ].
    intros s x [E | E]; [auto | ].
    destruct (I s x E); auto.
Qed.

(** Replacing a node of a well-formed tree by a well-formed node. *)
Lemma wf_put_here X : forall D fs n,
  wf_node fs = true -> get fs D = Some n -> wf_node X = true ->
  wf_node (put D X fs) = true.
Proof.
  induction D as [ | a D IH]; intros fs n W G WX; [exact WX | ].
  destruct fs as [m c0 | r0 e0 | t]; try discriminate G.
  simpl in G. destruct (lookup e0 a) as [ch | ] eqn:La; [ | discriminate G].
  unfold put. rewrite alter_cons.
  pose proof (@wf_node_Dir r0 e0 W) as [U A].
  assert (Wch : wf_node ch = true) by (eapply A; apply lookup_In; exact La).
  destruct (@alter_entry_replace_spec a
              (fun o => match D with
                        | [] => Some X
                        | _ :: _ => option_map (alter (fun _ => Some X) D) o
                        end)
              ch (put D X ch) e0 La) as [M I].
  { destruct D; reflexivity. }
  apply wf_node_Dir_intro.
  - rewrite M. exact U.
  - intros s x Hin. destruct (I s x Hin) as [Hin' | ->].
    + eapply A. exact Hin'.
    + apply (IH ch n Wch G WX).
Qed.

(** A new well-formed node under a new name. *)
Lemma wf_put_new c k D fs r l :
  wf_node fs = true -> get fs D = Some (Dir r l) -> lookup l k = None ->
  wf_node c = true ->
  wf_node (put (D ++ [k]) c fs) = true.
Proof.
  intros W G L Wc. rewrite (@put_child c k D fs r l G L).
  eapply wf_put_here; [exact W | exact G | ].
  apply wf_node_snoc; [ | exact L | exact Wc].
  exact (@get_wf D fs (Dir r l) W G).
Qed.

(** ** The backup of what is at the target path *)

Lemma lookup_app a : forall l l',
  lookup (l ++ l') a =
  match lookup l a with Some c => Some c | None => lookup l' a end.
Proof.
  induction l as [ | [k c] tl IH]; intros l'; simpl; [reflexivity | ].
  destruct (String.eqb k a); [reflexivity | apply IH].
Qed.

Lemma is_prefix_app_l p x y : is_prefix (p ++ x) (p ++ y) = is_prefix x y.
Proof.
  induction p as [ | a p IH]; simpl; [reflexivity | ].
  rewrite String.eqb_refl. exact IH.
Qed.

Lemma is_prefix_snoc_inv p q a :
  is_prefix p (q ++ [a]) = true -> p = q ++ [a] \/ is_prefix p q = true.
Proof.
  intros H. apply is_prefix_spec in H. destruct H as [x E].
  destruct (exists_last_or_nil x) as [-> | (x' & z & ->)].
  - left. rewrite app_nil_r in E. symmetry. exact E.
  - right. rewrite app_assoc in E. apply app_inj_tail in E.
    destruct E as [-> _]. apply is_prefix_app.
Qed.

(** [ensureDir] of a new name in a directory of the tree. *)
Lemma ensureDir_new w D r ents name :
  get (w_fs w) D = Some (Dir r ents) ->
  lookup ents name = None ->
  ensureDir (D ++ [name]) w =
  (Ok tt, with_fs w (put (D ++ [name]) (Dir true []) (w_fs w))).
Proof.
  intros G L.
  assert (Sd : stat (w_fs w) D = Ok (D, Dir r ents))
    by (apply stat_get; [exact G | reflexivity]).
  unfold ensureDir, bind, observe, existsSync.
  pose proof (@stat_no_child (w_fs w) D D r ents name false Sd L) as No.
  unfold path_join in No. fold (stat (w_fs w) (D ++ [name])) in No.
  rewrite No. simpl. unfold mkdirSync_recursive.
  apply (@mkdirp_plain w D r ents name D []); auto.
Qed.

(** The move of what is at the target path into the backup directory,
    once that directory is there. *)
Lemma rename_into_backup w1 td name old ro ents1 rb eb bname :
  wf_node (w_fs w1) = true ->
  get (w_fs w1) td = Some (Dir ro ents1) ->
  lookup ents1 name = Some old ->
  lookup ents1 backup_name = Some (Dir rb eb) ->
  lookup eb bname = None ->
  name <> backup_name ->
  let qa := td ++ [name] in
  let qb := (td ++ [backup_name]) ++ [bname] in
  let fs2 := put qb old (del qa (w_fs w1)) in
  renameSync qa qb w1 = (Ok tt, with_fs w1 fs2) /\
  get fs2 qb = Some old /\
  get fs2 qa = None /\
  (forall p,
     is_prefix qa p = false -> is_prefix p qa = false ->
     is_prefix (td ++ [backup_name]) p = false ->
     is_prefix p (td ++ [backup_name]) = false ->
     get fs2 p = get (w_fs w1) p).
Proof.
  intros W G Ln Lb Le Ne qa qb fs2. subst qa qb fs2.
  assert (Ga : get (w_fs w1) (td ++ [name]) = Some old)
    by (rewrite get_snoc, G; exact Ln).
  assert (Gb : get (w_fs w1) (td ++ [backup_name]) = Some (Dir rb eb))
    by (rewrite get_snoc, G; exact Lb).
  assert (E : String.eqb name backup_name = false)
    by (apply String.eqb_neq; exact Ne).
  assert (P1 : is_prefix (td ++ [name]) ((td ++ [backup_name]) ++ [bname])
               = false).
  { rewrite <- app_assoc, is_prefix_app_l. simpl. rewrite E. reflexivity. }
  assert (P2 : is_prefix ((td ++ [backup_name]) ++ [bname]) (td ++ [name])
               = false).
  { rewrite <- app_assoc, is_prefix_app_l. simpl.
    apply andb_false_r. }
  split; [ | split; [ | split]].
  - unfold renameSync. cbv zeta.
    rewrite (@lstat_get (w_fs w1) _ old Ga).
    change ((td ++ [backup_name]) ++ [bname])
      with (path_join (td ++ [backup_name]) bname).
    rewrite slot_join.
    rewrite (@stat_get (w_fs w1) _ (Dir rb eb) Gb eq_refl), Le.
    unfold path_join.
    destruct (td ++ [name]) as [ | a qa'] eqn:Eq.
    { apply app_eq_nil in Eq. destruct Eq as [_ Eq]. discriminate Eq. }
    assert (Neq : path_eqb (a :: qa') ((td ++ [backup_name]) ++ [bname])
                  = false).
    { unfold path_eqb.
      destruct (list_eq_dec string_dec (a :: qa')
                  ((td ++ [backup_name]) ++ [bname])) as [E' | ];
        [ | reflexivity].
      rewrite E', is_prefix_refl in P1. discriminate P1. }
    rewrite Neq, P1. destruct old; reflexivity.
  - destruct (@get_del_parent (w_fs w1) (td ++ [name]) old
                (td ++ [backup_name]) rb eb bname Gb Le Ga P1)
      as (eb' & Gb' & Le').
    eapply get_put_new; eassumption.
  - unfold put. rewrite get_alter_other by assumption.
    eapply get_del_self; [exact W | | exact Ga].
    intros Z. apply app_eq_nil in Z. destruct Z as [_ Z]. discriminate Z.
  - intros p A1 A2 B1 B2. unfold put, del.
    rewrite !get_alter_other; auto.
    + destruct (is_prefix ((td ++ [backup_name]) ++ [bname]) p) eqn:X;
        [ | reflexivity].
      rewrite (is_prefix_trans _ _ _
                 (is_prefix_app (td ++ [backup_name]) [bname]) X) in B1.
      discriminate B1.
    + destruct (is_prefix p ((td ++ [backup_name]) ++ [bname])) eqn:X;
        [ | reflexivity].
      apply is_prefix_snoc_inv in X. destruct X as [-> | X].
      * rewrite is_prefix_app in B1. discriminate B1.
      * rewrite X in B2. discriminate B2.
Qed.

(** The backup directory, made when it was missing. *)
Lemma backup_ensured w td ro ents name old eb :
  wf_node (w_fs w) = true ->
  get (w_fs w) td = Some (Dir ro ents) ->
  lookup ents name = Some old ->
  match lookup ents backup_name with
  | None => eb = []
  | Some b => exists rb, b = Dir rb eb
  end ->
  exists w1 ents1 rb,
    ensureDir (td ++ [backup_name]) w = (Ok tt, w1) /\
    w_clock w1 = w_clock w /\
    wf_node (w_fs w1) = true /\
    get (w_fs w1) td = Some (Dir ro ents1) /\
    lookup ents1 name = Some old /\
    lookup ents1 backup_name = Some (Dir rb eb) /\
    (forall p,
       is_prefix (td ++ [backup_name]) p = false ->
       is_prefix p (td ++ [backup_name]) = false ->
       get (w_fs w1) p = get (w_fs w) p).
Proof.
  intros W G Ln Hb.
  destruct (lookup ents backup_name) as [b | ] eqn:Lb.
  - destruct Hb as [rb ->]. exists w, ents, rb.
    repeat split; auto.
    unfold ensureDir, bind, observe, existsSync.
    assert (Gb : get (w_fs w) (td ++ [backup_name]) = Some (Dir rb eb))
      by (rewrite get_snoc, G; exact Lb).
    rewrite (@stat_get (w_fs w) _ (Dir rb eb) Gb eq_refl). reflexivity.
  - subst eb.
    exists (with_fs w (put (td ++ [backup_name]) (Dir true []) (w_fs w))),
           (ents ++ [(backup_name, Dir true [])]), true.
    split; [apply (@ensureDir_new w td ro ents backup_name G Lb) | ].
    split; [reflexivity | ].
    split; [apply (@wf_put_new (Dir true []) backup_name td (w_fs w) ro ents
                     W G Lb eq_refl) | ].
    split.
    { cbn [w_fs with_fs].
      rewrite (@put_child (Dir true []) backup_name td (w_fs w) ro ents G Lb).
      eapply get_put_here. exact G. }
    split; [rewrite lookup_app, Ln; reflexivity | ].
    split; [rewrite lookup_app, Lb; reflexivity | ].
    intros p B1 B2. cbn [w_fs with_fs]. unfold put.
    apply get_alter_other; assumption.
Qed.

(** What the policy [backup] comes to, once the backup directory is
    there. *)
Lemma backup_from s td mode w ro old eb w1 ents1 rb :
  get (w_fs w) (td ++ [skill_name s]) = Some old ->
  skill_name s <> backup_name ->
  mode_is_symlink mode &&
    isSymlinkTo (w_fs w) (td ++ [skill_name s]) (skill_path s) = false ->
  lookup eb
    (String.append (skill_name s)
       (String.append "-" (show_Z (hd 0%Z (w_clock w))))) = None ->
  ensureDir (td ++ [backup_name]) w = (Ok tt, w1) ->
  w_clock w1 = w_clock w ->
  wf_node (w_fs w1) = true ->
  get (w_fs w1) td = Some (Dir ro ents1) ->
  lookup ents1 (skill_name s) = Some old ->
  lookup ents1 backup_name = Some (Dir rb eb) ->
  (forall p,
     is_prefix (td ++ [backup_name]) p = false ->
     is_prefix p (td ++ [backup_name]) = false ->
     get (w_fs w1) p = get (w_fs w) p) ->
  exists w2,
    resolveConflict s td (td ++ [skill_name s]) backup w = (Ok None, w2) /\
    convertSkill_body s td mode backup w =
      (ensureDir td ;;;
       executeMode s (skill_path s) (td ++ [skill_name s]) mode) w2 /\
    get (w_fs w2)
      ((td ++ [backup_name]) ++
       [String.append (skill_name s)
          (String.append "-" (show_Z (hd 0%Z (w_clock w))))]) = Some old /\
    get (w_fs w2) (td ++ [skill_name s]) = None /\
    w_clock w2 = tl (w_clock w) /\
    (forall p,
       is_prefix (td ++ [skill_name s]) p = false ->
       is_prefix p (td ++ [skill_name s]) = false ->
       is_prefix (td ++ [backup_name]) p = false ->
       is_prefix p (td ++ [backup_name]) = false ->
       get (w_fs w2) p = get (w_fs w) p).
Proof.
  intros Gt Ne No Le E1 Ck W1 G1 Ln1 Lb1 Fr1.
  destruct (@rename_into_backup
              (mkWorld (w_fs w1) (tl (w_clock w))) td (skill_name s) old
              ro ents1 rb eb _ W1 G1 Ln1 Lb1 Le Ne)
    as (Rn & Hq & Ht & Fr2).
  cbn [w_fs] in Rn, Hq, Ht, Fr2.
  assert (Hr : resolveConflict s td (td ++ [skill_name s]) backup w =
               (Ok None,
                with_fs (mkWorld (w_fs w1) (tl (w_clock w)))
                  (put ((td ++ [backup_name]) ++
                        [String.append (skill_name s)
                           (String.append "-"
                              (show_Z (hd 0%Z (w_clock w))))]) old
                     (del (td ++ [skill_name s]) (w_fs w1))))).
  { unfold resolveConflict, path_join. unfold bind at 1. rewrite E1.
    unfold bind at 1. unfold Date_now. rewrite Ck.
    unfold bind at 1. rewrite Rn. reflexivity. }
  eexists. split; [exact Hr | ]. split; [ | split; [ | split; [ | split]]].
  - unfold convertSkill_body. cbv zeta. unfold path_join.
    unfold bind at 1. unfold observe at 1.
    unfold targetExists, lstatSync.
    rewrite (@lstat_get (w_fs w) _ old Gt). unfold res_bind.
    cbv beta iota.
    unfold bind at 1. unfold observe at 1. cbv beta iota. rewrite No.
    unfold bind at 1. rewrite Hr. reflexivity.
  - exact Hq.
  - exact Ht.
  - reflexivity.
  - intros p A1 A2 B1 B2. cbn [w_fs with_fs].
    rewrite (Fr2 p A1 A2 B1 B2). apply Fr1; assumption.
Qed.

(** With the policy [backup] and something at the target path, in a target
    root that is a directory of the tree: once the directory [_backup] of
    the target root is there (it is made when missing) and has nothing
    under the name of the entry followed by the time, what was at the
    target path is moved there as it is, the target path is free, the
    conversion goes on from that tree, one reading of the clock is used,
    and every place that is neither above nor below the target path or
    the backup directory is as it was. *)
Theorem backup_keeps_what_was_there :
  forall s targetDir mode w ro ents old eb,
    wf_node (w_fs w) = true ->
    get (w_fs w) targetDir = Some (Dir ro ents) ->
    lookup ents (skill_name s) = Some old ->
    skill_name s <> backup_name ->
    mode_is_symlink mode &&
      isSymlinkTo (w_fs w) (path_join targetDir (skill_name s)) (skill_path s)
      = false ->
    match lookup ents backup_name with
    | None => eb = []
    | Some b => exists rb, b = Dir rb eb
    end ->
    let target := path_join targetDir (skill_name s) in
    let backupDir := path_join targetDir backup_name in
    let stamped :=
      String.append (skill_name s)
        (String.append "-" (show_Z (hd 0%Z (w_clock w)))) in
    lookup eb stamped = None ->
    exists w2,
      resolveConflict s targetDir target backup w = (Ok None, w2) /\
      convertSkill_body s targetDir mode backup w =
        (ensureDir targetDir ;;;
         executeMode s (skill_path s) target mode) w2 /\
      get (w_fs w2) (path_join backupDir stamped) = Some old /\
      get (w_fs w2) target = None /\
      w_clock w2 = tl (w_clock w) /\
      (forall p,
         is_prefix target p = false -> is_prefix p target = false ->
         is_prefix backupDir p = false -> is_prefix p backupDir = false ->
         get (w_fs w2) p = get (w_fs w) p).
Proof.
  intros s td mode w ro ents old eb W G Ln Ne No Hb target backupDir stamped
    Le.
  subst target backupDir stamped. unfold path_join in *.
  assert (Gt : get (w_fs w) (td ++ [skill_name s]) = Some old)
    by (rewrite get_snoc, G; exact Ln).
  destruct (@backup_ensured w td ro ents (skill_name s) old eb W G Ln Hb)
    as (w1 & ents1 & rb & E1 & Ck & W1 & G1 & Ln1 & Lb1 & Fr1).
  exact (@backup_from s td mode w ro old eb w1 ents1 rb Gt Ne No Le
           E1 Ck W1 G1 Ln1 Lb1 Fr1).
Qed.

Lemma backup_keeps_what_was_there_witness :
  exists w2,
    resolveConflict Sample.real ["tgt"] ["tgt"; "real"] backup
      Sample.world_linked = (Ok None, w2) /\
    get (w_fs w2) ["tgt"; "_backup"; "real-1700000000002"]
      = Some (Symlink (LRel 1 ["src"; "real"])) /\
    get (w_fs w2) ["tgt"; "real"] = None.
Proof.
  destruct (@backup_keeps_what_was_there Sample.real ["tgt"] copy
              Sample.world_linked true _ _ []
              eq_refl eq_refl eq_refl ltac:(discriminate) eq_refl
              eq_refl eq_refl) as (w2 & H1 & _ & H3 & H4 & _).
  exists w2. split; [exact H1 | split; [exact H3 | exact H4]].
Defined.

(** ** The entries of a scan, child by child *)

Section Listing.

Variable yaml_parse : string -> Res jsval.
Variable fs : node.

Lemma nested_names_and_paths skillPath name : forall added l,
  map skill_path added = map (fun e => path_join skillPath (fst e)) l ->
  Forall (fun s =>
            skill_name s =
              String.append name
                (String.append "-" (path_basename (skill_path s))) /\
            classified fs s) added ->
  map name_and_path added =
  map (fun e : string * kind =>
         (String.append name (String.append "-" (fst e)),
          path_join skillPath (fst e))) l.
Proof.
  induction added as [ | s added IH]; intros l Hp Hn.
  - destruct l; [reflexivity | discriminate Hp].
  - destruct l as [ | e l]; [discriminate Hp | ].
    simpl in Hp. injection Hp as Hs Hp.
    inversion Hn as [ | ? ? [Hname _] Hn']; subst.
    simpl. rewrite (IH l Hp Hn'). unfold name_and_path at 1.
    rewrite Hname, Hs, basename_join. reflexivity.
Qed.

Lemma detect_entry_lists dir entry :
  exists added,
    (forall skills,
       detect_entry yaml_parse fs dir entry skills = Ok (skills ++ added)) /\
    map name_and_path added = entries_of_child fs dir entry.
Proof.
  destruct entry as [name k].
  unfold detect_entry, entries_of_child. cbn [fst snd].
  assert (Nil : exists added : list DetectedSkill,
             (forall skills, Ok skills = Ok (skills ++ added)) /\
             map name_and_path added = []).
  { exists []. split; [ | reflexivity].
    intros skills. rewrite app_nil_r. reflexivity. }
  destruct (negb (isDirectory k) && negb (isSymbolicLink k)); [exact Nil | ].
  destruct (String.prefix "_" name); [exact Nil | ].
  destruct (if isSymbolicLink k
            then match realpathSync fs (path_join dir name) with
                 | Ok p => Some p
                 | Throw _ => None
                 end
            else Some (path_join dir name)) as [actual | ]; [ | exact Nil].
  destruct (existsSync fs (path_join actual manifest)).
  - destruct (analyzeSkill_cases yaml_parse fs (path_join dir name))
      as [[E A] | (E & s & A & Hn & Hp & _)]; rewrite A, E; simpl;
      [exact Nil | ].
    exists [s]. split; [reflexivity | ].
    simpl. unfold name_and_path. rewrite Hn, Hp, basename_join.
    reflexivity.
  - destruct (readdirSync fs actual) as [nested | x]; [ | exact Nil].
    destruct (detect_nested_adds yaml_parse fs (path_join dir name) name
                nested) as (added & R & Hpaths & Hnames).
    exists added. split; [intros skills; rewrite R; reflexivity | ].
    apply nested_names_and_paths; assumption.
Qed.

Lemma detect_loop_lists dir : forall entries,
  exists added,
    (forall skills,
       detect_loop yaml_parse fs dir entries skills = Ok (skills ++ added)) /\
    map name_and_path added = flat_map (entries_of_child fs dir) entries.
Proof.
  induction entries as [ | entry tl IH].
  - exists []. split; [ | reflexivity].
    intros skills. rewrite app_nil_r. reflexivity.
  - destruct (detect_entry_lists dir entry) as (a1 & R1 & F1).
    destruct IH as (a2 & R2 & F2).
    exists (a1 ++ a2). split.
    + intros skills. simpl. rewrite R1. simpl. rewrite R2, app_assoc.
      reflexivity.
    + simpl. rewrite map_app, F1, F2. reflexivity.
Qed.

End Listing.

(** On a root that can be listed, [detectSkills] changes nothing and
    yields, in the order of the listing, the entries of each child of the
    root: none for a file, a name that begins with an underscore or a link
    that does not resolve; the child under its own name when it holds a
    manifest; otherwise one entry for each subdirectory, in the order of
    its listing, that holds a manifest, under the name of the child, a
    dash and the name of the subdirectory. *)
Theorem detectSkills_lists_children_in_order :
  forall yaml_parse dir w entries,
    readdirSync (w_fs w) dir = Ok entries ->
    exists skills,
      detectSkills yaml_parse dir w = (Succeed skills, w) /\
      map name_and_path skills
        = flat_map (entries_of_child (w_fs w) dir) entries.
Proof.
  intros yaml_parse dir w entries R.
  destruct (@detect_loop_lists yaml_parse (w_fs w) dir entries)
    as (added & L & F).
  exists added. split; [ | exact F].
  rewrite detectSkills_run.
  assert (E : existsSync (w_fs w) dir = true).
  { unfold existsSync. unfold readdirSync in R.
    destruct (stat (w_fs w) dir); [reflexivity | discriminate R]. }
  rewrite E, R. simpl. rewrite L. reflexivity.
Qed.

Lemma detectSkills_lists_children_in_order_witness :
  exists skills,
    detectSkills Sample.yaml ["src"] Sample.world0
      = (Succeed skills, Sample.world0) /\
    map name_and_path skills =
      [("real", ["src"; "real"]); ("alias", ["src"; "alias"]);
       ("group-sub1", ["src"; "group"; "sub1"]);
       ("group-sub2", ["src"; "group"; "sub2"])].
Proof.
  destruct (@detectSkills_lists_children_in_order Sample.yaml ["src"]
              Sample.world0 _ eq_refl) as (skills & H1 & H2).
  exists skills. split; [exact H1 | exact H2].
Defined.

(** ** The conflict that is asked about *)

Lemma walk_follow fuel root : forall cur rest q n,
  walk fuel root cur rest true = Ok (q, n) ->
  st_isSymbolicLink n = false ->
  walk fuel root cur rest false = Ok (q, n).
Proof.
  induction fuel as [ | fuel IH]; intros cur rest q n;
    rewrite !walk_unfold;
    destruct (walk1_nofollow root rest cur) as [-> | (p & t & ->)];
    try (intros H Hn; injection H as <- <-; discriminate Hn);
    destruct (walk1 root cur rest false) as [p0 n0 | cur' r0 | e];
    auto.
Qed.

(** What is at a path and is no link is what the path resolves to. *)
Lemma lstat_stat fs p q n :
  lstat fs p = Ok (q, n) -> st_isSymbolicLink n = false ->
  stat fs p = Ok (q, n).
Proof. apply walk_follow. Qed.

Lemma already_linked_isSymlinkTo fs targetPath sourcePath :
  already_linked fs targetPath sourcePath
  = isSymlinkTo fs targetPath sourcePath.
Proof.
  unfold already_linked, isSymlinkTo.
  destruct (lstatSync fs targetPath) as [st | x]; [ | reflexivity].
  simpl. destruct (st_isSymbolicLink st); reflexivity.
Qed.

(** [runConversion] asks about the first entry whose target path resolves
    and is not a link whose text leads to the path of the entry, and about
    no other.  So when it does not ask, whatever is at a target path is a
    link to its entry, as [isSymlinkTo] of [convertSkill] sees it, or a
    link that does not resolve. *)
Theorem asks_about_the_first_conflict :
  forall fs targetDir skills,
    let target := fun s => path_join targetDir (skill_name s) in
    let settled := fun s =>
      existsSync fs (target s) = true ->
      isSymlinkTo fs (target s) (skill_path s) = true in
    (conflict_to_ask fs targetDir skills = None <-> Forall settled skills) /\
    (forall name,
       conflict_to_ask fs targetDir skills = Some name ->
       exists before s after,
         skills = before ++ s :: after /\
         skill_name s = name /\
         existsSync fs (target s) = true /\
         isSymlinkTo fs (target s) (skill_path s) = false /\
         Forall settled before) /\
    (conflict_to_ask fs targetDir skills = None ->
     Forall (fun s =>
               targetExists fs (target s) = true ->
               isSymlinkTo fs (target s) (skill_path s) = true \/
               existsSync fs (target s) = false /\
               exists t, lstatSync fs (target s) = Ok (Symlink t))
            skills).
Proof.
  intros fs td skills target settled.
  assert (A : forall l,
             (conflict_to_ask fs td l = None <-> Forall settled l) /\
             (forall name,
                conflict_to_ask fs td l = Some name ->
                exists before s after,
                  l = before ++ s :: after /\
                  skill_name s = name /\
                  existsSync fs (target s) = true /\
                  isSymlinkTo fs (target s) (skill_path s) = false /\
                  Forall settled before)).
  { induction l as [ | s tl [IH1 IH2]].
    - split; [split; [constructor | reflexivity] | discriminate].
    - simpl. rewrite already_linked_isSymlinkTo. fold (target s).
      destruct (existsSync fs (target s)) eqn:E.
      + destruct (isSymlinkTo fs (target s) (skill_path s)) eqn:I.
        * split.
          -- rewrite IH1. split.
             ++ intros F. constructor; [intros _; exact I | exact F].
             ++ intros F. inversion F. assumption.
          -- intros name H.
             destruct (IH2 name H) as (b & x & a & -> & Hx).
             exists (s :: b), x, a. split; [reflexivity | ].
             destruct Hx as (H1 & H2 & H3 & H4). repeat split; auto.
             constructor; [intros _; exact I | exact H4].
        * split.
          -- split; [discriminate | ].
             intros F. inversion F as [ | ? ? Hs _]; subst.
             unfold settled in Hs. rewrite (Hs E) in I. discriminate I.
          -- intros name H. injection H as <-.
             exists [], s, tl. repeat split; auto.
      + split.
        * rewrite IH1. split.
          -- intros F. constructor; [ | exact F].
             intros X. unfold target in X. fold (target s) in X.
             rewrite E in X. discriminate X.
          -- intros F. inversion F. assumption.
        * intros name H.
          destruct (IH2 name H) as (b & x & a & -> & Hx).
          exists (s :: b), x, a. split; [reflexivity | ].
          destruct Hx as (H1 & H2 & H3 & H4). repeat split; auto.
          constructor; [ | exact H4].
          intros X. rewrite E in X. discriminate X. }
  destruct (A skills) as [A1 A2]. split; [exact A1 | ]. split; [exact A2 | ].
  intros H. apply A1 in H. eapply Forall_impl; [ | exact H].
  intros s Hs T. unfold settled in Hs.
  destruct (existsSync fs (target s)) eqn:E; [left; auto | right].
  split; [reflexivity | ].
  unfold targetExists, lstatSync in T. unfold lstatSync.
  destruct (lstat fs (target s)) as [[q n] | x] eqn:L; [ | discriminate T].
  simpl. destruct n as [m c | r ents | t]; eauto;
    unfold existsSync in E;
    rewrite (@lstat_stat fs (target s) q _ L eq_refl) in E; discriminate E.
Qed.

Lemma asks_about_the_first_conflict_witness :
  conflict_to_ask Sample.tree_linked ["tgt"] [Sample.real] = None /\
  conflict_to_ask Sample.tree ["src"]
    [Sample.entry "dangling" ["tgt"; "x"] None; Sample.real]
    = Some "real".
Proof.
  split.
  - apply (proj1 (asks_about_the_first_conflict Sample.tree_linked ["tgt"]
                    [Sample.real])).
    constructor; [intros _; reflexivity | constructor].
  - destruct (proj1 (proj2 (asks_about_the_first_conflict Sample.tree ["src"]
                        [Sample.entry "dangling" ["tgt"; "x"] None;
                         Sample.real])) "real" eq_refl)
      as (b & s & a & E & N & _).
    reflexivity.
Defined.

(** ** What linking never does *)

Lemma ensureDir_grows dir w res w' :
  ensureDir dir w = (res, w') ->
  grows (w_fs w) (w_fs w') /\ w_clock w' = w_clock w.
Proof.
  unfold ensureDir, bind, observe.
  destruct (existsSync (w_fs w) dir); simpl.
  - intros H. injection H as <- <-. split; [apply grows_refl | reflexivity].
  - apply mkdirp_grows.
Qed.

Lemma symlinkSync_grows t p w res w' :
  symlinkSync t p w = (res, w') ->
  grows (w_fs w) (w_fs w') /\ w_clock w' = w_clock w.
Proof.
  unfold symlinkSync.
  assert (Same : forall (x : exn), (Throw x : Res unit, w) = (res, w') ->
                   grows (w_fs w) (w_fs w') /\ w_clock w' = w_clock w).
  { intros x H. injection H as <- <-.
    split; [apply grows_refl | reflexivity]. }
  destruct (link_is_empty t); [apply Same | ].
  destruct (slot (w_fs w) p) as [[q [n | ]] | x] eqn:S; try apply Same.
  intros H. injection H as <- <-. split; [ | reflexivity].
  simpl. apply put_fresh_grows.
  unfold slot in S. destruct p as [ | a p']; [discriminate S | ].
  destruct (stat (w_fs w) (removelast (a :: p')))
    as [[rp [m c | r ents | t']] | x] eqn:St; try discriminate S.
  injection S as <- L. apply walk_Ok_get in St.
  rewrite get_snoc, St. exact L.
Qed.

Lemma convertSkill_symlink_skip_grows s td w :
  grows (w_fs w) (w_fs (snd (convertSkill s td symlink skip w))) /\
  w_clock (snd (convertSkill s td symlink skip w)) = w_clock w.
Proof.
  assert (Body : forall res w',
            convertSkill_body s td symlink skip w = (res, w') ->
            grows (w_fs w) (w_fs w') /\ w_clock w' = w_clock w).
  { intros res w'. unfold convertSkill_body. cbv zeta.
    unfold bind at 1. unfold observe at 1.
    destruct (targetExists (w_fs w) (path_join td (skill_name s))).
    - unfold bind at 1. unfold observe at 1. cbv beta iota.
      destruct (mode_is_symlink symlink && _);
        intros H; injection H as <- <-;
        split; (apply grows_refl || reflexivity).
    - unfold bind at 1.
      destruct (ensureDir td w) as [[[] | x] w1] eqn:E;
        apply ensureDir_grows in E; destruct E as [G1 C1];
        [ | intros H; injection H as <- <-; auto].
      unfold executeMode. unfold bind at 1. unfold reading at 1.
      destruct (lstatSync (w_fs w1) (skill_path s)) as [st | x];
        [ | intros H; injection H as <- <-; auto].
      unfold bind at 1.
      destruct ((if st_isSymbolicLink st
                 then reading (fun fs => realpathSync fs (skill_path s))
                 else ret (skill_path s)) w1) as [[actual | x] w2] eqn:A.
      + assert (w2 = w1) as ->.
        { destruct (st_isSymbolicLink st); unfold reading, ret in A;
            injection A as _ <-; reflexivity. }
        unfold bind at 1. unfold createRelativeSymlink.
        destruct (symlinkSync _ _ w1) as [[[] | x] w3] eqn:Sy;
          apply symlinkSync_grows in Sy; destruct Sy as [G3 C3];
          intros H; injection H as <- <-;
          (split; [eapply grows_trans; eassumption | congruence]).
      + assert (w2 = w1) as ->.
        { destruct (st_isSymbolicLink st); unfold reading, ret in A;
            injection A as _ <-; reflexivity. }
        intros H; injection H as <- <-; auto. }
  unfold convertSkill, Effect_try.
  pose proof (Body _ _ (surjective_pairing
                          (convertSkill_body s td symlink skip w))) as B.
  destruct (convertSkill_body s td symlink skip w) as [[r | x] w'];
    exact B.
Qed.

(** With the mode [symlink] and the policy [skip], which are the defaults,
    a batch only adds to the tree, whatever happens to its conversions:
    every file and every link that was there is there as it was, every
    directory is still a directory that can be listed as before; and the
    clock is not read. *)
Theorem linking_with_skip_only_adds :
  forall skills targetDir w,
    let run := convertSkills skills targetDir symlink skip w in
    grows (w_fs w) (w_fs (snd run)) /\
    w_clock (snd run) = w_clock w /\
    (forall p m c,
       get (w_fs w) p = Some (File m c) ->
       get (w_fs (snd run)) p = Some (File m c)) /\
    (forall p t,
       get (w_fs w) p = Some (Symlink t) ->
       get (w_fs (snd run)) p = Some (Symlink t)).
Proof.
  intros skills td w run. subst run.
  rewrite convertSkills_results_in_order. cbn [snd].
  assert (G : grows (w_fs w)
                (w_fs (snd (results_in_order skills td symlink skip w))) /\
              w_clock (snd (results_in_order skills td symlink skip w))
                = w_clock w).
  { revert w. induction skills as [ | s tl IH]; intros w.
    - split; [apply grows_refl | reflexivity].
    - simpl.
      pose proof (convertSkill_symlink_skip_grows s td w) as [G1 C1].
      destruct (convertSkill s td symlink skip w) as [e w1].
      specialize (IH w1).
      destruct (results_in_order tl td symlink skip w1) as [l w2].
      simpl in *. destruct IH as [G2 C2].
      split; [eapply grows_trans; eassumption | congruence]. }
  destruct G as [G C]. split; [exact G | ]. split; [exact C | ].
  split.
  - intros p m c Gp. destruct (G _ _ Gp) as (n' & Gn & K).
    simpl in K. subst n'. exact Gn.
  - intros p t Gp. destruct (G _ _ Gp) as (n' & Gn & K).
    simpl in K. subst n'. exact Gn.
Qed.

(** ** Moving an entry that is a link *)

(** A link is above no place, and is no directory. *)
Lemma link_not_above fs p q t n :
  get fs p = Some (Symlink t) -> get fs q = Some n -> kind_of n = KDir ->
  is_prefix p q = false.
Proof.
  intros Gp Gq K. destruct (is_prefix p q) eqn:E; [ | reflexivity].
  apply is_prefix_spec in E. destruct E as [[ | x r] ->].
  - rewrite app_nil_r, Gp in Gq. injection Gq as <-. discriminate K.
  - rewrite get_below_leaf in Gq; [discriminate Gq | ].
    rewrite Gp. exact I.
Qed.

Lemma move_link_run s td cr w ro ents q0 t q N :
  get (w_fs w) td = Some (Dir ro ents) ->
  lookup ents (skill_name s) = None ->
  lstat (w_fs w) (skill_path s) = Ok (q0, Symlink t) ->
  realpathSync (w_fs w) (skill_path s) = Ok q ->
  get (w_fs w) q = Some N ->
  kind_of N = KDir ->
  wf_node N = true ->
  copyable N = true ->
  height N < PATH_MAX ->
  is_prefix q (td ++ [skill_name s]) = false ->
  convertSkill s td move cr w =
  (Succeed (mkResult s true moved (path_join td (skill_name s)) None),
   with_fs w (del q0 (put (td ++ [skill_name s]) N (w_fs w)))).
Proof.
  intros G L Hs Hq Gq Hk Hw Hc Hh Ap.
  assert (St : stat (w_fs w) td = Ok (td, Dir ro ents))
    by (apply stat_get; [exact G | reflexivity]).
  assert (Fresh : get (w_fs w) (td ++ [skill_name s]) = None)
    by (rewrite get_snoc, G; exact L).
  unfold convertSkill, Effect_try, convertSkill_body. cbv zeta.
  assert (T : targetExists (w_fs w) (path_join td (skill_name s)) = false).
  { unfold targetExists, lstatSync, lstat.
    rewrite (@stat_no_child (w_fs w) td td ro ents (skill_name s) true St L).
    reflexivity. }
  unfold bind at 1. unfold observe at 1. rewrite T.
  assert (E : ensureDir td w = (Ok tt, w)).
  { unfold ensureDir, bind, observe, existsSync. rewrite St. reflexivity. }
  unfold bind at 1. rewrite E.
  unfold executeMode. unfold bind at 1. unfold bind at 1.
  unfold reading at 1. unfold lstatSync. rewrite Hs. simpl res_bind.
  cbv beta iota. cbn [st_isSymbolicLink kind_of isSymbolicLink].
  unfold bind at 1. unfold reading at 1. rewrite Hq.
  unfold bind at 1. unfold path_join.
  rewrite (@copyDir_copies PATH_MAX N q td (skill_name s) w ro ents
             Hh Hw Hc Hk Gq G L Ap).
  unfold unlinkSync. unfold with_fs at 1. cbn [w_fs].
  destruct (@grows_walk (w_fs w) (put (td ++ [skill_name s]) N (w_fs w))
              SYMLOOP_MAX true q0 (Symlink t) [] (map Name (skill_path s))
              (@put_fresh_grows N (td ++ [skill_name s]) (w_fs w) Fresh) Hs)
    as (n' & Hs' & K).
  simpl in K. subst n'. unfold lstat. rewrite Hs'. reflexivity.
Qed.

(** In the mode [move], an entry that is a link to a directory of the tree
    which [copyDir] can copy (the target root being a directory of the tree
    with nothing under the name of the entry, and the link not being
    inside the directory it leads to): the conversion copies the directory
    to the target path and removes the link, not the directory, which
    stays where it was with its tree.  Only the link is removed and only
    the target path is filled: every path that is neither above the link
    nor above or below the target path holds after the conversion what it
    held before. *)
Theorem move_of_a_link_keeps_the_directory :
  forall s targetDir cr w ro ents q0 t q N,
    wf_node (w_fs w) = true ->
    get (w_fs w) targetDir = Some (Dir ro ents) ->
    lookup ents (skill_name s) = None ->
    lstat (w_fs w) (skill_path s) = Ok (q0, Symlink t) ->
    realpathSync (w_fs w) (skill_path s) = Ok q ->
    get (w_fs w) q = Some N ->
    kind_of N = KDir ->
    copyable N = true ->
    height N < PATH_MAX ->
    let target := path_join targetDir (skill_name s) in
    is_prefix q target = false ->
    is_prefix q q0 = false ->
    let run := convertSkill s targetDir move cr w in
    fst run = Succeed (mkResult s true moved target None) /\
    get (w_fs (snd run)) target = Some N /\
    get (w_fs (snd run)) q0 = None /\
    get (w_fs (snd run)) q = Some N /\
    (forall p,
       is_prefix p q0 = false ->
       is_prefix p target = false -> is_prefix target p = false ->
       get (w_fs (snd run)) p = get (w_fs w) p).
Proof.
  intros s td cr w ro ents q0 t q N W G L Hs Hq Gq Hk Hc Hh target Ap Aq run.
  subst run target. unfold path_join in *.
  pose proof (@get_wf q (w_fs w) N W Gq) as Hw.
  rewrite (@move_link_run s td cr w ro ents q0 t q N G L Hs Hq Gq Hk Hw Hc Hh
             Ap).
  unfold with_fs. cbn [fst snd w_fs].
  pose proof (walk_Ok_get _ _ _ _ _ Hs) as G0.
  assert (Fresh : get (w_fs w) (td ++ [skill_name s]) = None)
    by (rewrite get_snoc, G; exact L).
  assert (F1 : is_prefix (td ++ [skill_name s]) q0 = false)
    by (eapply fresh_not_above; eassumption).
  assert (F2 : is_prefix (td ++ [skill_name s]) q = false)
    by (eapply fresh_not_above; eassumption).
  assert (G1t : get (put (td ++ [skill_name s]) N (w_fs w))
                  (td ++ [skill_name s]) = Some N)
    by (eapply get_put_new; eassumption).
  assert (G10 : get (put (td ++ [skill_name s]) N (w_fs w)) q0
                = Some (Symlink t)).
  { destruct (@put_fresh_grows N (td ++ [skill_name s]) (w_fs w) Fresh
                q0 (Symlink t) G0) as (n' & Gn & K).
    simpl in K. subst n'. exact Gn. }
  assert (G1q : get (put (td ++ [skill_name s]) N (w_fs w)) q = Some N).
  { unfold put. rewrite get_alter_other; assumption. }
  assert (G20 : get (del q0 (put (td ++ [skill_name s]) N (w_fs w))) q0
                = None).
  { eapply get_del_self; [ | | exact G10].
    - apply (@wf_put_new N (skill_name s) td (w_fs w) ro ents W G L Hw).
    - intros ->. simpl in G0. injection G0 as E0.
      rewrite E0 in G. destruct td; discriminate G. }
  split; [reflexivity | ]. split; [ | split; [ | split]].
  - unfold del. rewrite get_alter_other; [exact G1t | | exact F1].
    eapply link_not_above; eassumption.
  - exact G20.
  - unfold del. rewrite get_alter_other; [exact G1q | | exact Aq].
    eapply link_not_above; eassumption.
  - intros p P0 Pt Tp. destruct (is_prefix q0 p) eqn:E.
    + apply is_prefix_spec in E. destruct E as [[ | x r] ->].
      * rewrite app_nil_r, is_prefix_refl in P0. discriminate P0.
      * transitivity (@None node).
        -- apply get_below_leaf. rewrite G20. exact I.
        -- symmetry. apply get_below_leaf. rewrite G0. exact I.
    + unfold del, put.
      rewrite get_alter_other by assumption.
      rewrite get_alter_other by assumption. reflexivity.
Qed.

Lemma move_of_a_link_keeps_the_directory_witness :
  let alias :=
    Sample.entry "alias" ["src"; "alias"] (Some (LRel 0 ["real"])) in
  let run := convertSkill alias ["tgt"] move skip Sample.world0 in
  fst run = Succeed (mkResult alias true moved ["tgt"; "alias"] None) /\
  get (w_fs (snd run)) ["src"; "alias"] = None /\
  get (w_fs (snd run)) ["src"; "real"; "SKILL.md"]
    = Some (File 420 Sample.skill_md) /\
  get (w_fs (snd run)) ["src"; "real"; "run.sh"]
    = get (w_fs Sample.world0) ["src"; "real"; "run.sh"].
Proof.
  intros alias run.
  destruct (@move_of_a_link_keeps_the_directory alias ["tgt"] skip
              Sample.world0 true [] ["src"; "alias"] (LRel 0 ["real"])
              ["src"; "real"] _
              eq_refl eq_refl eq_refl eq_refl eq_refl eq_refl eq_refl eq_refl
              ltac:(unfold PATH_MAX; simpl; lia) eq_refl eq_refl)
    as (H1 & _ & H3 & H4 & H5).
  split; [exact H1 | ]. split; [exact H3 | ]. split.
  - change ["src"; "real"; "SKILL.md"] with (["src"; "real"] ++ ["SKILL.md"]).
    rewrite get_app. unfold run. rewrite H4. reflexivity.
  - exact (H5 ["src"; "real"; "run.sh"] eq_refl eq_refl eq_refl).
Defined.

(** ** Linking again an entry that is a link *)

Lemma skip_run s td mode w :
  targetExists (w_fs w) (path_join td (skill_name s)) = true ->
  convertSkill s td mode skip w =
  (Succeed
     (mkResult s true skipped (path_join td (skill_name s))
        (Some (if mode_is_symlink mode &&
                  isSymlinkTo (w_fs w) (path_join td (skill_name s))
                    (skill_path s)
               then "Already linked" else "Already exists"))),
   w).
Proof.
  intros T. unfold convertSkill, Effect_try, convertSkill_body.
  cbv zeta. unfold bind at 1. unfold observe at 1. rewrite T.
  unfold bind at 1. unfold observe at 1. cbv beta iota.
  destruct (mode_is_symlink mode && _); reflexivity.
Qed.

Lemma path_eqb_neq p q : p <> q -> path_eqb p q = false.
Proof.
  intros N. unfold path_eqb.
  destruct (list_eq_dec string_dec p q); [contradiction | reflexivity].
Qed.

(** An entry that is a link, as [detectSkills] returns it for a linked
    directory, is linked to the place it resolves to; since [isSymlinkTo]
    compares the new link with the path of the entry, which is another
    place, it never finds the entry already linked: a second conversion
    with the policy [skip] reports "Already exists", and changes
    nothing. *)
Theorem linked_entry_is_never_already_linked :
  forall s targetDir cr w ro ents q0 n0 q,
    get (w_fs w) targetDir = Some (Dir ro ents) ->
    lookup ents (skill_name s) = None ->
    lstat (w_fs w) (skill_path s) = Ok (q0, n0) ->
    st_isSymbolicLink n0 = true ->
    realpathSync (w_fs w) (skill_path s) = Ok q ->
    q <> targetDir ->
    let target := path_join targetDir (skill_name s) in
    let first := convertSkill s targetDir symlink cr w in
    let second := convertSkill s targetDir symlink skip (snd first) in
    fst first = Succeed (mkResult s true symlinked target None) /\
    isSymlinkTo (w_fs (snd first)) target (skill_path s) = false /\
    fst second =
      Succeed (mkResult s true skipped target (Some "Already exists")) /\
    snd second = snd first.
Proof.
  intros s td cr w ro ents q0 n0 q G L Hs Hl Hq Hnt target first second.
  subst second first target.
  assert (Hp : st_isSymbolicLink n0 = false -> q = skill_path s)
    by (rewrite Hl; discriminate).
  rewrite (@symlink_run s td cr w ro ents q0 n0 q G L Hs Hq Hp Hnt).
  cbn [fst snd].
  unfold realpathSync in Hq.
  destruct (stat (w_fs w) (skill_path s)) as [[q' n] | x] eqn:St;
    [ | discriminate Hq].
  simpl in Hq. injection Hq as ->.
  pose proof (walk_Ok_get _ _ _ _ _ St) as Gq.
  pose proof (@stat_not_link _ _ _ _ (@root_of_Dir _ _ _ _ G) St) as Hn.
  assert (Hne : q <> skill_path s).
  { intros E. rewrite <- E, (@lstat_get (w_fs w) q n Gq) in Hs.
    injection Hs as _ <-. rewrite Hn in Hl. discriminate Hl. }
  destruct (@link_resolves (w_fs w) td (skill_name s) ro ents q n
              G L Gq Hn Hnt _ eq_refl) as (Hlk & _).
  assert (No : isSymlinkTo
                 (put (td ++ [skill_name s]) (Symlink (path_relative td q))
                    (w_fs w))
                 (path_join td (skill_name s)) (skill_path s) = false).
  { unfold isSymlinkTo, lstatSync, readlinkSync, path_join.
    rewrite Hlk. simpl.
    change (path_dirname (td ++ [skill_name s]))
      with (path_dirname (path_join td (skill_name s))).
    rewrite dirname_join, resolve_relative. apply path_eqb_neq. exact Hne. }
  split; [reflexivity | ]. split; [exact No | ].
  rewrite skip_run.
  - unfold with_fs at 1 2. cbn [w_fs fst snd]. rewrite No. simpl.
    split; reflexivity.
  - unfold with_fs. cbn [w_fs]. unfold targetExists, lstatSync, path_join.
    rewrite Hlk. reflexivity.
Qed.

Lemma linked_entry_is_never_already_linked_witness :
  let alias :=
    Sample.entry "alias" ["src"; "alias"] (Some (LRel 0 ["real"])) in
  let first := convertSkill alias ["tgt"] symlink skip Sample.world0 in
  fst (convertSkill alias ["tgt"] symlink skip (snd first)) =
    Succeed (mkResult alias true skipped ["tgt"; "alias"]
               (Some "Already exists")).
Proof.
  intros alias first.
  destruct (@linked_entry_is_never_already_linked alias ["tgt"] skip
              Sample.world0 true [] ["src"; "alias"]
              (Symlink (LRel 0 ["real"])) ["src"; "real"]
              eq_refl eq_refl eq_refl eq_refl eq_refl
              ltac:(discriminate)) as (_ & _ & H & _).
  exact H.
Defined.

(** ** What a copy that fails leaves behind *)



(** ** The block that [parseFrontmatter] reads *)

(** A newline and a fence that begin inside a text end inside it, when a
    newline follows the text. *)
Lemma strip_straddle c b rest :
  strip (String.append nl fence) (String c b) = None ->
  strip (String.append nl fence)
    (String.append (String c b)
       (String.append (String.append nl fence) rest)) = None.
Proof.
  change (String.append nl fence)
    with (String "010"%char (String "-"%char (String "-"%char
            (String "-"%char "")))).
  cbn [strip String.append].
  destruct (Ascii.eqb "010"%char c); [ | reflexivity].
  destruct b as [ | c2 b2]; [reflexivity | ].
  cbn [strip String.append].
  destruct (Ascii.eqb "-"%char c2); [ | reflexivity].
  destruct b2 as [ | c3 b3]; [reflexivity | ].
  cbn [strip String.append].
  destruct (Ascii.eqb "-"%char c3); [ | reflexivity].
  destruct b3 as [ | c4 b4]; [reflexivity | ].
  cbn [strip String.append].
  destruct (Ascii.eqb "-"%char c4); [discriminate | reflexivity].
Qed.

Lemma until_fence_unfold s :
  until_fence s =
  match strip (String.append nl fence) s with
  | Some _ => Some ""
  | None =>
      match s with
      | "" => None
      | String c s' => option_map (String c) (until_fence s')
      end
  end.
Proof. destruct s; reflexivity. Qed.

Lemma until_fence_first rest : forall block,
  closes block = false ->
  until_fence
    (String.append block (String.append (String.append nl fence) rest))
  = Some block.
Proof.
  induction block as [ | c b IH]; intros H.
  - cbn [String.append]. rewrite until_fence_unfold.
    rewrite (proj2 (strip_spec _ _ rest) eq_refl). reflexivity.
  - assert (E : strip (String.append nl fence) (String c b) = None /\
                closes b = false).
    { revert H. cbn [closes].
      destruct (strip (String.append nl fence) (String c b));
        [discriminate | auto]. }
    destruct E as [E Hb].
    rewrite until_fence_unfold, (strip_straddle _ _ rest E).
    cbn [String.append]. rewrite (IH Hb). reflexivity.
Qed.

(** [parseFrontmatter] reads the first block: on a content that begins with
    a fence line, goes on with a text in which no line begins with a
    fence, and then has a line that begins with a fence, it returns what
    [yaml.parse] makes of that text, or the empty mapping when this is a
    falsy value or an exception.  What follows the closing fence, on its
    line or after, plays no part. *)
Theorem parseFrontmatter_reads_the_first_block :
  forall (yaml_parse : string -> Res jsval) block rest,
    closes block = false ->
    let content :=
      String.append (String.append fence nl)
        (String.append block (String.append (String.append nl fence) rest)) in
    frontmatter_match content = Some block /\
    parseFrontmatter yaml_parse content =
      Ok (match yaml_parse block with
          | Ok v => if truthy v then v else empty_mapping
          | Throw _ => empty_mapping
          end).
Proof.
  intros yaml_parse block rest H content. subst content.
  assert (M : frontmatter_match
                (String.append (String.append fence nl)
                   (String.append block
                      (String.append (String.append nl fence) rest)))
              = Some block).
  { unfold frontmatter_match.
    rewrite (proj2 (strip_spec _ _ _) eq_refl).
    apply until_fence_first. exact H. }
  split; [exact M | ].
  unfold parseFrontmatter. rewrite M.
  destruct (yaml_parse block) as [v | x]; reflexivity.
Qed.

Lemma parseFrontmatter_reads_the_first_block_witness :
  parseFrontmatter Sample.yaml
    (Sample.lines ["---"; "name: Real"; "---- and more"; "# Real"])
  = Ok (JObj [("text", "name: Real")]).
Proof.
  apply (proj2 (parseFrontmatter_reads_the_first_block Sample.yaml
                  "name: Real"
                  (String.append "- and more"
                     (String.append nl "# Real")) eq_refl)).
Defined.

(** ** Copying over what was at the target path *)

(** The conversion from a tree where the target path is free, for an entry
    whose path is a directory of the tree. *)
Lemma copy_proceed s td w ro ents N :
  get (w_fs w) td = Some (Dir ro ents) ->
  lookup ents (skill_name s) = None ->
  get (w_fs w) (skill_path s) = Some N ->
  kind_of N = KDir ->
  wf_node N = true ->
  copyable N = true ->
  height N < PATH_MAX ->
  is_prefix (skill_path s) (td ++ [skill_name s]) = false ->
  (ensureDir td ;;;
   executeMode s (skill_path s) (path_join td (skill_name s)) copy) w =
  (Ok (mkResult s true copied (path_join td (skill_name s)) None),
   with_fs w (put (td ++ [skill_name s]) N (w_fs w))).
Proof.
  intros G L Gq Hk Hw Hc Hh Ap.
  assert (St : stat (w_fs w) td = Ok (td, Dir ro ents))
    by (apply stat_get; [exact G | reflexivity]).
  assert (E : ensureDir td w = (Ok tt, w)).
  { unfold ensureDir, bind, observe, existsSync. rewrite St. reflexivity. }
  assert (Hn : st_isSymbolicLink N = false)
    by (destruct N; try discriminate Hk; reflexivity).
  unfold bind at 1. rewrite E.
  unfold executeMode. unfold bind at 1. unfold reading at 1.
  unfold lstatSync. rewrite (@lstat_get (w_fs w) _ N Gq).
  simpl res_bind. cbv beta iota. rewrite Hn.
  unfold bind at 1. unfold ret at 1.
  unfold bind at 1. unfold path_join.
  rewrite (@copyDir_copies PATH_MAX N (skill_path s) td (skill_name s) w
             ro ents Hh Hw Hc Hk Gq G L Ap).
  reflexivity.
Qed.

(** The directory of the target path, once what was at the target path is
    deleted. *)
Lemma get_del_child fs td ro ents name old :
  wf_node fs = true ->
  get fs td = Some (Dir ro ents) ->
  lookup ents name = Some old ->
  exists ents',
    get (del (td ++ [name]) fs) td = Some (Dir ro ents') /\
    lookup ents' name = None.
Proof.
  intros W G L. unfold del.
  rewrite (@get_alter_below (fun _ => None) [name] td fs (Dir ro ents))
    by (discriminate || exact G).
  simpl. eexists. split; [reflexivity | ].
  apply lookup_alter_entry_delete; [ | reflexivity].
  apply (@get_wf td fs (Dir ro ents) W) in G.
  apply wf_node_Dir in G. apply G.
Qed.

(** In the mode [copy], for an entry whose path is a directory of the tree
    that [copyDir] can copy, and a target path that holds something and is
    neither above nor below the entry.  With the policy [overwrite], when
    what is there is no link and can be removed whole: the conversion
    reports [copied], the target path holds the tree of the entry and
    nothing of what was there.  With the policy [backup]: it holds the
    tree of the entry, and what was there is in the backup directory,
    under the name of the entry followed by the time.  In both cases the
    entry keeps its tree. *)
Theorem copy_replaces_what_was_there :
  forall s targetDir w ro ents old N eb,
    wf_node (w_fs w) = true ->
    get (w_fs w) targetDir = Some (Dir ro ents) ->
    lookup ents (skill_name s) = Some old ->
    get (w_fs w) (skill_path s) = Some N ->
    kind_of N = KDir ->
    copyable N = true ->
    height N < PATH_MAX ->
    let target := path_join targetDir (skill_name s) in
    let backupDir := path_join targetDir backup_name in
    let stamped :=
      String.append (skill_name s)
        (String.append "-" (show_Z (hd 0%Z (w_clock w)))) in
    is_prefix (skill_path s) target = false ->
    is_prefix target (skill_path s) = false ->
    (st_isSymbolicLink old = false ->
     removable old = true ->
     let run := convertSkill s targetDir copy overwrite w in
     fst run = Succeed (mkResult s true copied target None) /\
     get (w_fs (snd run)) target = Some N /\
     get (w_fs (snd run)) (skill_path s) = Some N) /\
    (skill_name s <> backup_name ->
     is_prefix (skill_path s) backupDir = false ->
     is_prefix backupDir (skill_path s) = false ->
     match lookup ents backup_name with
     | None => eb = []
     | Some b => exists rb, b = Dir rb eb
     end ->
     lookup eb stamped = None ->
     let run := convertSkill s targetDir copy backup w in
     fst run = Succeed (mkResult s true copied target None) /\
     get (w_fs (snd run)) target = Some N /\
     get (w_fs (snd run)) (path_join backupDir stamped) = Some old /\
     get (w_fs (snd run)) (skill_path s) = Some N).
Proof.
  intros s td w ro ents old N eb W G L Gq Hk Hc Hh target backupDir stamped
    A1 A2.
  subst target backupDir. unfold path_join in *.
  pose proof (@get_wf _ _ N W Gq) as Hw.
  split.
  - intros Hl Hr.
    destruct (@overwrite_run s td copy w ro ents old G L Hl) as [_ Hb].
    rewrite (proj2 (@rm_node_removable (S (height old)) old
                      (Nat.lt_succ_diag_r _)) Hr) in Hb.
    destruct (@get_del_child (w_fs w) td ro ents (skill_name s) old W G L)
      as (ents' & Gd & Ld).
    assert (Gq1 : get (del (td ++ [skill_name s]) (w_fs w)) (skill_path s)
                  = Some N)
      by (unfold del; rewrite get_alter_other; assumption).
    pose proof (@copy_proceed s td
                  (with_fs w (del (td ++ [skill_name s]) (w_fs w)))
                  ro ents' N Gd Ld Gq1 Hk Hw Hc Hh A1) as P.
    unfold path_join in P.
    unfold convertSkill, Effect_try. rewrite Hb, P.
    unfold with_fs. cbn [fst snd w_fs].
    split; [reflexivity | ]. split.
    + eapply get_put_new; eassumption.
    + unfold put. rewrite get_alter_other; assumption.
  - intros Ne B1 B2 Hbk Le.
    assert (Gt : get (w_fs w) (td ++ [skill_name s]) = Some old)
      by (rewrite get_snoc, G; exact L).
    destruct (@backup_ensured w td ro ents (skill_name s) old eb W G L Hbk)
      as (w1 & ents1 & rb & E1 & Ck & W1 & G1 & Ln1 & Lb1 & Fr1).
    destruct (@backup_from s td copy w ro old eb w1 ents1 rb Gt Ne eq_refl
                Le E1 Ck W1 G1 Ln1 Lb1 Fr1)
      as (w2 & _ & Hb & Hq & Ht & _ & Fr).
    destruct (@get_parent _ _ _ _ Hq) as (rb' & eb' & Gb & Lb).
    destruct (@get_parent _ _ _ _ Gb) as (ro' & ents' & Gd & _).
    assert (Ld : lookup ents' (skill_name s) = None)
      by (rewrite get_snoc, Gd in Ht; exact Ht).
    assert (Gq2 : get (w_fs w2) (skill_path s) = Some N)
      by (rewrite (Fr _ A2 A1 B2 B1); exact Gq).
    pose proof (@copy_proceed s td w2 ro' ents' N Gd Ld Gq2 Hk Hw Hc Hh A1)
      as P.
    unfold path_join in P.
    unfold convertSkill, Effect_try. rewrite Hb, P.
    unfold with_fs. cbn [fst snd w_fs].
    assert (Fresh : get (w_fs w2) (td ++ [skill_name s]) = None)
      by exact Ht.
    split; [reflexivity | ]. split; [ | split].
    + eapply get_put_new; eassumption.
    + unfold put. rewrite get_alter_other; [exact Hq | | ].
      * eapply fresh_not_above; eassumption.
      * rewrite <- app_assoc, is_prefix_app_l. cbn [is_prefix app].
        apply andb_false_r.
    + unfold put. rewrite get_alter_other; assumption.
Qed.

Lemma copy_replaces_what_was_there_witness :
  let run :=
    convertSkill Sample.real ["tgt"] copy backup Sample.world_linked in
  fst run = Succeed (mkResult Sample.real true copied ["tgt"; "real"] None) /\
  get (w_fs (snd run)) ["tgt"; "_backup"; "real-1700000000002"]
    = Some (Symlink (LRel 1 ["src"; "real"])) /\
  get (w_fs (snd run)) ["tgt"; "real"; "run.sh"]
    = Some (File 493 "#!/bin/sh").
Proof.
  intros run.
  destruct (@copy_replaces_what_was_there Sample.real ["tgt"]
              Sample.world_linked true _ _ _ []
              eq_refl eq_refl eq_refl eq_refl eq_refl eq_refl
              ltac:(unfold PATH_MAX; simpl; lia) eq_refl eq_refl)
    as [_ H].
  destruct (H ltac:(discriminate) eq_refl eq_refl eq_refl eq_refl)
    as (H1 & H2 & H3 & _).
  split; [exact H1 | ]. split; [exact H3 | ].
  change ["tgt"; "real"; "run.sh"] with (["tgt"; "real"] ++ ["run.sh"]).
  rewrite get_app. unfold run.
  etransitivity; [ | reflexivity].
  unfold path_join in H2. simpl skill_name in H2. simpl app in H2.
  simpl app. rewrite H2. reflexivity.
Defined.
